(** * Kosmos, the CIAS-X "AI scientist" loop: world model, analysis, planner, loop

    A shallow embedding of [kosmos/ai_scientist] (data_structures.py,
    world_model.py, analysis.py, planner.py, executor.py, scientist_loop.py)
    and the properties of its specification.

    Conventions of the embedding.
    - A Python [float] is a [pyfloat]: a rational ([Qc], canonical, so that
      [==] on finite values is Leibniz equality), an infinity or NaN.  Order
      comparisons are those of IEEE 754.  The sums and quotients of the
      analysis and of the planner, which round, are not computed here but
      taken from the [Runtime], as is the list of the attributes that an
      object inherits from its class.
    - A Python exception is a value of [exn]; a call that may raise returns a
      [result].
    - [dict]s with string keys are [gmap string _] where they are looked up by key
      and association lists where the insertion order is observable.
    - [print] calls are dropped, except for the dictionary reads they perform. *)

From Stdlib Require Import Ascii String QArith Qcanon.
From stdpp Require Import base option numbers list strings gmap pretty.

Set Warnings "-register-all".
Open Scope string_scope.
Open Scope list_scope.
Open Scope Z_scope.

(** ** Exceptions and results *)

Inductive exn : Type :=
| KeyError (key : string)
| IndexError
| TypeError
| AttributeError (name : string)
| ExecutionError (msg : string).

Inductive result (A : Type) : Type :=
| Ok (a : A)
| Raise (e : exn).
Arguments Ok {A} a.
Arguments Raise {A} e.

#[global] Instance result_ret : MRet result := fun _ a => Ok a.
#[global] Instance result_bind : MBind result := fun _ _ f m =>
  match m with
  | Ok a => f a
  | Raise e => Raise e
  end.

Definition is_ok {A} (r : result A) : Prop :=
  match r with Ok _ => True | Raise _ => False end.

(** ** Floats *)

(** A [float]: finite, infinite or NaN.  The two zeros are one value. *)
Inductive pyfloat : Type :=
| Finite (q : Qc)
| PosInf
| NegInf
| NaN.

Definition is_nan (x : pyfloat) : bool :=
  match x with NaN => true | _ => false end.

(** [x < y] on floats: [False] as soon as one side is NaN. *)
Definition float_lt (x y : pyfloat) : bool :=
  match x, y with
  | NaN, _ | _, NaN => false
  | _, NegInf => false
  | NegInf, _ => true
  | PosInf, _ => false
  | Finite _, PosInf => true
  | Finite a, Finite b => bool_decide (a < b)%Qc
  end.

(** ** The Python runtime *)

(** What the code takes from the interpreter and its library, and the
    embedding leaves open.
    - [class_attribute name] says whether an instance of a data class such as
      [Metrics] has an attribute [name] that is not one of its fields, and
      whether values of its type can be ordered: [Some true] for [__doc__] and
      [__module__] (strings), [Some false] for [__dict__], [__class__],
      [__hash__] (which is [None]) and the methods, [None] for a name that
      is no attribute at all.
    - [float_sum l] is the float that [sum(l)] returns, and [float_div x n]
      is [x / n] for a positive [int] [n]; both round. *)
Class Runtime : Type := {
  class_attribute : string → option bool;
  float_sum : list pyfloat → pyfloat;
  float_div : pyfloat → nat → pyfloat
}.

(** ** Python values held by [Dict[str, Any]] fields *)

Inductive pyval : Type :=
| PNone
| PInt (z : Z)
| PFloat (x : pyfloat)
| PStr (s : string)
| PList (l : list pyval)
| PDict (d : list (string * pyval)).

Abbreviation pydict := (list (string * pyval)).

(** ** data_structures.py *)

Record Configuration : Type := {
  forward_config : pydict;
  recon_family : string;
  recon_params : pydict;
  uq_scheme : string;
  uq_params : pydict;
  train_config : pydict
}.

Record Metrics : Type := {
  psnr : pyfloat;
  coverage : pyfloat;
  latency : pyfloat;
  calibration_error : option pyfloat;
  other_metrics : list (string * pyfloat)
}.

(** The field [uq_params] of [Artifacts] is [fitted_uq_params] here: a record
    field name is global, and [Configuration] has a field of that name. *)
Record Artifacts : Type := {
  checkpoint : string;
  fitted_uq_params : pydict;
  train_log : string;
  eval_samples : list string;
  fig_scripts : list string
}.

Record ExperimentRecord : Type := {
  id : string;
  config : Configuration;
  metrics : Metrics;
  artifacts : Artifacts;
  timestamp : string
}.

(** [indices] is a [defaultdict(list)]; its lists hold [(value, id)] tuples. *)
Record WorldModel : Type := {
  experiments : list ExperimentRecord;
  indices : gmap string (list (string * string))
}.

Definition WorldModel_new : WorldModel :=
  {| experiments := []; indices := ∅ |}.

Definition get_all_experiments (wm : WorldModel) : list ExperimentRecord :=
  experiments wm.

(** Reading [d[k]] on a [defaultdict(list)]: a missing key reads as []. *)
Definition defaultdict_get {V} (d : gmap string (list V)) (k : string) : list V :=
  default [] (d !! k).

(** [d[k].append(v)] on a [defaultdict(list)]. *)
Definition defaultdict_append {V} (d : gmap string (list V)) (k : string) (v : V)
  : gmap string (list V) :=
  <[k := defaultdict_get d k ++ [v]]> d.

(** [d[k]] on a plain [dict]. *)
Definition dict_getitem {V} (d : gmap string V) (k : string) : result V :=
  match d !! k with
  | Some v => Ok v
  | None => Raise (KeyError k)
  end.

(** The random identifiers of [uuid.uuid4]: the [n]-th draw of the process is
    [uuid4 n].  [ExperimentRecord.__post_init__] draws again when the id it was
    given is empty.  The result is the record and the number of draws so far. *)
Definition ExperimentRecord_init (uuid4 : nat → string) (draws : nat)
    (id0 : string) (c : Configuration) (m : Metrics) (a : Artifacts)
  : ExperimentRecord * nat :=
  if decide (id0 = "")
  then ({| id := uuid4 draws; config := c; metrics := m; artifacts := a;
           timestamp := "" |}, S draws)
  else ({| id := id0; config := c; metrics := m; artifacts := a;
           timestamp := "" |}, draws).

(** ** world_model.py *)

Module WorldModelManager.

Definition update (uuid4 : nat → string) (draws : nat) (world_model : WorldModel)
    (c : Configuration) (m : Metrics) (a : Artifacts) : WorldModel * nat :=
  let '(experiment, draws') :=
    ExperimentRecord_init uuid4 (S draws) (uuid4 draws) c m a in
  let idx1 := defaultdict_append (indices world_model) "recon_family"
                (recon_family c, id experiment) in
  let idx2 := defaultdict_append idx1 "uq_scheme"
                (uq_scheme c, id experiment) in
  ({| experiments := experiments world_model ++ [experiment];
      indices := idx2 |}, draws').

End WorldModelManager.

(** ** analysis.py *)

(** What an attribute of a [Metrics] object can be: a number (a float field),
    the [None] of an absent calibration error, the [other_metrics] mapping, or
    an attribute that the object inherits from its class, with the answer of
    the runtime whether it can be ordered. *)
Inductive attr_value : Type :=
| ANumber (x : pyfloat)
| ANone
| AMapping (d : list (string * pyfloat))
| AInherited (orderable : bool).

(** The attribute [name] of a [Metrics] object, where it has one: a field
    first, then what the object inherits from its class. *)
Definition attribute `{py : Runtime} (m : Metrics) (name : string)
  : option attr_value :=
  if decide (name = "psnr") then Some (ANumber (psnr m))
  else if decide (name = "coverage") then Some (ANumber (coverage m))
  else if decide (name = "latency") then Some (ANumber (latency m))
  else if decide (name = "calibration_error") then
    match calibration_error m with
    | Some x => Some (ANumber x)
    | None => Some ANone
    end
  else if decide (name = "other_metrics") then Some (AMapping (other_metrics m))
  else AInherited <$> class_attribute name.

(** [getattr(m, name, dflt)]. *)
Definition getattr `{py : Runtime} (m : Metrics) (name : string)
    (dflt : attr_value) : attr_value :=
  match attribute m name with
  | Some v => v
  | None => dflt
  end.

(** [a < b].  Between numbers, the [int] 0 among them, it is the comparison
    of floats.  An inherited attribute is the same object on both sides, the
    class being the same: where its type has an order ([__doc__]) it is not
    smaller than itself, and otherwise the comparison is a [TypeError], as it
    is as soon as one side is [None] or a [dict] or the two sides are of
    different kinds. *)
Definition py_lt (a b : attr_value) : result bool :=
  match a, b with
  | ANumber x, ANumber y => Ok (float_lt x y)
  | AInherited true, AInherited true => Ok false
  | _, _ => Raise TypeError
  end.

Definition py_gt (a b : attr_value) : result bool := py_lt b a.

(** [max(l, key=...)] of Python on the non-empty list [x :: l]: the running
    maximum is replaced by an item whose key is greater. *)
Fixpoint max_by {A} (key : A → pyfloat) (x : A) (l : list A) : A :=
  match l with
  | [] => x
  | y :: rest => max_by key (if float_lt (key x) (key y) then y else x) rest
  end.

(** [min(l)] likewise: the running minimum is replaced by an item that is
    smaller. *)
Fixpoint min_by {A} (key : A → pyfloat) (x : A) (l : list A) : A :=
  match l with
  | [] => x
  | y :: rest => min_by key (if float_lt (key y) (key x) then y else x) rest
  end.

Module AnalysisAgent.

Section ParetoFront.

Context `{py : Runtime}.

Definition default_objectives : list string := ["psnr"; "coverage"].

(** The loop [for obj in objectives] for one pair; the state is the pair of
    flags [(dominates, strictly_better_in_one)]. *)
Fixpoint objectives_loop (metrics1 metrics2 : Metrics) (objectives : list string)
    (strictly_better_in_one : bool) : result (bool * bool) :=
  match objectives with
  | [] => Ok (true, strictly_better_in_one)
  | obj :: rest =>
      let val1 := getattr metrics1 obj (ANumber (Finite 0%Qc)) in
      let val2 := getattr metrics2 obj (ANumber (Finite 0%Qc)) in
      lt ← py_lt val2 val1;
      if (lt : bool) then Ok (false, strictly_better_in_one)
      else gt ← py_gt val2 val1;
           objectives_loop metrics1 metrics2 rest
             (if (gt : bool) then true else strictly_better_in_one)
  end.

(** The loop [for exp2 in experiments]; the result is [is_dominated]. *)
Fixpoint inner_loop (exp1 : ExperimentRecord) (exps : list ExperimentRecord)
    (objectives : list string) : result bool :=
  match exps with
  | [] => Ok false
  | exp2 :: rest =>
      if decide (id exp1 = id exp2) then inner_loop exp1 rest objectives
      else
        flags ← objectives_loop (metrics exp1) (metrics exp2) objectives false;
        if (flags.1 && flags.2)%bool then Ok true
        else inner_loop exp1 rest objectives
  end.

(** The loop [for exp1 in experiments], over the remaining records [todo]. *)
Fixpoint outer_loop (experiments todo : list ExperimentRecord)
    (objectives : list string) (pareto_set : gset string) : result (gset string) :=
  match todo with
  | [] => Ok pareto_set
  | exp1 :: rest =>
      is_dominated ← inner_loop exp1 experiments objectives;
      outer_loop experiments rest objectives
        (if (is_dominated : bool) then pareto_set else pareto_set ∪ {[id exp1]})
  end.

Definition compute_pareto_front (experiments : list ExperimentRecord)
    (objectives : list string) : result (gset string) :=
  match experiments with
  | [] => Ok ∅
  | _ => outer_loop experiments experiments objectives ∅
  end.

End ParetoFront.

Section Formatting.

Context `{py : Runtime}.

(** The formatting built-ins of Python, which the trend strings go through:
    [format_float d x] is [f"{x:.<d>f}"] and [repr_str s] is [repr(s)]. *)
Variable format_float : nat → pyfloat → string.
Variable repr_str : string → string.

(** [str((a, b))] for a tuple of two strings. *)
Definition repr_key (key : string * string) : string :=
  "(" +:+ repr_str key.1 +:+ ", " +:+ repr_str key.2 +:+ ")".

Definition compute_calibration_stats (experiments : list ExperimentRecord)
  : gmap string pyfloat :=
  let calib_errors := omap (λ exp, calibration_error (metrics exp)) experiments in
  match calib_errors with
  | [] => <["max_error" := Finite 0%Qc]> (<["mean_error" := Finite 0%Qc]> ∅)
  | e :: rest =>
      <["min_error" := min_by (λ x, x) e rest]>
        (<["max_error" := max_by (λ x, x) e rest]>
           (<["mean_error" :=
                float_div (float_sum calib_errors) (length calib_errors)]> ∅))
  end.

Definition summarize_trends (experiments : list ExperimentRecord)
    (pareto_ids : gset string) (calib_stats : gmap string pyfloat) : result string :=
  let pareto_exps := filter (λ e, id e ∈ pareto_ids) experiments in
  match pareto_exps with
  | [] => Ok "No significant trends found."
  | e0 :: rest =>
      let avg_psnr :=
        float_div (float_sum (map (λ e, psnr (metrics e)) pareto_exps))
          (length pareto_exps) in
      let best_config := max_by (λ e, psnr (metrics e)) e0 rest in
      let summary :=
        "Pareto frontier contains " +:+ pretty (length pareto_exps)
          +:+ " configurations. " in
      let summary :=
        summary +:+ "Average PSNR: " +:+ format_float 2 avg_psnr +:+ " dB. " in
      let summary :=
        summary +:+ "Best config uses " +:+ recon_family (config best_config)
          +:+ ", " in
      let summary :=
        summary +:+ "PSNR=" +:+ format_float 2 (psnr (metrics best_config))
          +:+ " dB. " in
      mean_error ← dict_getitem calib_stats "mean_error";
      if float_lt (Finite 0%Qc) mean_error
      then Ok (summary +:+ "Average calibration error: "
                 +:+ format_float 3 mean_error +:+ ".")
      else Ok summary
  end.

(** [strata[key].append(exp)] on the [defaultdict(list)] of [analysis_step],
    kept in insertion order, as [strata.items()] enumerates it. *)
Fixpoint strata_append (strata : list ((string * string) * list ExperimentRecord))
    (key : string * string) (exp : ExperimentRecord)
  : list ((string * string) * list ExperimentRecord) :=
  match strata with
  | [] => [(key, [exp])]
  | (k, exps) :: rest =>
      if decide (k = key) then (k, exps ++ [exp]) :: rest
      else (k, exps) :: strata_append rest key exp
  end.

Definition stratum_key (exp : ExperimentRecord) : string * string :=
  (recon_family (config exp), uq_scheme (config exp)).

Definition group_strata (all_experiments : list ExperimentRecord)
  : list ((string * string) * list ExperimentRecord) :=
  fold_left (λ strata exp, strata_append strata (stratum_key exp) exp)
    all_experiments [].

(** The loop [for stratum_key, exps_in_stratum in strata.items()]. *)
Fixpoint strata_loop (strata : list ((string * string) * list ExperimentRecord))
    (pareto_set_all : gset string) (trends_all : list string)
  : result (gset string * list string) :=
  match strata with
  | [] => Ok (pareto_set_all, trends_all)
  | (key, exps_in_stratum) :: rest =>
      pareto_ids ← compute_pareto_front exps_in_stratum
                     ["psnr"; "coverage"];
      let calib_stats := compute_calibration_stats exps_in_stratum in
      trend_summary ← summarize_trends exps_in_stratum pareto_ids calib_stats;
      strata_loop rest (pareto_set_all ∪ pareto_ids)
        (trends_all ++ ["[" +:+ repr_key key +:+ "] " +:+ trend_summary])
  end.

Definition analysis_step (world_model : WorldModel)
  : result (gset string * list string) :=
  let all_experiments := get_all_experiments world_model in
  let strata := group_strata all_experiments in
  strata_loop strata ∅ [].

End Formatting.

End AnalysisAgent.

(** ** planner.py *)

(** A raw proposal of the LLM is a [dict] that the planner reads at six keys
    only, each time with [proposal.get(key, default)].  Each key is absent
    ([None]) or holds a value of the type the [Configuration] field declares. *)
Record Proposal : Type := {
  p_forward_config : option pydict;
  p_recon_family : option string;
  p_recon_params : option pydict;
  p_uq_scheme : option string;
  p_uq_params : option pydict;
  p_train_config : option pydict
}.

(** [d.get(k, dflt)] on an optional entry. *)
Definition get_or {A} (entry : option A) (dflt : A) : A := default dflt entry.

(** [l[0]]. *)
Definition list_getitem0 {A} (l : list A) : result A :=
  match l with
  | [] => Raise IndexError
  | x :: _ => Ok x
  end.

(** [l[:n]] of Python, a negative [n] counting from the end. *)
Definition py_slice_to {A} (l : list A) (n : Z) : list A :=
  if bool_decide (0 ≤ n) then take (Z.to_nat n) l
  else take (length l - Z.to_nat (- n))%nat l.

(** [len(v)]. *)
Definition py_len (v : pyval) : result nat :=
  match v with
  | PStr s => Ok (String.length s)
  | PList l => Ok (length l)
  | PDict d => Ok (length d)
  | _ => Raise TypeError
  end.

(** [v.keys()]. *)
Definition py_keys (v : pyval) : result (list string) :=
  match v with
  | PDict d => Ok (d.*1)
  | _ => Raise (AttributeError "keys")
  end.

(** [counts[k] += 1] on a [defaultdict(int)], in insertion order. *)
Fixpoint count_increment (counts : list (string * Z)) (k : string)
  : list (string * Z) :=
  match counts with
  | [] => [(k, 1)]
  | (k', n) :: rest =>
      if decide (k' = k) then (k', n + 1) :: rest
      else (k', n) :: count_increment rest k
  end.

Definition counts_to_pyval (counts : list (string * Z)) : pyval :=
  PDict (map (λ kn, (kn.1, PInt kn.2)) counts).

Definition newline : string := String "010"%char EmptyString.

Module Planner.

Definition summarize_world_model `{py : Runtime} (world_model : WorldModel)
  : gmap string pyval :=
  match get_all_experiments world_model with
  | [] =>
      <["underexplored" := PList [PStr "all"]]>
        (<["constraints" := PDict []]>
           (<["frontiers" := PList []]>
              (<["best_psnr" := PFloat (Finite 0%Qc)]>
                 (<["total_experiments" := PInt 0]> ∅))))
  | e0 :: rest =>
      let experiments := e0 :: rest in
      let best_exp := max_by (λ e, psnr (metrics e)) e0 rest in
      let avg_psnr :=
        float_div (float_sum (map (λ e, psnr (metrics e)) experiments))
          (length experiments) in
      let recon_families :=
        fold_left (λ c exp, count_increment c (recon_family (config exp)))
          experiments [] in
      let uq_schemes :=
        fold_left (λ c exp, count_increment c (uq_scheme (config exp)))
          experiments [] in
      <["constraints" := PDict [("max_latency", PInt 100);
                                ("min_coverage", PFloat (Finite (Q2Qc (8 # 10))))]]>
        (<["frontiers" := PList []]>
           (<["uq_schemes" := counts_to_pyval uq_schemes]>
              (<["recon_families" := counts_to_pyval recon_families]>
                 (<["avg_psnr" := PFloat avg_psnr]>
                    (<["best_config" := PStr (recon_family (config best_exp))]>
                       (<["best_psnr" := PFloat (psnr (metrics best_exp))]>
                          (<["total_experiments" :=
                               PInt (Z.of_nat (length experiments))]> ∅)))))))
  end.

Definition all_families : list string :=
  ["CIAS-Core"; "CIAS-Core-ELP"; "Baseline-CNN"].
Definition all_uq : list string := ["Conformal"; "Ensemble"; "None"].

Definition identify_underexplored_regions (summary : gmap string pyval)
  : result (list string) :=
  tested_families ← py_keys (default (PDict []) (summary !! "recon_families"));
  let gaps1 :=
    map (λ family, "recon_family:" +:+ family)
      (filter (λ family, family ∉ tested_families) all_families) in
  tested_uq ← py_keys (default (PDict []) (summary !! "uq_schemes"));
  let gaps2 :=
    map (λ uq, "uq_scheme:" +:+ uq)
      (filter (λ uq, uq ∉ tested_uq) all_uq) in
  let gaps := gaps1 ++ gaps2 in
  Ok (match gaps with [] => ["explore_variations"] | _ => gaps end).

Section Prompt.

(** [str(v)] of a Python value, as the prompt's f-string prints the
    constraints. *)
Variable repr_val : pyval → string.

Definition build_planner_prompt (gaps : list string) (frontiers : pyval)
    (constraints : pyval) (budget : Z) : result string :=
  n_frontiers ← py_len frontiers;
  Ok ("You are an AI experiment designer for snapshot compressive imaging (SCI)."
      +:+ newline +:+ newline
      +:+ "Current state:" +:+ newline
      +:+ "- Under-explored regions: " +:+ String.concat ", " gaps +:+ newline
      +:+ "- Pareto frontier: " +:+ pretty n_frontiers +:+ " configurations"
      +:+ newline
      +:+ "- Constraints: " +:+ repr_val constraints +:+ newline
      +:+ "- Remaining budget: " +:+ pretty budget +:+ " experiments"
      +:+ newline +:+ newline
      +:+ "Propose " +:+ pretty (Z.min 3 budget)
      +:+ " new experiment configurations, prioritizing under-explored regions."
      +:+ newline
      +:+ "Each configuration should include: recon_family, uq_scheme, and relevant parameters."
      +:+ newline).

(** The simulated LLM: the prompt is printed and three fixed proposals come
    back. *)
Definition llm_generate_configs (prompt : string) : list Proposal :=
  [ {| p_recon_family := Some "CIAS-Core-ELP";
       p_uq_scheme := Some "Conformal";
       p_recon_params := Some [("num_layers", PInt 10); ("hidden_dim", PInt 128)];
       p_forward_config := Some [("compression_ratio", PInt 8)];
       p_uq_params := Some [("alpha", PFloat (Finite (Q2Qc (1 # 10))))];
       p_train_config :=
         Some [("epochs", PInt 50); ("lr", PFloat (Finite (Q2Qc (1 # 1000))))] |};
    {| p_recon_family := Some "CIAS-Core";
       p_uq_scheme := Some "Ensemble";
       p_recon_params := Some [("num_layers", PInt 8); ("hidden_dim", PInt 64)];
       p_forward_config := Some [("compression_ratio", PInt 16)];
       p_uq_params := Some [("n_models", PInt 5)];
       p_train_config :=
         Some [("epochs", PInt 40); ("lr", PFloat (Finite (Q2Qc (5 # 10000))))] |};
    {| p_recon_family := Some "Baseline-CNN";
       p_uq_scheme := Some "None";
       p_recon_params := Some [("num_layers", PInt 6)];
       p_forward_config := Some [("compression_ratio", PInt 8)];
       p_uq_params := Some [];
       p_train_config :=
         Some [("epochs", PInt 30); ("lr", PFloat (Finite (Q2Qc (1 # 1000))))] |} ].

Definition project_to_design_space (proposal : Proposal)
    (design_space : gmap string (list string)) : result Configuration :=
  let recon_family0 := get_or (p_recon_family proposal) "CIAS-Core" in
  recon_family1 ←
    (if bool_decide (recon_family0 ∉ default [] (design_space !! "recon_families"))
     then families ← dict_getitem design_space "recon_families";
          list_getitem0 families
     else Ok recon_family0);
  Ok {| forward_config := get_or (p_forward_config proposal) [];
        recon_family := recon_family1;
        recon_params := get_or (p_recon_params proposal) [];
        uq_scheme := get_or (p_uq_scheme proposal) "None";
        uq_params := get_or (p_uq_params proposal) [];
        train_config := get_or (p_train_config proposal) [] |}.

Definition is_valid_config (config : Configuration) (constraints : pyval) : bool :=
  true.

(** The loop [for proposal in proposals_raw] of [planner_step]. *)
Fixpoint project_loop (proposals_raw : list Proposal)
    (design_space : gmap string (list string)) (constraints : pyval)
    (new_configs : list Configuration) : result (list Configuration) :=
  match proposals_raw with
  | [] => Ok new_configs
  | proposal :: rest =>
      config ← project_to_design_space proposal design_space;
      project_loop rest design_space constraints
        (if is_valid_config config constraints then new_configs ++ [config]
         else new_configs)
  end.

Definition planner_step (summary : gmap string pyval)
    (design_space : gmap string (list string)) (budget_remaining : Z)
  : result (list Configuration) :=
  gaps ← identify_underexplored_regions summary;
  let frontiers := default (PList []) (summary !! "frontiers") in
  let constraints := default (PDict []) (summary !! "constraints") in
  prompt ← build_planner_prompt gaps frontiers constraints budget_remaining;
  let proposals_raw := llm_generate_configs prompt in
  new_configs ← project_loop proposals_raw design_space constraints [];
  Ok (if bool_decide (budget_remaining < Z.of_nat (length new_configs))
      then py_slice_to new_configs budget_remaining
      else new_configs).

End Prompt.

End Planner.

(** ** executor.py *)

(** The randomness of the process: how many numbers were drawn from [random]
    and how many identifiers from [uuid] so far. *)
Record Entropy : Type := {
  rand_draws : nat;
  uuid_draws : nat
}.

(** An executor takes the configuration and the randomness consumed so far,
    and returns metrics and artifacts or raises. *)
Definition executor : Type :=
  Entropy → Configuration → Entropy * result (Metrics * Artifacts).

Module Executor.

Section Simulated.

(** [uniform n a b] is what the [n]-th call of the process to
    [random.uniform] returns when it is [random.uniform(a, b)], a finite
    float, and [uuid4 n] is [str] of the [n]-th [uuid.uuid4()]; its first
    eight characters are [.hex[:8]].  The sum of the base PSNR and the draw is
    taken exactly: rounding moves it by less than the spacing of the floats
    and not across the bounds of its range, which are floats themselves. *)
Variable uniform : nat → Qc → Qc → Qc.
Variable uuid4 : nat → string.

Definition run_campaign : executor := λ en config,
  let uq_params_fitted : pydict :=
    if decide (uq_scheme config = "Conformal")
    then [("threshold", PFloat (Finite (Q2Qc (9 # 10))));
          ("alpha", PFloat (Finite (Q2Qc (1 # 10))))]
    else if decide (uq_scheme config = "Ensemble")
    then [("n_models", PInt 5); ("variance", PFloat (Finite (Q2Qc (5 # 100))))]
    else [] in
  let base_psnr : Qc :=
    if decide (recon_family config = "CIAS-Core-ELP")
    then Q2Qc (28 # 1) else Q2Qc (26 # 1) in
  let r := rand_draws en in
  let has_uq := bool_decide (uq_scheme config ≠ "None") in
  let metrics :=
    {| psnr := Finite (base_psnr + uniform r (Q2Qc (-2 # 1)) (Q2Qc (3 # 1)))%Qc;
       coverage := Finite (uniform (r + 1) (Q2Qc (85 # 100)) (Q2Qc (95 # 100)));
       latency := Finite (uniform (r + 2) (Q2Qc (10 # 1)) (Q2Qc (50 # 1)));
       calibration_error :=
         if has_uq
         then Some (Finite (uniform (r + 3) (Q2Qc (1 # 100)) (Q2Qc (1 # 10))))
         else None;
       other_metrics := [] |} in
  let u := uuid_draws en in
  let artifacts :=
    {| checkpoint := "checkpoint_" +:+ substring 0 8 (uuid4 u) +:+ ".pth";
       fitted_uq_params := uq_params_fitted;
       train_log := "train_log_" +:+ substring 0 8 (uuid4 (u + 1)) +:+ ".txt";
       eval_samples := map (λ i : nat, "sample_" +:+ pretty i +:+ ".png") (seq 0 3);
       fig_scripts := map (λ i : nat, "figure_" +:+ pretty i +:+ ".py") (seq 0 2) |} in
  ({| rand_draws := (if has_uq then r + 4 else r + 3)%nat;
      uuid_draws := (u + 2)%nat |},
   Ok (metrics, artifacts)).

End Simulated.

End Executor.

(** ** scientist_loop.py *)

(** How a call of [run] ends: it returns, it raises, or the model ran out of
    the iterations it was allowed. *)
Inductive outcome (A : Type) : Type :=
| Returned (a : A)
| Raised (e : exn)
| OutOfFuel.
Arguments Returned {A} a.
Arguments Raised {A} e.
Arguments OutOfFuel {A}.

(** The attributes of the loop object that [run] changes, its local
    [budget_used], and the randomness consumed. *)
Record LoopState : Type := {
  self_world_model : WorldModel;
  self_planner_context : gmap string pyval;
  budget_used : Z;
  entropy : Entropy
}.

Definition loopM (A : Type) : Type := LoopState → LoopState * outcome A.

#[global] Instance loopM_ret : MRet loopM := λ _ a s, (s, Returned a).
#[global] Instance loopM_bind : MBind loopM := λ _ _ f m s,
  match m s with
  | (s', Returned a) => f a s'
  | (s', Raised e) => (s', Raised e)
  | (s', OutOfFuel) => (s', OutOfFuel)
  end.

Definition lift_result {A} (r : result A) : loopM A := λ s,
  (s, match r with Ok a => Returned a | Raise e => Raised e end).

Definition get_state : loopM LoopState := λ s, (s, Returned s).

Definition set_budget_used (b : Z) : loopM unit := λ s,
  ({| self_world_model := self_world_model s;
      self_planner_context := self_planner_context s;
      budget_used := b;
      entropy := entropy s |}, Returned ()).

Definition set_planner_context (k : string) (v : pyval) : loopM unit := λ s,
  ({| self_world_model := self_world_model s;
      self_planner_context := <[k := v]> (self_planner_context s);
      budget_used := budget_used s;
      entropy := entropy s |}, Returned ()).

Module AIScientistLoop.

Section Run.

Context `{py : Runtime}.

Variable format_float : nat → pyfloat → string.
Variable repr_str : string → string.
Variable uuid4 : nat → string.

(** The two collaborators of the loop.  [run_with] is [run] with them as
    parameters; [run] below calls the planner and the executor of the
    repository. *)
Variable planner_step :
  gmap string pyval → gmap string (list string) → Z → result (list Configuration).
Variable run_campaign : executor.

Variable design_space : gmap string (list string).
Variable initial_configs : list Configuration.
Variable budget_max : Z.

(** [metrics, artifacts = Executor.run_campaign(config)] *)
Definition call_run_campaign (config : Configuration) : loopM (Metrics * Artifacts) :=
  λ s,
  let '(en, r) := run_campaign (entropy s) config in
  ({| self_world_model := self_world_model s;
      self_planner_context := self_planner_context s;
      budget_used := budget_used s;
      entropy := en |},
   match r with Ok ma => Returned ma | Raise e => Raised e end).

(** [self.world_model = WorldModelManager.update(self.world_model, config,
    metrics, artifacts)] *)
Definition call_update (config : Configuration) (m : Metrics) (a : Artifacts)
  : loopM unit := λ s,
  let '(wm, draws) :=
    WorldModelManager.update uuid4 (uuid_draws (entropy s)) (self_world_model s)
      config m a in
  ({| self_world_model := wm;
      self_planner_context := self_planner_context s;
      budget_used := budget_used s;
      entropy := {| rand_draws := rand_draws (entropy s); uuid_draws := draws |} |},
   Returned ()).

(** Phase 1, the loop [for i, config in enumerate(self.initial_configs, 1)]. *)
Fixpoint seed_phase (configs : list Configuration) : loopM unit :=
  match configs with
  | [] => mret ()
  | config :: rest =>
      ma ← call_run_campaign config;
      call_update config ma.1 ma.2 ;;
      seed_phase rest
  end.

(** Phase C, the loop [for j, config in enumerate(new_configs, 1)] with its
    [break]. *)
Fixpoint execute_round (new_configs : list Configuration) : loopM unit :=
  match new_configs with
  | [] => mret ()
  | config :: rest =>
      ma ← call_run_campaign config;
      call_update config ma.1 ma.2 ;;
      s ← get_state;
      set_budget_used (budget_used s + 1) ;;
      if bool_decide (budget_max ≤ budget_used s + 1) then mret ()
      else execute_round rest
  end.

(** One iteration of the [while] loop, phases A to E. *)
Definition discovery_round : loopM unit :=
  s ← get_state;
  let summary := Planner.summarize_world_model (self_world_model s) in
  lift_result (dict_getitem summary "total_experiments") ;;
  lift_result (dict_getitem summary "best_psnr") ;;
  lift_result (dict_getitem summary "avg_psnr") ;;
  let budget_remaining := budget_max - budget_used s in
  new_configs ← lift_result (planner_step summary design_space budget_remaining);
  execute_round new_configs ;;
  s' ← get_state;
  pt ← lift_result
         (AnalysisAgent.analysis_step format_float repr_str (self_world_model s'));
  set_planner_context "trends" (PList (map PStr pt.2)) ;;
  set_planner_context "pareto_size" (PInt (Z.of_nat (size pt.1))).

(** Phase 2, [while budget_used < self.budget_max], for at most [fuel]
    iterations. *)
Fixpoint discovery_loop (fuel : nat) : loopM unit := λ s,
  if bool_decide (budget_used s < budget_max) then
    match fuel with
    | O => (s, OutOfFuel)
    | S fuel' => (discovery_round ;; discovery_loop fuel') s
    end
  else (s, Returned ()).

Definition initial_state (en : Entropy) : LoopState :=
  {| self_world_model := WorldModel_new;
     self_planner_context := ∅;
     budget_used := 0;
     entropy := en |}.

Definition run_with (fuel : nat) : loopM (gset string * WorldModel) :=
  seed_phase initial_configs ;;
  set_budget_used (Z.of_nat (length initial_configs)) ;;
  discovery_loop fuel ;;
  s ← get_state;
  pt ← lift_result
         (AnalysisAgent.analysis_step format_float repr_str (self_world_model s));
  mret (pt.1, self_world_model s).

End Run.

(** [AIScientistLoop(design_space, initial_configs, budget_max).run()] *)
Definition run `{py : Runtime} (format_float : nat → pyfloat → string)
    (repr_str : string → string)
    (repr_val : pyval → string) (uniform : nat → Qc → Qc → Qc)
    (uuid4 : nat → string) (design_space : gmap string (list string))
    (initial_configs : list Configuration) (budget_max : Z) (fuel : nat)
  : loopM (gset string * WorldModel) :=
  run_with format_float repr_str uuid4 (Planner.planner_step repr_val)
    (Executor.run_campaign uniform uuid4) design_space initial_configs budget_max
    fuel.

End AIScientistLoop.

(** ** Export and import of the data classes *)

(** [dataclasses._asdict_inner] on the value of a field: a list or a dict is
    rebuilt element by element, any other value is deep-copied. *)
Fixpoint asdict_inner (v : pyval) : pyval :=
  match v with
  | PList l => PList (map asdict_inner l)
  | PDict d => PDict (map (λ kv, let '(k, x) := kv in (k, asdict_inner x)) d)
  | _ => v
  end.

(** [Configuration.to_dict], that is [asdict(self)]: one entry per field, in
    the order of the fields. *)
Definition Configuration_to_dict (c : Configuration) : pydict :=
  [ ("forward_config", asdict_inner (PDict (forward_config c)));
    ("recon_family", asdict_inner (PStr (recon_family c)));
    ("recon_params", asdict_inner (PDict (recon_params c)));
    ("uq_scheme", asdict_inner (PStr (uq_scheme c)));
    ("uq_params", asdict_inner (PDict (uq_params c)));
    ("train_config", asdict_inner (PDict (train_config c))) ].

Definition Configuration_fields : list string :=
  ["forward_config"; "recon_family"; "recon_params"; "uq_scheme"; "uq_params";
   "train_config"].

(** One keyword argument of the constructor call; a missing one is a
    [TypeError]. *)
Definition kwarg (kwargs : pydict) (name : string) : result pyval :=
  match list_find (λ kv, kv.1 = name) kwargs with
  | Some (_, (_, v)) => Ok v
  | None => Raise TypeError
  end.

(** The records of this model are typed as the data class annotates its
    fields; a keyword value of another kind has no counterpart and is refused. *)
Definition as_mapping (v : pyval) : result pydict :=
  match v with PDict d => Ok d | _ => Raise TypeError end.
Definition as_string (v : pyval) : result string :=
  match v with PStr s => Ok s | _ => Raise TypeError end.

(** The generated constructor called on the keyword arguments [kwargs], as
    supervisor.py calls it on the dictionaries it loads; an unexpected keyword
    is a [TypeError]. *)
Definition Configuration_init (kwargs : pydict) : result Configuration :=
  if bool_decide (Forall (λ kv, kv.1 ∈ Configuration_fields) kwargs) then
    fc ← kwarg kwargs "forward_config" ≫= as_mapping;
    rf ← kwarg kwargs "recon_family" ≫= as_string;
    rp ← kwarg kwargs "recon_params" ≫= as_mapping;
    us ← kwarg kwargs "uq_scheme" ≫= as_string;
    up ← kwarg kwargs "uq_params" ≫= as_mapping;
    tc ← kwarg kwargs "train_config" ≫= as_mapping;
    Ok {| forward_config := fc; recon_family := rf; recon_params := rp;
          uq_scheme := us; uq_params := up; train_config := tc |}
  else Raise TypeError.

(** The core entities and their classes. *)
Inductive entity : Type :=
| EConfiguration (c : Configuration)
| EMetrics (m : Metrics)
| EArtifacts (a : Artifacts)
| EExperimentRecord (r : ExperimentRecord).

Inductive entity_class : Type :=
| CConfiguration
| CMetrics
| CArtifacts
| CExperimentRecord.

(** [obj.to_dict()]: [Configuration] is the only class of data_structures.py
    that defines [to_dict]; on the others the attribute lookup fails. *)
Definition entity_to_dict (obj : entity) : result pydict :=
  match obj with
  | EConfiguration c => Ok (Configuration_to_dict c)
  | _ => Raise (AttributeError "to_dict")
  end.

(** [cls.from_dict(d)]: no class of data_structures.py defines [from_dict]. *)
Definition class_from_dict (cls : entity_class) (d : pydict) : result entity :=
  Raise (AttributeError "from_dict").

(** ** The Pareto frontier in the words of the specification *)

(** [x <= y] on floats: [False] as soon as one side is NaN. *)
Definition float_le (x y : pyfloat) : bool :=
  match x, y with
  | NaN, _ | _, NaN => false
  | NegInf, _ => true
  | _, PosInf => true
  | Finite a, Finite b => bool_decide (a ≤ b)%Qc
  | _, _ => false
  end.

Definition is_number (v : attr_value) : bool :=
  match v with ANumber _ => true | _ => false end.

(** The values that the code compares without an exception: numbers, NaN
    among them, and inherited attributes whose type has an order. *)
Definition is_comparable (v : attr_value) : bool :=
  match v with
  | ANumber _ => true
  | AInherited orderable => orderable
  | _ => false
  end.

(** The values that are ordered: the comparable ones other than NaN. *)
Definition is_ordered (v : attr_value) : bool :=
  match v with
  | ANumber x => negb (is_nan x)
  | AInherited orderable => orderable
  | _ => false
  end.

(** [b >= a]: between numbers the comparison of floats; an inherited
    attribute that has an order is the same on both sides. *)
Definition value_le (a b : attr_value) : bool :=
  match a, b with
  | ANumber x, ANumber y => float_le x y
  | AInherited true, AInherited true => true
  | _, _ => false
  end.

(** [b > a]: [b >= a] and not [a >= b]. *)
Definition value_lt (a b : attr_value) : bool :=
  value_le a b && negb (value_le b a).

(** What the code finds when it evaluates [a < b]: whether the comparison
    returns [True]. *)
Definition py_ltb (a b : attr_value) : bool :=
  match py_lt a b with
  | Ok true => true
  | _ => false
  end.

Section Dominance.

Context `{py : Runtime}.

(** A record's value on an objective: its metrics attribute of that name, 0
    when the attribute is missing. *)
Definition objective_value (e : ExperimentRecord) (obj : string) : attr_value :=
  match attribute (metrics e) obj with
  | Some v => v
  | None => ANumber (Finite 0%Qc)
  end.

(** Every record has a number at every objective; the number may be NaN. *)
Definition numeric_on (exps : list ExperimentRecord) (objs : list string) : bool :=
  forallb (λ e, forallb (λ o, is_number (objective_value e o)) objs) exps.

(** Every record has a comparable value at every objective. *)
Definition comparable_on (exps : list ExperimentRecord) (objs : list string)
  : bool :=
  forallb (λ e, forallb (λ o, is_comparable (objective_value e o)) objs) exps.

(** Every record has an ordered value at every objective: no [None], no
    mapping, no method, and no NaN. *)
Definition ordered_on (exps : list ExperimentRecord) (objs : list string) : bool :=
  forallb (λ e, forallb (λ o, is_ordered (objective_value e o)) objs) exps.

(** [b] dominates [a]: at least as good on every objective and strictly
    better on one. *)
Definition dominates (objs : list string) (b a : ExperimentRecord) : Prop :=
  (∀ o, o ∈ objs → value_le (objective_value a o) (objective_value b o) = true) ∧
  (∃ o, o ∈ objs ∧ value_lt (objective_value a o) (objective_value b o) = true).

(** What the loops of the code decide for a pair of records with comparable
    values: [b] is below [a] on no objective and above it on one. *)
Definition dominatesb (objs : list string) (b a : ExperimentRecord) : bool :=
  forallb (λ o, negb (py_ltb (objective_value b o) (objective_value a o))) objs
  && existsb (λ o, py_ltb (objective_value a o) (objective_value b o)) objs.


End Dominance.

(** ** Index consistency of the world model *)

(** A sequence of [WorldModelManager.update] calls, one per executed
    configuration. *)
Definition update_all (uuid4 : nat → string) (draws : nat) (wm : WorldModel)
    (runs : list (Configuration * Metrics * Artifacts)) : WorldModel * nat :=
  fold_left (λ st run, WorldModelManager.update uuid4 st.2 st.1 run.1.1 run.1.2 run.2)
    runs (wm, draws).

(** Every pair of an index names the id of a record of the sequence, and every
    record has its family pair and its scheme pair in the two indices. *)
Definition index_consistent (wm : WorldModel) : Prop :=
  (∀ k v i, (v, i) ∈ defaultdict_get (indices wm) k →
            ∃ r, r ∈ experiments wm ∧ id r = i) ∧
  (∀ r, r ∈ experiments wm →
        (recon_family (config r), id r) ∈ defaultdict_get (indices wm) "recon_family" ∧
        (uq_scheme (config r), id r) ∈ defaultdict_get (indices wm) "uq_scheme").

(** ** Strata of the analysis step *)

(** The strata built so far partition the records processed so far by the
    pair (reconstruction family, UQ scheme): the keys are distinct, the
    stratum of a key holds exactly the processed records with that family and
    that scheme, in order, none is empty, and together they hold every
    processed record once. *)
Definition strata_partition
    (strata : list ((string * string) * list ExperimentRecord))
    (processed : list ExperimentRecord) : Prop :=
  NoDup (strata.*1) ∧
  Forall (λ kl, kl.2 ≠ [] ∧
                kl.2 = filter (λ e, (recon_family (config e), uq_scheme (config e))
                                    = kl.1) processed)
    strata ∧
  (∀ e, e ∈ processed → (recon_family (config e), uq_scheme (config e)) ∈ strata.*1) ∧
  concat (strata.*2) ≡ₚ processed.

(** What the loop over the strata computes for one stratum: its Pareto front
    and its trend summary. *)
Definition stratum_result `{py : Runtime} (format_float : nat → pyfloat → string)
    (s : (string * string) * list ExperimentRecord)
    (r : gset string * string) : Prop :=
  AnalysisAgent.compute_pareto_front s.2 ["psnr"; "coverage"] = Ok r.1 ∧
  AnalysisAgent.summarize_trends format_float s.2 r.1
    (AnalysisAgent.compute_calibration_stats s.2) = Ok r.2.

(** ** Budget accounting of the loop *)

(** Between two rounds, [budget_used] counts the records of the world model. *)
Definition budget_counts_records (s : LoopState) : Prop :=
  budget_used s = Z.of_nat (length (experiments (self_world_model s))).

(** An executor that never raises. *)
Definition never_raises (run_campaign : executor) : Prop :=
  ∀ en config, is_ok (run_campaign en config).2.

Definition records (s : LoopState) : list ExperimentRecord :=
  experiments (self_world_model s).

(** ** Further notions used by the properties of the code *)

(** The pairs that the family index and the scheme index hold for a sequence
    of records. *)
Definition family_pairs (exps : list ExperimentRecord) : list (string * string) :=
  map (λ r, (recon_family (config r), id r)) exps.
Definition scheme_pairs (exps : list ExperimentRecord) : list (string * string) :=
  map (λ r, (uq_scheme (config r), id r)) exps.

(** The two indices list the records one for one, in their order, and no
    other index exists. *)
Definition index_exact (wm : WorldModel) : Prop :=
  defaultdict_get (indices wm) "recon_family" = family_pairs (experiments wm) ∧
  defaultdict_get (indices wm) "uq_scheme" = scheme_pairs (experiments wm) ∧
  ∀ k, k ≠ "recon_family" → k ≠ "uq_scheme" → indices wm !! k = None.

(** A record made by [update] for one run. *)
Definition record_of_run (run : Configuration * Metrics * Artifacts)
    (r : ExperimentRecord) : Prop :=
  config r = run.1.1 ∧ metrics r = run.1.2 ∧ artifacts r = run.2 ∧
  timestamp r = "".

(** The keys of a list in the order of their first occurrence, the order in
    which a Python [dict] enumerates the keys it was given. *)
Definition first_occurrences {K} `{EqDecision K} (keys : list K) : list K :=
  fold_left (λ seen k, if decide (k ∈ seen) then seen else seen ++ [k]) keys [].

(** How often a tag occurs in a list of tags. *)
Definition occurrences (tag : string) (tags : list string) : nat :=
  length (filter (λ t, t = tag) tags).

(** The count-by-tag mapping of a list of tags: every tag once, in the order
    of first occurrence, with the number of its occurrences. *)
Definition tag_counts (tags : list string) : list (string * Z) :=
  map (λ tag, (tag, Z.of_nat (occurrences tag tags))) (first_occurrences tags).

(** The gaps that [identify_underexplored_regions] reports when the families
    [families] and the schemes [schemes] have been tested. *)
Definition expected_gaps (families schemes : list string) : list string :=
  let gaps :=
    map (λ family, "recon_family:" +:+ family)
      (filter (λ family, family ∉ families) Planner.all_families) ++
    map (λ uq, "uq_scheme:" +:+ uq)
      (filter (λ uq, uq ∉ schemes) Planner.all_uq) in
  match gaps with [] => ["explore_variations"] | _ => gaps end.

(** The number of configurations that [planner_step] returns for a budget:
    Python's slice [l[:b]] of the three proposals counts a negative [b] from
    the end. *)
Definition proposals_kept (budget_remaining : Z) : nat :=
  if bool_decide (0 ≤ budget_remaining) then Z.to_nat (Z.min 3 budget_remaining)
  else Z.to_nat (Z.max 0 (3 + budget_remaining)).

(** A step of the loop keeps a property of the loop state. *)
Definition preserves {A} (P : LoopState → Prop) (m : loopM A) : Prop :=
  ∀ s, P s → P (m s).1.

(** The ids of the records were drawn from [uuid4] before the current draw
    and are pairwise distinct. *)
Definition ids_drawn (uuid4 : nat → string) (s : LoopState) : Prop :=
  NoDup (map id (records s)) ∧
  ∀ r, r ∈ records s → ∃ k, id r = uuid4 k ∧ (k < uuid_draws (entropy s))%nat.

(** The configurations [configs] were executed first, in their order. *)
Definition starts_with (configs : list Configuration) (s : LoopState) : Prop :=
  ∃ later, map config (records s) = configs ++ later.

(** *** A concrete runtime *)

(** The attributes that an instance of a data class inherits in CPython 3.11:
    the docstring, the module name and the match arguments have an order, the
    others (methods, mappings, classes, [None]) have none. *)
Definition dataclass_attribute (name : string) : option bool :=
  if decide (name ∈ ["__doc__"; "__module__"; "__match_args__"]) then Some true
  else if decide (name ∈
    ["__annotations__"; "__class__"; "__dataclass_fields__";
     "__dataclass_params__"; "__delattr__"; "__dict__"; "__dir__"; "__eq__";
     "__format__"; "__ge__"; "__getattribute__"; "__getstate__"; "__gt__";
     "__hash__"; "__init__"; "__init_subclass__"; "__le__"; "__lt__"; "__ne__";
     "__new__"; "__reduce__"; "__reduce_ex__"; "__repr__"; "__setattr__";
     "__sizeof__"; "__str__"; "__subclasshook__"; "__weakref__"])
  then Some false
  else None.

(** Sums and quotients without rounding; the examples do not depend on
    them. *)
Definition unrounded_add (x y : pyfloat) : pyfloat :=
  match x, y with
  | NaN, _ | _, NaN => NaN
  | PosInf, NegInf | NegInf, PosInf => NaN
  | PosInf, _ | _, PosInf => PosInf
  | NegInf, _ | _, NegInf => NegInf
  | Finite a, Finite b => Finite (a + b)%Qc
  end.

Definition unrounded_sum (l : list pyfloat) : pyfloat :=
  fold_left unrounded_add l (Finite 0%Qc).

Definition unrounded_div (x : pyfloat) (n : nat) : pyfloat :=
  match x with
  | Finite a => Finite (a / Q2Qc (inject_Z (Z.of_nat n)))%Qc
  | _ => x
  end.

#[global] Instance sample_runtime : Runtime :=
  {| class_attribute := dataclass_attribute;
     float_sum := unrounded_sum;
     float_div := unrounded_div |}.

(** *** Concrete records: the example of the specification *)

Definition baseline_config : Configuration :=
  {| forward_config := []; recon_family := "Baseline-CNN"; recon_params := [];
     uq_scheme := "None"; uq_params := []; train_config := [] |}.

Definition no_artifacts : Artifacts :=
  {| checkpoint := ""; fitted_uq_params := []; train_log := "";
     eval_samples := []; fig_scripts := [] |}.

Definition record_of (i : string) (p c : pyfloat) : ExperimentRecord :=
  {| id := i; config := baseline_config;
     metrics := {| psnr := p; coverage := c; latency := Finite 1%Qc;
                   calibration_error := None; other_metrics := [] |};
     artifacts := no_artifacts; timestamp := "" |}.

Definition record_A : ExperimentRecord :=
  record_of "A" (Finite (Q2Qc (30 # 1))) (Finite (Q2Qc (90 # 100))).
Definition record_B : ExperimentRecord :=
  record_of "B" (Finite (Q2Qc (28 # 1))) (Finite (Q2Qc (85 # 100))).

(** Records with a metric that is NaN: a PSNR of 30 with a coverage of 0.8, of
    29 with NaN, of 28 with 0.95, and NaN with 0.9. *)
Definition record_P : ExperimentRecord :=
  record_of "P" (Finite (Q2Qc (30 # 1))) (Finite (Q2Qc (80 # 100))).
Definition record_R : ExperimentRecord :=
  record_of "R" (Finite (Q2Qc (28 # 1))) (Finite (Q2Qc (95 # 100))).


(** A proposal without any key, and a design space that does not list
    "CIAS-Core" first. *)
Definition empty_proposal : Proposal :=
  {| p_forward_config := None; p_recon_family := None; p_recon_params := None;
     p_uq_scheme := None; p_uq_params := None; p_train_config := None |}.

Definition design_space_cnn_first : gmap string (list string) :=
  <["uq_schemes" := ["Conformal"; "None"]]>
    (<["recon_families" := ["Baseline-CNN"; "CIAS-Core"]]> ∅).

(** A concrete environment: formatting, randomness, a design space, one seed. *)
Definition fraction_format (digits : nat) (x : pyfloat) : string :=
  match x with
  | Finite q => pretty (Qnum q) +:+ "/" +:+ pretty (Zpos (Qden q))
  | PosInf => "inf"
  | NegInf => "-inf"
  | NaN => "nan"
  end.
Definition quote_repr (s : string) : string := "'" +:+ s +:+ "'".
Definition opaque_repr (v : pyval) : string := "{...}".
Definition midpoint_uniform (n : nat) (a b : Qc) : Qc := ((a + b) / Q2Qc (2 # 1))%Qc.
Definition counter_uuid4 (n : nat) : string := "0000000" +:+ pretty n +:+ "-0000".
Definition entropy0 : Entropy := {| rand_draws := 0; uuid_draws := 0 |}.

Definition sample_design_space : gmap string (list string) :=
  <["uq_schemes" := ["Conformal"; "Ensemble"; "None"]]>
    (<["recon_families" := ["CIAS-Core"; "CIAS-Core-ELP"; "Baseline-CNN"]]> ∅).

Definition seed_config : Configuration :=
  {| forward_config := [("compression_ratio", PInt 8)];
     recon_family := "CIAS-Core-ELP";
     recon_params := [("num_layers", PInt 4)];
     uq_scheme := "Conformal";
     uq_params := [];
     train_config := [("epochs", PInt 10)] |}.

(** A planner that never proposes anything. *)
Definition silent_planner (summary : gmap string pyval)
    (design_space : gmap string (list string)) (budget_remaining : Z)
  : result (list Configuration) := Ok [].

(** An executor that fails on the family "CIAS-Core" and otherwise is the
    simulated executor of the repository. *)
Definition failing_executor : executor := λ en config,
  if decide (recon_family config = "CIAS-Core")
  then (en, Raise (ExecutionError "training failed"))
  else Executor.run_campaign midpoint_uniform counter_uuid4 en config.

(** The three configurations that the planner of the repository proposes on
    [sample_design_space]. *)
Definition proposed_elp : Configuration :=
  {| forward_config := [("compression_ratio", PInt 8)];
     recon_family := "CIAS-Core-ELP";
     recon_params := [("num_layers", PInt 10); ("hidden_dim", PInt 128)];
     uq_scheme := "Conformal";
     uq_params := [("alpha", PFloat (Finite (Q2Qc (1 # 10))))];
     train_config := [("epochs", PInt 50); ("lr", PFloat (Finite (Q2Qc (1 # 1000))))] |}.
Definition proposed_core : Configuration :=
  {| forward_config := [("compression_ratio", PInt 16)];
     recon_family := "CIAS-Core";
     recon_params := [("num_layers", PInt 8); ("hidden_dim", PInt 64)];
     uq_scheme := "Ensemble";
     uq_params := [("n_models", PInt 5)];
     train_config := [("epochs", PInt 40); ("lr", PFloat (Finite (Q2Qc (5 # 10000))))] |}.
Definition proposed_cnn : Configuration :=
  {| forward_config := [("compression_ratio", PInt 8)];
     recon_family := "Baseline-CNN";
     recon_params := [("num_layers", PInt 6)];
     uq_scheme := "None";
     uq_params := [];
     train_config := [("epochs", PInt 30); ("lr", PFloat (Finite (Q2Qc (1 # 1000))))] |}.

(** The state of the loop after the seed phase on [seed_config], with the
    failing executor. *)
Definition state_after_seed : LoopState :=
  (set_budget_used 1
     (AIScientistLoop.seed_phase counter_uuid4 failing_executor [seed_config]
        (AIScientistLoop.initial_state entropy0)).1).1.

(** A world model with the two records of the example, a record with a
    calibration error, identifiers that count, and a generator that returns
    the lower bound. *)
Definition world_model_A_B : WorldModel :=
  {| experiments := [record_A; record_B]; indices := ∅ |}.

Definition record_C : ExperimentRecord :=
  {| id := "C"; config := seed_config;
     metrics := {| psnr := Finite (Q2Qc (29 # 1));
                   coverage := Finite (Q2Qc (90 # 100));
                   latency := Finite (Q2Qc (20 # 1));
                   calibration_error := Some (Finite (Q2Qc (5 # 100)));
                   other_metrics := [] |};
     artifacts := no_artifacts; timestamp := "" |}.

Definition decimal_uuid4 (n : nat) : string := pretty n.

Definition lowest_uniform (n : nat) (a b : Qc) : Qc := a.

Definition sample_runs : list (Configuration * Metrics * Artifacts) :=
  [ (seed_config, metrics record_C, no_artifacts);
    (baseline_config, metrics record_A, no_artifacts) ].

(** A run of the loop of the repository with one seed and budget 3, and the
    Pareto set it returns. *)
Definition sample_run : LoopState * outcome (gset string * WorldModel) :=
  AIScientistLoop.run fraction_format quote_repr opaque_repr midpoint_uniform
    decimal_uuid4 sample_design_space [seed_config] 3 5
    (AIScientistLoop.initial_state entropy0).

Definition returned_ids (o : outcome (gset string * WorldModel)) : gset string :=
  match o with
  | Returned (ids, _) => ids
  | _ => ∅
  end.

(** * Properties *)
Section FloatOrder.

Implicit Types (x y z : pyfloat) (a b c : attr_value).

Local Ltac float_cases :=
  simpl; rewrite ?bool_decide_eq_true, ?bool_decide_eq_false; try done.

Lemma float_lt_irrefl x : float_lt x x = false.
Proof.
  destruct x; float_cases. intros Hlt.
  by apply Qclt_not_le in Hlt; apply Hlt, Qcle_refl.
Qed.

Lemma float_lt_trans x y z :
  float_lt x y = true → float_lt y z = true → float_lt x z = true.
Proof. destruct x, y, z; float_cases. apply Qclt_trans. Qed.

Lemma float_le_trans x y z :
  float_le x y = true → float_le y z = true → float_le x z = true.
Proof. destruct x, y, z; float_cases. apply Qcle_trans. Qed.

Lemma float_lt_le_trans x y z :
  float_lt x y = true → float_le y z = true → float_lt x z = true.
Proof. destruct x, y, z; float_cases. apply Qclt_le_trans. Qed.

Lemma float_le_lt_trans x y z :
  float_le x y = true → float_lt y z = true → float_lt x z = true.
Proof. destruct x, y, z; float_cases. apply Qcle_lt_trans. Qed.

Lemma float_le_not_lt x y : float_le x y = true → float_lt y x = false.
Proof. destruct x, y; float_cases. apply Qcle_not_lt. Qed.

Lemma float_not_lt_le x y :
  is_nan x = false → is_nan y = false → float_lt y x = false →
  float_le x y = true.
Proof. destruct x, y; float_cases. intros _ _. apply Qcnot_lt_le. Qed.

Lemma float_lt_le x y : float_lt x y = true → float_le x y = true.
Proof. destruct x, y; float_cases. apply Qclt_le_weak. Qed.

Lemma float_le_refl x : is_nan x = false → float_le x x = true.
Proof. destruct x; float_cases; intros _; apply Qcle_refl. Qed.

Lemma float_le_total x y :
  is_nan x = false → is_nan y = false →
  float_le x y = true ∨ float_le y x = true.
Proof.
  destruct x as [p| | |], y as [q| | |]; float_cases; auto.
  intros _ _. destruct (Qclt_le_dec q p) as [Hlt|Hle]; [|by left].
  right. by apply Qclt_le_weak.
Qed.

(** The comparison of the code is the strict order of [float_le]. *)
Lemma float_lt_spec x y : float_lt x y = float_le x y && negb (float_le y x).
Proof.
  destruct x as [p| | |], y as [q| | |]; simpl; try done.
  apply eq_true_iff_eq.
  rewrite andb_true_iff, negb_true_iff, !bool_decide_eq_true, bool_decide_eq_false.
  split.
  - intros Hlt. split; [by apply Qclt_le_weak|by apply Qclt_not_le].
  - intros [_ Hnle]. by apply Qcnot_le_lt.
Qed.

Lemma py_ltb_spec a b : py_ltb a b = value_lt a b.
Proof.
  unfold py_ltb, value_lt.
  destruct a as [x| | |[|]], b as [y| | |[|]]; simpl; try done.
  rewrite float_lt_spec. by destruct (float_le x y && negb (float_le y x)).
Qed.

Lemma value_lt_irrefl a : value_lt a a = false.
Proof. unfold value_lt. by destruct (value_le a a). Qed.

Lemma value_le_trans a b c :
  value_le a b = true → value_le b c = true → value_le a c = true.
Proof.
  destruct a as [x| | |[|]], b as [y| | |[|]], c as [z| | |[|]]; simpl; try done.
  apply float_le_trans.
Qed.

Lemma value_lt_le_trans a b c :
  value_lt a b = true → value_le b c = true → value_lt a c = true.
Proof.
  unfold value_lt. rewrite !andb_true_iff, !negb_true_iff.
  intros [Hab Hba] Hbc. split; [by eapply value_le_trans|].
  apply not_true_iff_false. intros Hca. apply not_true_iff_false in Hba.
  apply Hba. by eapply value_le_trans.
Qed.

Lemma value_le_lt_trans a b c :
  value_le a b = true → value_lt b c = true → value_lt a c = true.
Proof.
  unfold value_lt. rewrite !andb_true_iff, !negb_true_iff.
  intros Hab [Hbc Hcb]. split; [by eapply value_le_trans|].
  apply not_true_iff_false. intros Hca. apply not_true_iff_false in Hcb.
  apply Hcb. by eapply value_le_trans.
Qed.

Lemma value_le_not_lt a b : value_le a b = true → value_lt b a = false.
Proof. unfold value_lt. intros ->. apply andb_false_r. Qed.


Lemma is_number_comparable a : is_number a = true → is_comparable a = true.
Proof. by destruct a. Qed.

End FloatOrder.

Section ParetoFacts.

Context `{py : Runtime}.

Implicit Types (exps : list ExperimentRecord) (objs : list string).

Lemma getattr_objective_value (e : ExperimentRecord) o :
  getattr (metrics e) o (ANumber (Finite 0%Qc)) = objective_value e o.
Proof. reflexivity. Qed.

(** The values of two records at one name are of one kind, up to a
    calibration error that is set on one side only: a comparison of
    comparable values does not raise. *)
Lemma py_lt_comparable (a b : ExperimentRecord) o :
  is_comparable (objective_value a o) = true →
  is_comparable (objective_value b o) = true →
  py_lt (objective_value a o) (objective_value b o)
  = Ok (py_ltb (objective_value a o) (objective_value b o)).
Proof.
  unfold py_ltb, objective_value, attribute. repeat case_decide; simpl.
  - by destruct (float_lt _ _).
  - by destruct (float_lt _ _).
  - by destruct (float_lt _ _).
  - destruct (calibration_error (metrics a)), (calibration_error (metrics b));
      simpl; try done. by destruct (float_lt _ _).
  - done.
  - by destruct (class_attribute o) as [[|]|].
Qed.

Lemma value_le_total (a b : ExperimentRecord) o :
  is_ordered (objective_value a o) = true →
  is_ordered (objective_value b o) = true →
  value_le (objective_value a o) (objective_value b o) = true ∨
  value_le (objective_value b o) (objective_value a o) = true.
Proof.
  unfold objective_value, attribute. repeat case_decide; simpl;
    try (intros ?%negb_true_iff ?%negb_true_iff; by apply float_le_total).
  - destruct (calibration_error (metrics a)), (calibration_error (metrics b));
      simpl; try done.
    intros ?%negb_true_iff ?%negb_true_iff. by apply float_le_total.
  - done.
  - destruct (class_attribute o) as [[|]|]; simpl; auto.
Qed.

Lemma ordered_not_lt_le (a b : ExperimentRecord) o :
  is_ordered (objective_value a o) = true →
  is_ordered (objective_value b o) = true →
  value_lt (objective_value b o) (objective_value a o) = false →
  value_le (objective_value a o) (objective_value b o) = true.
Proof.
  intros Ha Hb Hlt. destruct (value_le_total a b o Ha Hb) as [Hle|Hle]; [done|].
  unfold value_lt in Hlt. rewrite Hle in Hlt. simpl in Hlt.
  by apply negb_false_iff in Hlt.
Qed.

Lemma on_forall (P : attr_value → bool) exps objs :
  forallb (λ e, forallb (λ o, P (objective_value e o)) objs) exps = true ↔
  ∀ e o, e ∈ exps → o ∈ objs → P (objective_value e o) = true.
Proof.
  rewrite forallb_forall. split.
  - intros Hn e o He Ho. apply list_elem_of_In, Hn in He.
    rewrite forallb_forall in He. by apply He, list_elem_of_In.
  - intros Hn e He. apply forallb_forall. intros o Ho.
    apply Hn; by apply list_elem_of_In.
Qed.

Lemma numeric_on_forall exps objs :
  numeric_on exps objs = true ↔
  ∀ e o, e ∈ exps → o ∈ objs → is_number (objective_value e o) = true.
Proof. apply on_forall. Qed.

Lemma comparable_on_forall exps objs :
  comparable_on exps objs = true ↔
  ∀ e o, e ∈ exps → o ∈ objs → is_comparable (objective_value e o) = true.
Proof. apply on_forall. Qed.

Lemma ordered_on_forall exps objs :
  ordered_on exps objs = true ↔
  ∀ e o, e ∈ exps → o ∈ objs → is_ordered (objective_value e o) = true.
Proof. apply on_forall. Qed.

Lemma numeric_on_comparable exps objs :
  numeric_on exps objs = true → comparable_on exps objs = true.
Proof.
  rewrite numeric_on_forall, comparable_on_forall. intros Hn e o He Ho.
  by apply is_number_comparable, Hn.
Qed.


Lemma numeric_on_subseteq exps exps' objs :
  exps' ⊆ exps → numeric_on exps objs = true → numeric_on exps' objs = true.
Proof.
  rewrite !numeric_on_forall. intros Hsub Hn e o He Ho. apply Hn; [|done].
  by apply Hsub.
Qed.

Lemma ordered_on_subseteq exps exps' objs :
  exps' ⊆ exps → ordered_on exps objs = true → ordered_on exps' objs = true.
Proof.
  rewrite !ordered_on_forall. intros Hsub Hn e o He Ho. apply Hn; [|done].
  by apply Hsub.
Qed.

Lemma numeric_on_default exps :
  numeric_on exps AnalysisAgent.default_objectives = true.
Proof. apply numeric_on_forall. intros e o _ Ho. set_unfold. by destruct Ho as [->|[->|[]]]. Qed.

(** For ordered values the loops decide domination as the specification
    words it. *)
Lemma dominatesb_spec objs b a :
  (∀ o, o ∈ objs → is_ordered (objective_value a o) = true) →
  (∀ o, o ∈ objs → is_ordered (objective_value b o) = true) →
  dominatesb objs b a = true ↔ dominates objs b a.
Proof.
  intros Ha Hb. unfold dominatesb, dominates.
  rewrite andb_true_iff, forallb_forall, existsb_exists.
  split; intros [Hall [o [Ho Hlt]]]; (split; [| exists o; split]).
  - intros o' Ho'. apply ordered_not_lt_le; [by apply Ha|by apply Hb|].
    rewrite <- py_ltb_spec. by apply list_elem_of_In, Hall, negb_true_iff in Ho'.
  - by apply list_elem_of_In.
  - by rewrite <- py_ltb_spec.
  - intros o' Ho'. rewrite py_ltb_spec.
    apply negb_true_iff, value_le_not_lt, Hall. by apply list_elem_of_In.
  - by apply list_elem_of_In.
  - by rewrite py_ltb_spec.
Qed.

Lemma objectives_loop_comparable objs a b sb :
  (∀ o, o ∈ objs → is_comparable (objective_value a o) = true) →
  (∀ o, o ∈ objs → is_comparable (objective_value b o) = true) →
  ∃ flags, AnalysisAgent.objectives_loop (metrics a) (metrics b) objs sb = Ok flags ∧
    (flags.1 && flags.2 =
     forallb (λ o, negb (py_ltb (objective_value b o) (objective_value a o))) objs
     && (sb || existsb (λ o, py_ltb (objective_value a o) (objective_value b o)) objs))%bool.
Proof.
  revert sb. induction objs as [|o objs IH]; intros sb Ha Hb; simpl.
  - exists (true, sb). by rewrite orb_false_r.
  - unfold py_gt. rewrite !getattr_objective_value.
    rewrite (py_lt_comparable b a o) by (apply Hb || apply Ha; left).
    rewrite (py_lt_comparable a b o) by (apply Hb || apply Ha; left).
    simpl.
    destruct (py_ltb (objective_value b o) (objective_value a o)); simpl.
    + by exists (false, sb).
    + destruct (IH (if py_ltb (objective_value a o) (objective_value b o)
                    then true else sb)) as (flags & -> & Hflags).
      { intros ??. apply Ha. by right. }
      { intros ??. apply Hb. by right. }
      exists flags. split; [done|]. rewrite Hflags.
      destruct (py_ltb (objective_value a o) (objective_value b o)); simpl; [|done].
      by rewrite orb_true_r.
Qed.

Lemma inner_loop_comparable exps0 objs a exps :
  comparable_on exps0 objs = true → a ∈ exps0 → exps ⊆ exps0 →
  AnalysisAgent.inner_loop a exps objs =
    Ok (existsb (λ b, bool_decide (id a ≠ id b) && dominatesb objs b a) exps).
Proof.
  intros Hn Ha. induction exps as [|b exps IH]; intros Hsub; simpl; [done|].
  assert (b ∈ exps0) as Hb by (apply Hsub; left).
  assert (exps ⊆ exps0) as Hsub' by (intros ??; apply Hsub; by right).
  rewrite comparable_on_forall in Hn.
  destruct (decide (id a = id b)) as [Heq|Hne].
  - rewrite IH by done. rewrite bool_decide_eq_false_2 by (by intros ?). done.
  - destruct (objectives_loop_comparable objs a b false) as (flags & -> & Hflags).
    { intros o Ho. by apply Hn. }
    { intros o Ho. by apply Hn. }
    simpl. rewrite Hflags, bool_decide_eq_true_2 by done. simpl.
    unfold dominatesb.
    destruct (forallb _ objs && existsb _ objs)%bool; simpl; [done|].
    by apply IH.
Qed.

Lemma outer_loop_comparable exps0 objs todo acc :
  comparable_on exps0 objs = true → todo ⊆ exps0 →
  ∃ S, AnalysisAgent.outer_loop exps0 todo objs acc = Ok S ∧
    ∀ i, i ∈ S ↔ i ∈ acc ∨
      ∃ a, a ∈ todo ∧ id a = i ∧
        existsb (λ b, bool_decide (id a ≠ id b) && dominatesb objs b a) exps0 = false.
Proof.
  intros Hn. revert acc. induction todo as [|a todo IH]; intros acc Hsub; simpl.
  - exists acc. split; [done|]. intros i. split; [by left|].
    intros [?|(a & Ha & _)]; [done|]. by apply elem_of_nil in Ha.
  - assert (a ∈ exps0) as Ha by (apply Hsub; left).
    assert (todo ⊆ exps0) as Hsub' by (intros ??; apply Hsub; by right).
    rewrite (inner_loop_comparable exps0) by done. simpl.
    destruct (IH (if existsb (λ b, bool_decide (id a ≠ id b) && dominatesb objs b a) exps0
                  then acc else acc ∪ {[id a]}) Hsub') as (S & -> & HS).
    exists S. split; [done|]. intros i. rewrite HS. clear HS IH.
    destruct (existsb _ exps0) eqn:Hex.
    + split.
      * intros [?|(b & Hb & ? & ?)]; [by left|]. right. exists b. by rewrite elem_of_cons; auto.
      * intros [?|(b & Hb & Hid & Hnd)]; [by left|].
        apply elem_of_cons in Hb as [->|Hb]; [congruence|]. right. by exists b.
    + rewrite elem_of_union, elem_of_singleton. split.
      * intros [[?| ->]|(b & Hb & ? & ?)]; [by left| |].
        -- right. exists a. split; [left|done].
        -- right. exists b. by rewrite elem_of_cons; auto.
      * intros [?|(b & Hb & Hid & Hnd)]; [by left; left|].
        apply elem_of_cons in Hb as [->|Hb]; [by left; right|]. right. by exists b.
Qed.

(** The front of a list, read off the loops, for comparable values and
    without any assumption on the ids. *)
Lemma compute_pareto_front_comparable exps objs :
  comparable_on exps objs = true →
  ∃ S, AnalysisAgent.compute_pareto_front exps objs = Ok S ∧
    ∀ i, i ∈ S ↔ ∃ a, a ∈ exps ∧ id a = i ∧
      ¬ ∃ b, b ∈ exps ∧ id b ≠ id a ∧ dominatesb objs b a = true.
Proof.
  intros Hn.
  destruct (outer_loop_comparable exps objs exps ∅ Hn) as (S & HS & Hiff); [done|].
  exists S. split.
  - unfold AnalysisAgent.compute_pareto_front. destruct exps; [by simpl in HS|done].
  - intros i. rewrite Hiff. clear. split.
    + intros [Hin|(a & Ha & Hid & Hex)]; [by apply not_elem_of_empty in Hin|].
      exists a. split; [done|]. split; [done|]. intros (b & Hb & Hne & Hdom).
      apply not_true_iff_false in Hex. apply Hex, existsb_exists.
      exists b. split; [by apply list_elem_of_In|].
      apply andb_true_iff. split; [|done]. apply bool_decide_eq_true. congruence.
    + intros (a & Ha & Hid & Hno). right. exists a. split; [done|]. split; [done|].
      apply not_true_iff_false. intros Hex. apply Hno.
      apply existsb_exists in Hex as (b & Hb & Hand).
      apply andb_true_iff in Hand as [Hne Hdom].
      exists b. split; [by apply list_elem_of_In|].
      split; [|done]. apply bool_decide_eq_true in Hne. congruence.
Qed.


Lemma NoDup_id_inj exps a b :
  NoDup (map id exps) → a ∈ exps → b ∈ exps → id a = id b → a = b.
Proof.
  induction exps as [|e exps IH]; simpl; intros Hnd Ha Hb Hid.
  - by apply elem_of_nil in Ha.
  - apply NoDup_cons in Hnd as [Hnotin Hnd].
    apply elem_of_cons in Ha as [->|Ha]; apply elem_of_cons in Hb as [->|Hb]; try done.
    + exfalso. apply Hnotin. rewrite Hid. by apply (list_elem_of_fmap_2 id).
    + exfalso. apply Hnotin. rewrite <- Hid. by apply (list_elem_of_fmap_2 id).
    + by apply IH.
Qed.

Lemma dominates_irrefl objs a : ¬ dominates objs a a.
Proof. intros [_ (o & _ & Hlt)]. by rewrite value_lt_irrefl in Hlt. Qed.

Lemma dominates_trans objs a b c :
  dominates objs a b → dominates objs b c → dominates objs a c.
Proof.
  intros [Hab (o & Ho & Hlt)] [Hbc _]. split.
  - intros o' Ho'. eapply value_le_trans; [by apply Hbc|by apply Hab].
  - exists o. split; [done|]. eapply value_le_lt_trans; [by apply Hbc|done].
Qed.

Lemma dominates_decide objs b a : dominates objs b a ∨ ¬ dominates objs b a.
Proof.
  destruct (decide
    (Forall (λ o, value_le (objective_value a o) (objective_value b o) = true) objs ∧
     Exists (λ o, value_lt (objective_value a o) (objective_value b o) = true) objs))
    as [[Hall Hex]|Hno].
  - left. split; [by apply Forall_forall|]. by apply Exists_exists.
  - right. intros [Hall Hex]. apply Hno. split; [by apply Forall_forall|].
    by apply Exists_exists.
Qed.

(** A finite non-empty list has a record that none of its records
    dominates. *)
Lemma exists_non_dominated objs exps :
  exps ≠ [] → ∃ m, m ∈ exps ∧ ∀ b, b ∈ exps → ¬ dominates objs b m.
Proof.
  induction exps as [|e exps IH]; [done|]. intros _.
  destruct exps as [|e' exps].
  - exists e. split; [left|]. intros b Hb.
    apply list_elem_of_singleton in Hb as ->. apply dominates_irrefl.
  - destruct IH as (m & Hm & Hmax); [done|].
    destruct (dominates_decide objs e m) as [Hem|Hem].
    + exists e. split; [left|]. intros b Hb.
      apply elem_of_cons in Hb as [->|Hb]; [apply dominates_irrefl|].
      intros Hbe. apply (Hmax b Hb). by eapply dominates_trans.
    + exists m. split; [by right|]. intros b Hb.
      apply elem_of_cons in Hb as [->|Hb]; [done|]. by apply Hmax.
Qed.



End ParetoFacts.

Section ParetoFrontier.

Context `{py : Runtime}.

Implicit Types (exps : list ExperimentRecord) (objs : list string).



End ParetoFrontier.

Lemma NoDup_ids_A_B : NoDup (map id [record_A; record_B]).
Proof.
  apply NoDup_cons. split; [|apply NoDup_singleton].
  intros Hin. by apply list_elem_of_singleton in Hin.
Defined.

Example pareto_front_A_B :
  AnalysisAgent.compute_pareto_front [record_A; record_B] ["psnr"; "coverage"]
  = Ok {["A"]}.
Proof. vm_compute. reflexivity. Qed.

(** The name of an attribute that does not exist reads as 0 on every record,
    whatever it starts with, and the docstring is the same string on every
    record: no record dominates another. *)
Example pareto_front_no_attribute :
  AnalysisAgent.compute_pareto_front [record_A; record_B] ["__foo"]
  = Ok {["A"; "B"]} ∧
  AnalysisAgent.compute_pareto_front [record_A; record_B] ["__doc__"]
  = Ok {["A"; "B"]}.
Proof. split; vm_compute; reflexivity. Qed.

(** The loop over the objectives stops at the first objective on which the
    other record is below: an objective behind it is not read, also when its
    value could not be compared. *)
Example pareto_front_break :
  AnalysisAgent.compute_pareto_front [record_P; record_R]
    ["psnr"; "coverage"; "calibration_error"] = Ok {["P"; "R"]}.
Proof. vm_compute. reflexivity. Qed.






Section Serialization.

Context `{py : Runtime}.

Lemma asdict_inner_id : ∀ v, asdict_inner v = v.
Proof.
  fix IH 1. intros [| | | |l|d]; simpl; try reflexivity.
  - f_equal. induction l as [|x l IHl]; simpl; [done|]. by rewrite IH, IHl.
  - f_equal. induction d as [|[k x] d IHd]; simpl; [done|]. by rewrite IH, IHd.
Qed.

(** C9 (as amended).  [Configuration.to_dict] exports a configuration as a
    mapping of its six fields in which every nested mapping is preserved, and
    the constructor called on the entries of that mapping as keyword
    arguments gives back a configuration equal to the original field for field. *)
Theorem Configuration_to_dict_roundtrip (c : Configuration) :
  Configuration_to_dict c =
    [ ("forward_config", PDict (forward_config c));
      ("recon_family", PStr (recon_family c));
      ("recon_params", PDict (recon_params c));
      ("uq_scheme", PStr (uq_scheme c));
      ("uq_params", PDict (uq_params c));
      ("train_config", PDict (train_config c)) ] ∧
  Configuration_init (Configuration_to_dict c) = Ok c.
Proof.
  assert (Configuration_to_dict c =
    [ ("forward_config", PDict (forward_config c));
      ("recon_family", PStr (recon_family c));
      ("recon_params", PDict (recon_params c));
      ("uq_scheme", PStr (uq_scheme c));
      ("uq_params", PDict (uq_params c));
      ("train_config", PDict (train_config c)) ]) as Heq.
  { unfold Configuration_to_dict. by rewrite !asdict_inner_id. }
  split; [done|]. rewrite Heq. unfold Configuration_init.
  rewrite bool_decide_eq_true_2.
  - by destruct c.
  - repeat (apply Forall_cons; split; [simpl; unfold Configuration_fields; set_solver|]).
    apply Forall_nil_2.
Qed.

(** C9, as it is stated, fails: an [ExperimentRecord] has no [to_dict] and no
    class has a [from_dict], so neither the export nor the import exists. *)
Lemma ExperimentRecord_has_no_roundtrip :
  entity_to_dict (EExperimentRecord record_A) = Raise (AttributeError "to_dict") ∧
  (∀ d, class_from_dict CExperimentRecord d = Raise (AttributeError "from_dict")) ∧
  ¬ ∃ d, entity_to_dict (EExperimentRecord record_A) = Ok d ∧
         class_from_dict CExperimentRecord d = Ok (EExperimentRecord record_A).
Proof.
  split; [reflexivity|]. split; [reflexivity|].
  intros (d & Hd & _). discriminate Hd.
Qed.

End Serialization.

Section Projection.

Context `{py : Runtime}.

Lemma project_to_design_space_ok (proposal : Proposal)
    (design_space : gmap string (list string)) (first : string)
    (others : list string) :
  design_space !! "recon_families" = Some (first :: others) →
  ∃ c, Planner.project_to_design_space proposal design_space = Ok c.
Proof.
  intros Hds. unfold Planner.project_to_design_space, dict_getitem.
  rewrite Hds. simpl. case_bool_decide; simpl; by eexists.
Qed.

(** C7 (as amended).  When the design space declares a non-empty list of
    families, [project_to_design_space] returns a configuration.  Its family
    is the proposed tag when the proposal has one that is declared, and the
    first declared family when the proposal has one that is not declared.
    When the proposal has no tag, the family is the default "CIAS-Core" if
    that is declared and the first declared family otherwise.  A missing
    [uq_scheme] gives "None", a missing parameter mapping gives the empty
    mapping, and what is present passes through. *)
Theorem project_to_design_space_family (proposal : Proposal)
    (design_space : gmap string (list string)) (first : string)
    (others : list string) :
  design_space !! "recon_families" = Some (first :: others) →
  ∃ c, Planner.project_to_design_space proposal design_space = Ok c ∧
    (∀ tag, p_recon_family proposal = Some tag →
       recon_family c = if bool_decide (tag ∈ first :: others) then tag else first) ∧
    (p_recon_family proposal = None →
       recon_family c =
         if bool_decide ("CIAS-Core" ∈ first :: others) then "CIAS-Core" else first) ∧
    uq_scheme c = default "None" (p_uq_scheme proposal) ∧
    forward_config c = default [] (p_forward_config proposal) ∧
    recon_params c = default [] (p_recon_params proposal) ∧
    uq_params c = default [] (p_uq_params proposal) ∧
    train_config c = default [] (p_train_config proposal).
Proof.
  intros Hds. unfold Planner.project_to_design_space, dict_getitem, get_or.
  rewrite Hds. simpl.
  destruct (p_recon_family proposal) as [tag|] eqn:Htag; simpl.
  - destruct (decide (tag ∈ first :: others)) as [Hin|Hout].
    + rewrite (bool_decide_eq_false_2 (tag ∉ _)) by (by intros H; apply H).
      simpl. eexists. split; [done|]. simpl. split; [|done].
      intros ? [= <-]. by rewrite bool_decide_eq_true_2.
    + rewrite (bool_decide_eq_true_2 (tag ∉ _)) by done.
      simpl. eexists. split; [done|]. simpl. split; [|done].
      intros ? [= <-]. by rewrite bool_decide_eq_false_2.
  - destruct (decide ("CIAS-Core" ∈ first :: others)) as [Hin|Hout].
    + rewrite (bool_decide_eq_false_2 (_ ∉ _)) by (by intros H; apply H).
      simpl. eexists. split; [done|]. simpl. split; [done|]. split; [|done].
      intros _. by rewrite bool_decide_eq_true_2.
    + rewrite (bool_decide_eq_true_2 (_ ∉ _)) by done.
      simpl. eexists. split; [done|]. simpl. split; [done|]. split; [|done].
      intros _. by rewrite bool_decide_eq_false_2.
Qed.

Lemma project_to_design_space_family_witness :
  design_space_cnn_first !! "recon_families" = Some ["Baseline-CNN"; "CIAS-Core"] ∧
  ∃ c, Planner.project_to_design_space empty_proposal design_space_cnn_first = Ok c ∧
    (∀ tag, p_recon_family empty_proposal = Some tag →
       recon_family c =
         if bool_decide (tag ∈ ["Baseline-CNN"; "CIAS-Core"]) then tag
         else "Baseline-CNN") ∧
    (p_recon_family empty_proposal = None →
       recon_family c =
         if bool_decide ("CIAS-Core" ∈ ["Baseline-CNN"; "CIAS-Core"])
         then "CIAS-Core" else "Baseline-CNN") ∧
    uq_scheme c = default "None" (p_uq_scheme empty_proposal) ∧
    forward_config c = default [] (p_forward_config empty_proposal) ∧
    recon_params c = default [] (p_recon_params empty_proposal) ∧
    uq_params c = default [] (p_uq_params empty_proposal) ∧
    train_config c = default [] (p_train_config empty_proposal).
Proof.
  split; [reflexivity|].
  apply (project_to_design_space_family empty_proposal design_space_cnn_first
           "Baseline-CNN" ["CIAS-Core"]).
  reflexivity.
Defined.

(** C7, as it is stated, fails for a proposal without a family tag: the
    default tag "CIAS-Core" is kept when the design space declares it, also
    when it is not the first declared family. *)
Lemma project_to_design_space_absent_tag_not_first :
  p_recon_family empty_proposal = None ∧
  design_space_cnn_first !! "recon_families" = Some ["Baseline-CNN"; "CIAS-Core"] ∧
  ∃ c, Planner.project_to_design_space empty_proposal design_space_cnn_first = Ok c ∧
       recon_family c = "CIAS-Core" ∧ recon_family c ≠ "Baseline-CNN".
Proof.
  split; [reflexivity|]. split; [reflexivity|].
  eexists. split; [reflexivity|]. split; [reflexivity|]. discriminate.
Qed.

End Projection.

Section IndexConsistency.

Context `{py : Runtime}.

Variable uuid4 : nat → string.

Lemma defaultdict_get_append {V} (d : gmap string (list V)) k k' (v : V) :
  defaultdict_get (defaultdict_append d k v) k' =
  if decide (k = k') then defaultdict_get d k ++ [v] else defaultdict_get d k'.
Proof.
  unfold defaultdict_append, defaultdict_get at 1.
  destruct (decide (k = k')) as [->|Hne].
  - by rewrite lookup_insert_eq.
  - by rewrite lookup_insert_ne.
Qed.

Lemma update_experiments draws wm c m a :
  ∃ r, experiments (WorldModelManager.update uuid4 draws wm c m a).1
       = experiments wm ++ [r] ∧
    config r = c ∧ metrics r = m ∧ artifacts r = a ∧
    indices (WorldModelManager.update uuid4 draws wm c m a).1 =
      defaultdict_append
        (defaultdict_append (indices wm) "recon_family" (recon_family c, id r))
        "uq_scheme" (uq_scheme c, id r).
Proof.
  unfold WorldModelManager.update, ExperimentRecord_init.
  destruct (decide (uuid4 draws = "")); simpl; eexists; (split; [reflexivity|]); done.
Qed.

Lemma update_length draws wm c m a :
  length (experiments (WorldModelManager.update uuid4 draws wm c m a).1)
  = S (length (experiments wm)).
Proof.
  destruct (update_experiments draws wm c m a) as (r & -> & _).
  rewrite length_app. simpl. lia.
Qed.

Lemma update_preserves_index_consistent draws wm c m a :
  index_consistent wm →
  index_consistent (WorldModelManager.update uuid4 draws wm c m a).1.
Proof.
  intros [Hidx Hrec].
  destruct (update_experiments draws wm c m a) as (r & Hexp & Hc & _ & _ & Hind).
  split.
  - intros k v i. rewrite Hind, Hexp, !defaultdict_get_append.
    setoid_rewrite elem_of_app. setoid_rewrite list_elem_of_singleton.
    repeat case_decide; subst; try discriminate.
    + rewrite elem_of_app, list_elem_of_singleton.
      intros [Hin|[= -> ->]]; [|by eauto].
      destruct (Hidx _ _ _ Hin) as (r' & ? & ?). eauto.
    + rewrite elem_of_app, list_elem_of_singleton.
      intros [Hin|[= -> ->]]; [|by eauto].
      destruct (Hidx _ _ _ Hin) as (r' & ? & ?). eauto.
    + intros Hin. destruct (Hidx _ _ _ Hin) as (r' & ? & ?). eauto.
  - intros r'. rewrite Hind, Hexp, !defaultdict_get_append. simpl.
    rewrite !elem_of_app, !list_elem_of_singleton.
    intros [Hin| ->].
    + destruct (Hrec _ Hin). tauto.
    + subst c. tauto.
Qed.

Lemma WorldModel_new_index_consistent : index_consistent WorldModel_new.
Proof.
  split.
  - intros k v i Hin. unfold defaultdict_get in Hin. simpl in Hin.
    rewrite lookup_empty in Hin. by apply elem_of_nil in Hin.
  - intros r Hin. by apply elem_of_nil in Hin.
Qed.

Lemma update_all_preserves_index_consistent runs draws wm :
  index_consistent wm → index_consistent (update_all uuid4 draws wm runs).1.
Proof.
  unfold update_all. revert draws wm.
  induction runs as [|[[c m] a] runs IH]; intros draws wm Hwm; simpl; [done|].
  destruct (WorldModelManager.update uuid4 draws wm c m a) as [wm' draws'] eqn:Hupd.
  apply IH. change wm' with (wm', draws').1. rewrite <- Hupd.
  by apply update_preserves_index_consistent.
Qed.

(** C8.  After any sequence of [WorldModelManager.update] calls on an empty
    world model, every (value, id) pair of an index has a record with that id
    in the record sequence, and every record has the pair of its family tag in
    the family index and the pair of its scheme tag in the scheme index. *)
Theorem update_index_consistency (draws : nat)
    (runs : list (Configuration * Metrics * Artifacts)) :
  let wm := (update_all uuid4 draws WorldModel_new runs).1 in
  (∀ k v i, (v, i) ∈ defaultdict_get (indices wm) k →
            ∃ r, r ∈ experiments wm ∧ id r = i) ∧
  (∀ r, r ∈ experiments wm →
        (recon_family (config r), id r) ∈ defaultdict_get (indices wm) "recon_family" ∧
        (uq_scheme (config r), id r) ∈ defaultdict_get (indices wm) "uq_scheme").
Proof.
  apply (update_all_preserves_index_consistent runs draws WorldModel_new).
  apply WorldModel_new_index_consistent.
Qed.

End IndexConsistency.

Section Strata.

Context `{py : Runtime}.

Import AnalysisAgent.

Implicit Types (strata : list ((string * string) * list ExperimentRecord)).

Lemma filter_none {A} (P : A → Prop) `{∀ x, Decision (P x)} (l : list A) :
  (∀ x, x ∈ l → ¬ P x) → filter P l = [].
Proof.
  induction l as [|x l IH]; intros Hl; [done|].
  rewrite filter_cons, decide_False by (apply Hl; left).
  apply IH. intros ??. apply Hl. by right.
Qed.

Lemma strata_append_new strata k e :
  k ∉ strata.*1 → strata_append strata k e = strata ++ [(k, [e])].
Proof.
  induction strata as [|[k' l] strata IH]; simpl; intros Hk; [done|].
  apply not_elem_of_cons in Hk as [Hne Hk].
  destruct (decide (k' = k)); [congruence|]. by rewrite IH.
Qed.

Lemma strata_append_old strata k e :
  NoDup (strata.*1) → k ∈ strata.*1 →
  strata_append strata k e =
    map (λ kl, if decide (kl.1 = k) then (kl.1, kl.2 ++ [e]) else kl) strata.
Proof.
  induction strata as [|[k' l] strata IH]; simpl; intros Hnd Hk.
  - by apply elem_of_nil in Hk.
  - apply NoDup_cons in Hnd as [Hnotin Hnd].
    destruct (decide (k' = k)) as [->|Hne].
    + f_equal. clear IH Hk Hnd. induction strata as [|[k'' l''] strata IH]; simpl; [done|].
      apply not_elem_of_cons in Hnotin as [Hne Hnotin]. simpl in *.
      destruct (decide (k'' = k)); [congruence|]. f_equal. by apply IH.
    + f_equal. apply IH; [done|]. by apply elem_of_cons in Hk as [?|?]; [congruence|].
Qed.

Lemma strata_partition_step strata processed e :
  strata_partition strata processed →
  strata_partition (strata_append strata (stratum_key e) e) (processed ++ [e]).
Proof.
  intros (Hnd & Hall & Hcov & Hperm).
  destruct (decide (stratum_key e ∈ strata.*1)) as [Hin|Hout].
  - rewrite strata_append_old by done.
    assert ((map (λ kl, if decide (kl.1 = stratum_key e)
                        then (kl.1, kl.2 ++ [e]) else kl) strata).*1 = strata.*1) as Hkeys.
    { clear. induction strata as [|[k l] strata IH]; [done|].
      rewrite map_cons, !fmap_cons, IH. simpl.
      by destruct (decide (k = stratum_key e)). }
    split; [by rewrite Hkeys|]. split; [|split].
    + apply Forall_fmap. eapply Forall_impl; [exact Hall|].
      intros [k l] [Hne Hl]; simpl in *. rewrite filter_app, filter_cons, filter_nil.
      destruct (decide (k = stratum_key e)) as [->|Hk]; simpl.
      * rewrite decide_True by done. split; [|by rewrite <- Hl].
        by destruct l.
      * rewrite decide_False by (intros Heq; apply Hk; by rewrite <- Heq).
        by rewrite app_nil_r.
    + intros e' He'. rewrite Hkeys. apply elem_of_app in He' as [He'|He'].
      * by apply Hcov.
      * by apply list_elem_of_singleton in He' as ->.
    + rewrite <- Hperm. clear -Hnd Hin.
      induction strata as [|[k l] strata IH]; simpl in *.
      * by apply elem_of_nil in Hin.
      * apply NoDup_cons in Hnd as [Hnotin Hnd].
        destruct (decide (k = stratum_key e)) as [->|Hk]; simpl.
        -- assert (map (λ kl, if decide (kl.1 = stratum_key e)
                              then (kl.1, kl.2 ++ [e]) else kl) strata = strata) as ->.
           { clear -Hnotin. induction strata as [|[k' l'] strata IH]; simpl; [done|].
             simpl in Hnotin. apply not_elem_of_cons in Hnotin as [Hne Hnotin].
             rewrite decide_False by congruence. by rewrite IH. }
           rewrite <- !app_assoc. apply Permutation_app_head, Permutation_app_comm.
        -- rewrite <- app_assoc. apply Permutation_app_head, IH; [done|].
           by apply elem_of_cons in Hin as [?|?]; [congruence|].
  - rewrite strata_append_new by done.
    assert (filter (λ e', (recon_family (config e'), uq_scheme (config e'))
                          = (recon_family (config e), uq_scheme (config e)))
              processed = []) as Hnone.
    { apply filter_none. intros e' He' Heq.
      apply Hout. unfold stratum_key. rewrite <- Heq. by apply Hcov. }
    split; [|split; [|split]].
    + rewrite fmap_app. simpl. apply NoDup_app. split; [done|]. split.
      * intros k Hk Hk'. apply list_elem_of_singleton in Hk' as ->. done.
      * apply NoDup_singleton.
    + apply Forall_app. split.
      * apply Forall_forall. intros [k l] Hkl.
        destruct (proj1 (Forall_forall _ _) Hall _ Hkl) as [Hne Hl]; simpl in *.
        split; [done|].
        rewrite filter_app, filter_cons, filter_nil.
        rewrite decide_False; [by rewrite app_nil_r|].
        intros Heq. apply Hout. unfold stratum_key. rewrite Heq.
        by apply (list_elem_of_fmap_2 fst) in Hkl.
      * apply Forall_singleton. unfold stratum_key. simpl. split; [done|].
        rewrite filter_app, Hnone, filter_cons, filter_nil. simpl.
        by rewrite decide_True.
    + intros e' He'. rewrite fmap_app. apply elem_of_app.
      apply elem_of_app in He' as [He'|He'].
      * left. by apply Hcov.
      * right. apply list_elem_of_singleton in He' as ->. simpl. left.
    + rewrite fmap_app, concat_app. simpl. by rewrite Hperm.
Qed.

Lemma group_strata_from strata processed exps :
  strata_partition strata processed →
  strata_partition
    (fold_left (λ s exp, strata_append s (stratum_key exp) exp) exps strata)
    (processed ++ exps).
Proof.
  revert strata processed. induction exps as [|e exps IH]; intros strata processed Hp.
  - by rewrite app_nil_r.
  - simpl. replace (processed ++ e :: exps) with ((processed ++ [e]) ++ exps)
      by (by rewrite <- app_assoc).
    apply IH. by apply strata_partition_step.
Qed.

Lemma group_strata_partition exps : strata_partition (group_strata exps) exps.
Proof.
  apply (group_strata_from [] [] exps).
  split; [apply NoDup_nil_2|]. split; [apply Forall_nil_2|].
  split; [|done]. intros e He. by apply elem_of_nil in He.
Qed.

End Strata.

Section AnalysisStep.

Import AnalysisAgent.

Context `{py : Runtime}.

Variable format_float : nat → pyfloat → string.
Variable repr_str : string → string.

Implicit Types (strata : list ((string * string) * list ExperimentRecord)).

Lemma compute_pareto_front_default_ok (exps : list ExperimentRecord) :
  ∃ S, compute_pareto_front exps ["psnr"; "coverage"] = Ok S.
Proof.
  destruct (compute_pareto_front_comparable exps ["psnr"; "coverage"])
    as (S & HS & _); [|by exists S].
  apply numeric_on_comparable, numeric_on_default.
Qed.

Lemma compute_calibration_stats_mean_error (exps : list ExperimentRecord) :
  ∃ q, compute_calibration_stats exps !! "mean_error" = Some q.
Proof.
  unfold compute_calibration_stats.
  destruct (omap _ exps); eexists.
  - rewrite lookup_insert_ne by done. apply lookup_insert_eq.
  - rewrite !lookup_insert_ne by done. apply lookup_insert_eq.
Qed.

Lemma summarize_trends_ok (exps : list ExperimentRecord) (ids : gset string) :
  ∃ summary,
    summarize_trends format_float exps ids (compute_calibration_stats exps)
    = Ok summary.
Proof.
  unfold summarize_trends, dict_getitem.
  destruct (compute_calibration_stats_mean_error exps) as [q ->].
  destruct (filter _ exps); [by eexists|]. simpl.
  destruct q; try case_bool_decide; by eexists.
Qed.

Lemma strata_loop_results strata acc trends :
  ∃ results, Forall2 (stratum_result format_float) strata results ∧
    strata_loop format_float repr_str strata acc trends =
      Ok (acc ∪ ⋃ (results.*1),
          trends ++ zip_with (λ s summary, "[" +:+ repr_key repr_str s.1 +:+ "] "
                                            +:+ summary)
                      strata (results.*2)).
Proof.
  revert acc trends. induction strata as [|[k l] strata IH]; intros acc trends.
  - exists []. split; [constructor|]. simpl.
    by rewrite union_empty_r_L, app_nil_r.
  - destruct (compute_pareto_front_default_ok l) as [S HS].
    destruct (summarize_trends_ok l S) as [summary Hsum].
    destruct (IH (acc ∪ S)
                (trends ++ ["[" +:+ repr_key repr_str k +:+ "] " +:+ summary]))
      as (results & Hres & Hloop).
    exists ((S, summary) :: results). split.
    + constructor; [by split|done].
    + simpl. rewrite HS. simpl. rewrite Hsum. simpl. rewrite Hloop.
      by rewrite <- app_assoc, (assoc_L (∪)).
Qed.

Lemma analysis_step_ok (wm : WorldModel) :
  ∃ pt, analysis_step format_float repr_str wm = Ok pt.
Proof.
  unfold analysis_step.
  destruct (strata_loop_results (group_strata (get_all_experiments wm)) ∅ [])
    as (results & _ & ->).
  by eexists.
Qed.

Lemma analysis_step_ids (wm : WorldModel) :
  ∃ ids trends,
    analysis_step format_float repr_str wm = Ok (ids, trends) ∧
    ∀ i, i ∈ ids →
         ∃ s S, s ∈ group_strata (experiments wm) ∧
                compute_pareto_front s.2 ["psnr"; "coverage"] = Ok S ∧ i ∈ S.
Proof.
  unfold analysis_step, get_all_experiments.
  destruct (strata_loop_results (group_strata (experiments wm)) ∅ [])
    as (results & Hres & ->).
  eexists _, _. split; [reflexivity|]. intros i.
  rewrite union_empty_l_L, elem_of_union_list.
  intros (S & HS & Hi). apply list_elem_of_fmap in HS as ([S' sm] & -> & Hr).
  destruct (proj1 (list_elem_of_lookup _ _) Hr) as [n Hn].
  destruct (Forall2_lookup_r _ _ _ _ _ Hres Hn) as (s & Hs & [Hcpf _]).
  exists s, S'. split; [by eapply list_elem_of_lookup_2|]. done.
Qed.

(** C6.  [analysis_step] groups the records into strata keyed by the pair
    (recon_family, uq_scheme): the keys are distinct, the stratum of a key
    holds exactly the records with that reconstruction family and that UQ
    scheme, the pair of every record is a key, and the strata together hold
    every record once.  It returns the union of the per-stratum Pareto fronts
    (objectives psnr and coverage) and one trend string per stratum, in the
    order of the strata, each starting with its stratum key in brackets. *)
Theorem analysis_step_stratified (wm : WorldModel) :
  let strata := group_strata (experiments wm) in
  strata_partition strata (experiments wm) ∧
  ∃ ids trends,
    analysis_step format_float repr_str wm = Ok (ids, trends) ∧
    (∀ i, i ∈ ids ↔
          ∃ s S, s ∈ strata ∧ compute_pareto_front s.2 ["psnr"; "coverage"] = Ok S ∧
                 i ∈ S) ∧
    length trends = length strata ∧
    Forall2 (λ s trend, ∃ S summary,
               compute_pareto_front s.2 ["psnr"; "coverage"] = Ok S ∧
               summarize_trends format_float s.2 S (compute_calibration_stats s.2)
               = Ok summary ∧
               trend = "[" +:+ ("(" +:+ repr_str s.1.1 +:+ ", " +:+ repr_str s.1.2
                                +:+ ")") +:+ "] " +:+ summary)
      strata trends.
Proof.
  intros strata. split; [apply group_strata_partition|].
  destruct (strata_loop_results strata ∅ []) as (results & Hres & Hloop).
  exists (⋃ (results.*1)), (zip_with (λ s summary, "[" +:+ repr_key repr_str s.1 +:+ "] "
                                                    +:+ summary) strata (results.*2)).
  split; [|split; [|split]].
  - unfold analysis_step, get_all_experiments. fold strata. rewrite Hloop.
    by rewrite union_empty_l_L.
  - intros i. rewrite elem_of_union_list. clear Hloop. split.
    + intros (S & HS & Hi). apply list_elem_of_fmap in HS as ([S' sm] & -> & Hr).
      simpl in Hi.
      destruct (proj1 (list_elem_of_lookup _ _) Hr) as [n Hn].
      destruct (Forall2_lookup_r _ _ _ _ _ Hres Hn) as (s & Hs & [Hcpf _]).
      exists s, S'. split; [by eapply list_elem_of_lookup_2|]. done.
    + intros (s & S & Hs & Hcpf & Hi).
      destruct (proj1 (list_elem_of_lookup _ _) Hs) as [n Hn].
      destruct (Forall2_lookup_l _ _ _ _ _ Hres Hn) as ([S' sm] & Hr & [Hcpf' _]).
      simpl in Hcpf'. rewrite Hcpf in Hcpf'. injection Hcpf' as ->.
      exists S'. split; [|done]. apply list_elem_of_fmap. exists (S', sm).
      split; [done|]. by eapply list_elem_of_lookup_2.
  - rewrite length_zip_with, length_fmap. apply Forall2_length in Hres. lia.
  - clear Hloop. induction Hres as [|s [S sm] strata' results' [Hcpf Hsum] Hres IH]; simpl.
    + constructor.
    + constructor; [|done]. by exists S, sm.
Qed.

End AnalysisStep.

Section LoopFacts.

Context `{py : Runtime}.

Variable format_float : nat → pyfloat → string.
Variable repr_str : string → string.
Variable uuid4 : nat → string.
Variable planner_step :
  gmap string pyval → gmap string (list string) → Z → result (list Configuration).
Variable run_campaign : executor.
Variable design_space : gmap string (list string).
Variable budget_max : Z.

Local Abbreviation call_run_campaign := (AIScientistLoop.call_run_campaign run_campaign).
Local Abbreviation call_update := (AIScientistLoop.call_update uuid4).
Local Abbreviation seed_phase := (AIScientistLoop.seed_phase uuid4 run_campaign).
Local Abbreviation execute_round := (AIScientistLoop.execute_round uuid4 run_campaign budget_max).
Local Abbreviation discovery_round :=
  (AIScientistLoop.discovery_round format_float repr_str uuid4 planner_step
     run_campaign design_space budget_max).
Local Abbreviation discovery_loop :=
  (AIScientistLoop.discovery_loop format_float repr_str uuid4 planner_step
     run_campaign design_space budget_max).
Local Abbreviation run_with :=
  (AIScientistLoop.run_with format_float repr_str uuid4 planner_step
     run_campaign design_space).

Lemma bind_run {A B} (m : loopM A) (f : A → loopM B) s :
  (m ≫= f) s =
    match m s with
    | (s', Returned a) => f a s'
    | (s', Raised e) => (s', Raised e)
    | (s', OutOfFuel) => (s', OutOfFuel)
    end.
Proof. reflexivity. Qed.

Ltac loop_simpl :=
  repeat (rewrite bind_run;
          cbn [lift_result get_state set_budget_used set_planner_context
               mret loopM_ret fst snd]).

(** The state after one executed configuration. *)
Lemma call_update_state c m a s :
  ∃ s', call_update c m a s = (s', Returned ()) ∧
    length (records s') = S (length (records s)) ∧
    budget_used s' = budget_used s ∧
    rand_draws (entropy s') = rand_draws (entropy s) ∧
    self_planner_context s' = self_planner_context s.
Proof.
  unfold AIScientistLoop.call_update, records.
  pose proof (update_length uuid4 (uuid_draws (entropy s)) (self_world_model s) c m a) as Hlen.
  destruct (WorldModelManager.update _ _ _ _ _ _) as [wm draws].
  eexists. split; [reflexivity|]. simpl in *. done.
Qed.

Lemma call_run_campaign_state c s :
  ∃ s', records s' = records s ∧ budget_used s' = budget_used s ∧
    self_world_model s' = self_world_model s ∧
    entropy s' = (run_campaign (entropy s) c).1 ∧
    call_run_campaign c s =
      (s', match (run_campaign (entropy s) c).2 with
           | Ok ma => Returned ma
           | Raise e => Raised e
           end).
Proof.
  unfold AIScientistLoop.call_run_campaign, records.
  destruct (run_campaign (entropy s) c) as [en r]. simpl.
  exists {| self_world_model := self_world_model s;
            self_planner_context := self_planner_context s;
            budget_used := budget_used s;
            entropy := en |}.
  repeat split; reflexivity.
Qed.

Lemma seed_phase_appends configs s :
  never_raises run_campaign →
  ∃ s', seed_phase configs s = (s', Returned ()) ∧
    length (records s') = (length (records s) + length configs)%nat ∧
    budget_used s' = budget_used s.
Proof.
  intros Hok. revert s. induction configs as [|c configs IH]; intros s; simpl.
  - exists s. split; [done|]. split; [lia|done].
  - rewrite bind_run.
    destruct (call_run_campaign_state c s) as (s1 & Hr1 & Hb1 & _ & _ & ->).
    specialize (Hok (entropy s) c).
    destruct ((run_campaign (entropy s) c).2) as [[m a]|e]; [|done].
    rewrite bind_run. simpl.
    destruct (call_update_state c m a s1) as (s2 & -> & Hr2 & Hb2 & _).
    destruct (IH s2) as (s3 & -> & Hr3 & Hb3).
    exists s3. split; [done|]. split; [|congruence].
    rewrite Hr3, Hr2, Hr1. lia.
Qed.

Lemma execute_round_bounded cfgs s :
  budget_counts_records s → budget_used s < budget_max →
  budget_counts_records (execute_round cfgs s).1 ∧
  budget_used s ≤ budget_used (execute_round cfgs s).1 ≤ budget_max ∧
  (execute_round cfgs s).2 ≠ OutOfFuel ∧
  (cfgs ≠ [] → (execute_round cfgs s).2 = Returned () →
   budget_used s < budget_used (execute_round cfgs s).1).
Proof.
  revert s. induction cfgs as [|c cfgs IH]; intros s Hinv Hlt; simpl.
  - split; [done|]. split; [lia|]. split; [done|]. done.
  - rewrite bind_run.
    destruct (call_run_campaign_state c s) as (s1 & Hr1 & Hb1 & _ & _ & ->).
    destruct ((run_campaign (entropy s) c).2) as [[m a]|e]; simpl.
    2: { unfold budget_counts_records, records in *. rewrite Hb1.
         split; [congruence|]. split; [lia|]. split; done. }
    rewrite bind_run.
    destruct (call_update_state c m a s1) as (s2 & -> & Hr2 & Hb2 & _).
    rewrite bind_run. simpl. rewrite bind_run. simpl.
    assert (budget_used s2 = budget_used s) as Hb by congruence.
    assert (length (records s2) = S (length (records s))) as Hr by congruence.
    unfold budget_counts_records, records in *.
    case_bool_decide as Hmax; simpl.
    + rewrite Hr, Hb, Hinv. split; [lia|]. split; [lia|]. split; [done|]. lia.
    + set (s3 := {| self_world_model := self_world_model s2;
                    self_planner_context := self_planner_context s2;
                    budget_used := budget_used s2 + 1;
                    entropy := entropy s2 |}).
      destruct (IH s3) as (H1 & H2 & H3 & H4).
      * unfold budget_counts_records, s3. simpl. rewrite Hr, Hb, Hinv. lia.
      * simpl. lia.
      * split; [done|]. simpl in H2. split; [lia|]. split; [done|].
        intros _ _. lia.
Qed.

Lemma summarize_world_model_empty wm :
  experiments wm = [] →
  Planner.summarize_world_model wm !! "avg_psnr" = None ∧
  is_Some (Planner.summarize_world_model wm !! "total_experiments") ∧
  is_Some (Planner.summarize_world_model wm !! "best_psnr").
Proof.
  intros Hwm. unfold Planner.summarize_world_model, get_all_experiments.
  rewrite Hwm. split; [|split].
  - by rewrite !lookup_insert_ne, lookup_empty by done.
  - rewrite !lookup_insert_ne by done. rewrite lookup_insert_eq. by eexists.
  - rewrite !lookup_insert_ne by done. rewrite lookup_insert_eq. by eexists.
Qed.

Lemma summarize_world_model_nonempty wm :
  experiments wm ≠ [] →
  is_Some (Planner.summarize_world_model wm !! "total_experiments") ∧
  is_Some (Planner.summarize_world_model wm !! "best_psnr") ∧
  is_Some (Planner.summarize_world_model wm !! "avg_psnr").
Proof.
  intros Hwm. unfold Planner.summarize_world_model, get_all_experiments.
  destruct (experiments wm) as [|e0 rest]; [done|]. split; [|split].
  - rewrite !lookup_insert_ne by done. rewrite lookup_insert_eq. by eexists.
  - rewrite !lookup_insert_ne by done. rewrite lookup_insert_eq. by eexists.
  - rewrite !lookup_insert_ne by done. rewrite lookup_insert_eq. by eexists.
Qed.

(** A round on an empty world model stops at the read of [avg_psnr]. *)
Lemma discovery_round_empty s :
  records s = [] → discovery_round s = (s, Raised (KeyError "avg_psnr")).
Proof.
  intros Hs. destruct (summarize_world_model_empty (self_world_model s) Hs)
    as (Havg & [v1 H1] & [v2 H2]).
  unfold AIScientistLoop.discovery_round, dict_getitem.
  loop_simpl. rewrite H1. loop_simpl. rewrite H2. loop_simpl. rewrite Havg.
  reflexivity.
Qed.

(** A round on a non-empty world model: the planner is asked, its
    configurations are executed, and the analysis closes the round. *)
Lemma discovery_round_nonempty s :
  records s ≠ [] →
  match planner_step (Planner.summarize_world_model (self_world_model s))
          design_space (budget_max - budget_used s) with
  | Raise e => discovery_round s = (s, Raised e)
  | Ok cfgs =>
      match (execute_round cfgs s).2 with
      | Returned _ =>
          ∃ s', discovery_round s = (s', Returned ()) ∧
            self_world_model s' = self_world_model (execute_round cfgs s).1 ∧
            budget_used s' = budget_used (execute_round cfgs s).1 ∧
            entropy s' = entropy (execute_round cfgs s).1
      | o => discovery_round s = ((execute_round cfgs s).1, o)
      end
  end.
Proof.
  intros Hs. destruct (summarize_world_model_nonempty (self_world_model s) Hs)
    as ([v1 H1] & [v2 H2] & [v3 H3]).
  unfold AIScientistLoop.discovery_round, dict_getitem.
  loop_simpl. rewrite H1. loop_simpl. rewrite H2. loop_simpl. rewrite H3. loop_simpl.
  destruct (planner_step _ design_space _) as [cfgs|e]; [|reflexivity].
  loop_simpl.
  destruct (execute_round cfgs s) as [s1 [[]|e|]]; simpl; [|reflexivity|reflexivity].
  loop_simpl.
  destruct (analysis_step_ok format_float repr_str (self_world_model s1)) as [pt ->].
  loop_simpl. eexists. split; [reflexivity|]. done.
Qed.

Lemma discovery_round_bounded s :
  budget_counts_records s → budget_used s < budget_max →
  budget_counts_records (discovery_round s).1 ∧
  budget_used s ≤ budget_used (discovery_round s).1 ≤ budget_max ∧
  (discovery_round s).2 ≠ OutOfFuel.
Proof.
  intros Hinv Hlt. destruct (decide (records s = [])) as [Hs|Hs].
  - rewrite discovery_round_empty by done. simpl. split; [done|]. split; [lia|done].
  - pose proof (discovery_round_nonempty s Hs) as Hround.
    destruct (planner_step _ design_space _) as [cfgs|e].
    2: { rewrite Hround. simpl. split; [done|]. split; [lia|done]. }
    destruct (execute_round_bounded cfgs s Hinv Hlt) as (Hinv' & Hb & Hfuel & _).
    destruct ((execute_round cfgs s).2) as [[]|e|] eqn:Hout; [| |done].
    + destruct Hround as (s' & -> & Hwm & Hbu & _). simpl.
      unfold budget_counts_records in *. rewrite Hbu, Hwm. split; [done|].
      split; [lia|done].
    + rewrite Hround. simpl. split; [done|]. split; [lia|done].
Qed.

Lemma discovery_loop_unfold fuel s :
  discovery_loop fuel s =
    if bool_decide (budget_used s < budget_max) then
      match fuel with
      | O => (s, OutOfFuel)
      | S fuel' =>
          match discovery_round s with
          | (s', Returned _) => discovery_loop fuel' s'
          | (s', Raised e) => (s', Raised e)
          | (s', OutOfFuel) => (s', OutOfFuel)
          end
      end
    else (s, Returned ()).
Proof. by destruct fuel. Qed.

Lemma discovery_loop_bounded fuel s :
  budget_counts_records s →
  budget_counts_records (discovery_loop fuel s).1 ∧
  budget_used s ≤ budget_used (discovery_loop fuel s).1 ∧
  budget_used (discovery_loop fuel s).1 ≤ Z.max budget_max (budget_used s) ∧
  (budget_max ≤ budget_used s → discovery_loop fuel s = (s, Returned ())).
Proof.
  revert s. induction fuel as [|fuel IH]; intros s Hinv;
    rewrite discovery_loop_unfold; case_bool_decide as Hlt; simpl;
    try (split; [done|]; split; [lia|]; split; [lia|]; intros; (done || lia)).
  destruct (discovery_round_bounded s Hinv Hlt) as (Hinv' & Hb & Hfuel).
  destruct (discovery_round s) as [s' [[]|e|]]; simpl in *; [| |done].
  - destruct (IH s' Hinv') as (H1 & H2 & H3 & _).
    split; [done|]. split; [lia|]. split; [lia|]. intros; lia.
  - split; [done|]. split; [lia|]. split; [lia|]. intros; lia.
Qed.

Lemma seed_phase_no_timeout configs s : (seed_phase configs s).2 ≠ OutOfFuel.
Proof.
  revert s. induction configs as [|c configs IH]; intros s; simpl; [done|].
  rewrite bind_run.
  destruct (call_run_campaign_state c s) as (s1 & _ & _ & _ & _ & ->).
  destruct ((run_campaign (entropy s) c).2) as [[m a]|e]; [|done].
  rewrite bind_run. simpl.
  destruct (call_update_state c m a s1) as (s2 & -> & _). apply IH.
Qed.

Lemma run_with_unfold initial_configs fuel s :
  run_with initial_configs budget_max fuel s =
    match seed_phase initial_configs s with
    | (s1, Returned _) =>
        match discovery_loop fuel
                (set_budget_used (Z.of_nat (length initial_configs)) s1).1 with
        | (s2, Returned _) =>
            match AnalysisAgent.analysis_step format_float repr_str
                    (self_world_model s2) with
            | Ok pt => (s2, Returned (pt.1, self_world_model s2))
            | Raise e => (s2, Raised e)
            end
        | (s2, Raised e) => (s2, Raised e)
        | (s2, OutOfFuel) => (s2, OutOfFuel)
        end
    | (s1, Raised e) => (s1, Raised e)
    | (s1, OutOfFuel) => (s1, OutOfFuel)
    end.
Proof.
  unfold AIScientistLoop.run_with. loop_simpl.
  destruct (seed_phase initial_configs s) as [s1 [[]|e|]]; [|done|done].
  loop_simpl.
  destruct (discovery_loop fuel _) as [s2 [[]|e|]]; [|done|done].
  loop_simpl. by destruct (AnalysisAgent.analysis_step _ _ _).
Qed.

Lemma execute_round_break c rest s :
  budget_max ≤ budget_used s + 1 →
  execute_round (c :: rest) s = execute_round [c] s.
Proof.
  intros Hmax. simpl. rewrite !bind_run.
  destruct (call_run_campaign_state c s) as (s1 & _ & Hb1 & _ & _ & ->).
  destruct ((run_campaign (entropy s) c).2) as [[m a]|e]; [|done].
  rewrite !bind_run. simpl.
  destruct (call_update_state c m a s1) as (s2 & -> & _ & Hb2 & _).
  loop_simpl. rewrite ?bind_run. simpl.
  rewrite !bool_decide_eq_true_2 by lia. reflexivity.
Qed.

Lemma execute_round_app cfgs1 cfgs2 s :
  (execute_round cfgs1 s).2 = Returned () →
  budget_used (execute_round cfgs1 s).1 < budget_max →
  budget_used s < budget_max →
  execute_round (cfgs1 ++ cfgs2) s = execute_round cfgs2 (execute_round cfgs1 s).1.
Proof.
  revert s. induction cfgs1 as [|c cfgs1 IH]; intros s; [done|].
  simpl. rewrite !bind_run.
  destruct (call_run_campaign_state c s) as (s1 & _ & Hb1 & _ & _ & ->).
  destruct ((run_campaign (entropy s) c).2) as [[m a]|e]; [|done].
  rewrite !bind_run. simpl.
  destruct (call_update_state c m a s1) as (s2 & -> & _ & Hb2 & _).
  loop_simpl. rewrite ?bind_run. simpl.
  case_bool_decide as Hmax; simpl; [lia|].
  intros Hret Hlt Hs. apply IH; [done|done|]. simpl. lia.
Qed.

(** With a planner that proposes nothing, a round changes neither the world
    model nor [budget_used]. *)
Lemma discovery_round_no_proposal s :
  (∀ summary b, planner_step summary design_space b = Ok []) →
  records s ≠ [] →
  ∃ s', discovery_round s = (s', Returned ()) ∧
    self_world_model s' = self_world_model s ∧ budget_used s' = budget_used s.
Proof.
  intros Hplan Hs. pose proof (discovery_round_nonempty s Hs) as Hround.
  rewrite Hplan in Hround. simpl in Hround.
  destruct Hround as (s' & -> & Hwm & Hb & _). by exists s'.
Qed.

Lemma discovery_loop_no_proposal fuel s :
  (∀ summary b, planner_step summary design_space b = Ok []) →
  records s ≠ [] → budget_used s < budget_max →
  (discovery_loop fuel s).2 = OutOfFuel.
Proof.
  intros Hplan. revert s. induction fuel as [|fuel IH]; intros s Hs Hlt;
    rewrite discovery_loop_unfold, bool_decide_eq_true_2 by done; [done|].
  destruct (discovery_round_no_proposal s Hplan Hs) as (s' & -> & Hwm & Hb).
  apply IH.
  - unfold records in *. by rewrite Hwm.
  - by rewrite Hb.
Qed.

Lemma seed_phase_returned configs s :
  (seed_phase configs s).2 = Returned () →
  length (records (seed_phase configs s).1) = (length (records s) + length configs)%nat ∧
  budget_used (seed_phase configs s).1 = budget_used s.
Proof.
  revert s. induction configs as [|c configs IH]; intros s; simpl.
  - intros _. split; [lia|done].
  - rewrite bind_run.
    destruct (call_run_campaign_state c s) as (s1 & Hr1 & Hb1 & _ & _ & ->).
    destruct ((run_campaign (entropy s) c).2) as [[m a]|e]; [|done].
    rewrite bind_run. simpl.
    destruct (call_update_state c m a s1) as (s2 & -> & Hr2 & Hb2 & _).
    intros Hret. destruct (IH s2 Hret) as [Hr3 Hb3].
    split; [|congruence]. rewrite Hr3, Hr2, Hr1. lia.
Qed.

Lemma discovery_loop_terminates fuel s :
  (∀ summary b cfgs,
     0 < b → planner_step summary design_space b = Ok cfgs → cfgs ≠ []) →
  budget_counts_records s →
  (Z.to_nat (budget_max - budget_used s) ≤ fuel)%nat →
  (discovery_loop fuel s).2 ≠ OutOfFuel.
Proof.
  intros Hplan. revert s. induction fuel as [|fuel IH]; intros s Hinv Hfuel;
    rewrite discovery_loop_unfold; case_bool_decide as Hlt; simpl; try done; [lia|].
  destruct (discovery_round_bounded s Hinv Hlt) as (Hinv' & Hb & Hnf).
  destruct (discovery_round s) as [s' [[]|e|]] eqn:Hround; simpl in *; [|done|done].
  apply IH; [done|].
  enough (budget_used s < budget_used s') by lia.
  destruct (decide (records s = [])) as [Hs|Hs].
  { rewrite discovery_round_empty in Hround by done. discriminate. }
  pose proof (discovery_round_nonempty s Hs) as Hcases.
  destruct (planner_step _ design_space _) as [cfgs|e] eqn:Hp.
  2: { rewrite Hround in Hcases. discriminate. }
  apply Hplan in Hp; [|lia].
  destruct (execute_round_bounded cfgs s Hinv Hlt) as (_ & _ & _ & Hprog).
  destruct ((execute_round cfgs s).2) as [[]|e|] eqn:Hout.
  - destruct Hcases as (s'' & Heq & _ & Hbu & _). rewrite Hround in Heq.
    injection Heq as <-. rewrite Hbu. by apply Hprog.
  - rewrite Hround in Hcases. discriminate.
  - rewrite Hround in Hcases. discriminate.
Qed.

(** C2.  With an executor that does not raise, the seed phase appends exactly
    one record per seed configuration, whatever the budget is; the records
    that the discovery phase adds are none when the seeds already reach the
    budget and at most [budget_max - N] otherwise, for every planner, also one
    that proposes more than the remaining budget: a round stops at the
    configuration that brings [budget_used] to [budget_max] and leaves the
    rest of the round unexecuted. *)
Theorem run_budget_ceiling (initial_configs : list Configuration) (en : Entropy)
    (fuel : nat) :
  never_raises run_campaign →
  let N := length initial_configs in
  let s0 := AIScientistLoop.initial_state en in
  (∃ s1, seed_phase initial_configs s0 = (s1, Returned ()) ∧
         length (records s1) = N) ∧
  (let s2 := (run_with initial_configs budget_max fuel s0).1 in
   (N ≤ length (records s2))%nat ∧
   (budget_max ≤ Z.of_nat N → length (records s2) = N) ∧
   (Z.of_nat N ≤ budget_max →
    Z.of_nat (length (records s2)) - Z.of_nat N ≤ budget_max - Z.of_nat N)) ∧
  (∀ s c rest, budget_max ≤ budget_used s + 1 →
               execute_round (c :: rest) s = execute_round [c] s).
Proof.
  intros Hok N s0.
  destruct (seed_phase_appends initial_configs s0 Hok) as (s1 & Hseed & Hlen & Hb).
  assert (length (records s1) = N) as HN by (rewrite Hlen; simpl; lia).
  split; [by exists s1|]. split; [|by intros; apply execute_round_break].
  rewrite run_with_unfold, Hseed. fold N.
  set (s1' := (set_budget_used (Z.of_nat N) s1).1).
  assert (budget_counts_records s1') as Hinv.
  { unfold budget_counts_records, s1'. simpl. unfold records in HN. by rewrite HN. }
  destruct (discovery_loop_bounded fuel s1' Hinv) as (Hinv2 & Hge & Hle & Hstop).
  assert (budget_used s1' = Z.of_nat N) as Hb1 by done.
  assert ((match discovery_loop fuel s1' with
           | (s2, Returned _) =>
               match AnalysisAgent.analysis_step format_float repr_str
                       (self_world_model s2) with
               | Ok pt => (s2, Returned (pt.1, self_world_model s2))
               | Raise e => (s2, Raised e)
               end
           | (s2, Raised e) => (s2, Raised e)
           | (s2, OutOfFuel) => (s2, OutOfFuel)
           end).1 = (discovery_loop fuel s1').1) as ->.
  { destruct (discovery_loop fuel s1') as [s2 [[]|e|]]; simpl; try done.
    by destruct (AnalysisAgent.analysis_step _ _ _). }
  unfold budget_counts_records, records in *.
  split; [lia|]. split; [|lia].
  intros HBN. rewrite Hstop by lia. simpl. done.
Qed.

(** C3 (as amended).  When [Executor.run_campaign] raises on a configuration
    of a discovery round, the failing configuration is not appended to the
    world model and [budget_used] is not incremented for it; the exception
    leaves the round and the loop, the configurations that follow in the round
    are not executed, and [run] ends with that exception. *)
Theorem executor_failure_aborts_run (fuel : nat) (s : LoopState)
    (cfgs1 : list Configuration) (c : Configuration) (cfgs2 : list Configuration)
    (e : exn) :
  records s ≠ [] → budget_used s < budget_max →
  planner_step (Planner.summarize_world_model (self_world_model s)) design_space
    (budget_max - budget_used s) = Ok (cfgs1 ++ c :: cfgs2) →
  (execute_round cfgs1 s).2 = Returned () →
  budget_used (execute_round cfgs1 s).1 < budget_max →
  (run_campaign (entropy (execute_round cfgs1 s).1) c).2 = Raise e →
  ∃ s', discovery_loop (S fuel) s = (s', Raised e) ∧
    self_world_model s' = self_world_model (execute_round cfgs1 s).1 ∧
    budget_used s' = budget_used (execute_round cfgs1 s).1 ∧
    entropy s' = (run_campaign (entropy (execute_round cfgs1 s).1) c).1 ∧
    ∀ initial_configs s0 s1,
      seed_phase initial_configs s0 = (s1, Returned ()) →
      (set_budget_used (Z.of_nat (length initial_configs)) s1).1 = s →
      run_with initial_configs budget_max (S fuel) s0 = (s', Raised e).
Proof.
  intros Hs Hlt Hplan Hret Hlt1 Hraise.
  set (s1 := (execute_round cfgs1 s).1) in *.
  destruct (call_run_campaign_state c s1) as (s' & _ & Hb' & Hwm' & Hen' & Hcall).
  rewrite Hraise in Hcall.
  assert (execute_round (cfgs1 ++ c :: cfgs2) s = (s', Raised e)) as Hround.
  { rewrite execute_round_app by done. fold s1. simpl. rewrite bind_run.
    by rewrite Hcall. }
  assert (discovery_loop (S fuel) s = (s', Raised e)) as Hloop.
  { rewrite discovery_loop_unfold, bool_decide_eq_true_2 by done.
    pose proof (discovery_round_nonempty s Hs) as Hcases.
    rewrite Hplan, Hround in Hcases. simpl in Hcases. by rewrite Hcases. }
  exists s'. split; [done|]. split; [done|]. split; [done|]. split; [done|].
  intros initial_configs s0 s1' Hseed Hs1.
  by rewrite run_with_unfold, Hseed, Hs1, Hloop.
Qed.

(** C10.  Without seed configurations and with a positive budget, [run]
    raises [KeyError] for the key [avg_psnr] in its first discovery iteration:
    the summary of the empty world model has no such key. *)
Theorem run_without_seeds_raises (en : Entropy) (fuel : nat) :
  0 < budget_max →
  run_with [] budget_max (S fuel) (AIScientistLoop.initial_state en)
  = (AIScientistLoop.initial_state en, Raised (KeyError "avg_psnr")).
Proof.
  intros Hpos. rewrite run_with_unfold.
  cbn [AIScientistLoop.seed_phase mret loopM_ret set_budget_used fst length Z.of_nat].
  rewrite discovery_loop_unfold. cbn [budget_used].
  rewrite bool_decide_eq_true_2 by done.
  by rewrite discovery_round_empty.
Qed.

End LoopFacts.

Section PlannerProgress.

Context `{py : Runtime}.

Variable repr_val : pyval → string.

Lemma project_loop_length proposals design_space constraints acc l :
  Planner.project_loop proposals design_space constraints acc = Ok l →
  length l = (length acc + length proposals)%nat.
Proof.
  revert acc. induction proposals as [|p proposals IH]; intros acc; simpl.
  - intros [= <-]. lia.
  - destruct (Planner.project_to_design_space p design_space) as [c|e]; simpl; [|done].
    intros Hl. apply IH in Hl. rewrite length_app in Hl. simpl in Hl. lia.
Qed.

(** With budget left, the planner of the repository proposes at least one
    configuration, unless it raises. *)
Lemma planner_step_progress summary design_space b cfgs :
  0 < b → Planner.planner_step repr_val summary design_space b = Ok cfgs →
  cfgs ≠ [].
Proof.
  intros Hb. unfold Planner.planner_step.
  destruct (Planner.identify_underexplored_regions summary) as [gaps|e];
    cbn [mbind result_bind]; [|done].
  destruct (Planner.build_planner_prompt repr_val gaps _ _ b) as [prompt|e];
    cbn [mbind result_bind]; [|done].
  destruct (Planner.project_loop _ design_space _ []) as [l|e] eqn:Hl;
    cbn [mbind result_bind]; [|done].
  apply project_loop_length in Hl. simpl in Hl.
  intros [= <-]. case_bool_decide as Hcut.
  - unfold py_slice_to. rewrite bool_decide_eq_true_2 by lia.
    intros Hnil. apply (f_equal length) in Hnil. rewrite length_take in Hnil.
    simpl in Hnil. lia.
  - intros ->. simpl in Hl. lia.
Qed.

(** C4 (as amended).  With the planner of the repository, [run] terminates
    for every executor: after at most [budget_max - N] rounds it has returned
    or raised, because [planner_step] proposes at least one configuration
    whenever budget remains, so that every round that ends adds a record.  The
    loop itself counts no empty rounds. *)
Theorem run_terminates (format_float : nat → pyfloat → string)
    (repr_str : string → string) (uuid4 : nat → string) (run_campaign : executor)
    (design_space : gmap string (list string))
    (initial_configs : list Configuration) (budget_max : Z) (en : Entropy)
    (fuel : nat) :
  (Z.to_nat (budget_max - Z.of_nat (length initial_configs)) ≤ fuel)%nat →
  let out :=
    (AIScientistLoop.run_with format_float repr_str uuid4
       (Planner.planner_step repr_val) run_campaign design_space initial_configs
       budget_max fuel (AIScientistLoop.initial_state en)).2 in
  (∃ r, out = Returned r) ∨ (∃ e, out = Raised e).
Proof.
  intros Hfuel out. subst out. rewrite run_with_unfold.
  pose proof (seed_phase_no_timeout uuid4 run_campaign initial_configs
                (AIScientistLoop.initial_state en)) as Hseed.
  pose proof (seed_phase_returned uuid4 run_campaign initial_configs
                (AIScientistLoop.initial_state en)) as Hlen.
  destruct (AIScientistLoop.seed_phase uuid4 run_campaign initial_configs _)
    as [s1 [[]|e|]]; simpl in *; [|by right; eexists|done].
  destruct (Hlen eq_refl) as [Hrec _].
  set (s1' := {| self_world_model := self_world_model s1;
                 self_planner_context := self_planner_context s1;
                 budget_used := Z.of_nat (length initial_configs);
                 entropy := entropy s1 |}).
  assert (budget_counts_records s1') as Hinv.
  { unfold budget_counts_records, s1'. simpl. unfold records in Hrec. by rewrite Hrec. }
  pose proof (discovery_loop_terminates format_float repr_str uuid4
                (Planner.planner_step repr_val) run_campaign design_space budget_max
                fuel s1') as Hterm.
  destruct (AIScientistLoop.discovery_loop _ _ _ _ _ _ _ fuel s1') as [s2 [[]|e|]].
  - destruct (AnalysisAgent.analysis_step _ _ _); [left|right]; by eexists.
  - right. by eexists.
  - exfalso. apply Hterm; [|done|done|done].
    intros summary b cfgs. apply planner_step_progress.
Qed.

End PlannerProgress.

(** *** The loop on concrete inputs *)

Lemma simulated_executor_never_raises uniform uuid4 :
  never_raises (Executor.run_campaign uniform uuid4).
Proof. intros en config. exact I. Defined.

Lemma run_budget_ceiling_witness :
  never_raises (Executor.run_campaign midpoint_uniform counter_uuid4) ∧
  let s2 :=
    (AIScientistLoop.run fraction_format quote_repr opaque_repr midpoint_uniform
       counter_uuid4 sample_design_space [seed_config] 3 5
       (AIScientistLoop.initial_state entropy0)).1 in
  (1 ≤ length (records s2))%nat ∧
  (3 ≤ 1 → length (records s2) = 1%nat) ∧
  (1 ≤ 3 → Z.of_nat (length (records s2)) - 1 ≤ 3 - 1).
Proof.
  split; [apply simulated_executor_never_raises|].
  exact (proj1 (proj2
    (run_budget_ceiling fraction_format quote_repr counter_uuid4
       (Planner.planner_step opaque_repr)
       (Executor.run_campaign midpoint_uniform counter_uuid4)
       sample_design_space 3 [seed_config] entropy0 5
       (simulated_executor_never_raises midpoint_uniform counter_uuid4)))).
Defined.

Example run_three_records :
  length (records
    (AIScientistLoop.run fraction_format quote_repr opaque_repr midpoint_uniform
       counter_uuid4 sample_design_space [seed_config] 3 5
       (AIScientistLoop.initial_state entropy0)).1) = 3%nat.
Proof. vm_compute. reflexivity. Qed.

Lemma executor_failure_aborts_run_witness :
  records state_after_seed ≠ [] ∧
  budget_used state_after_seed < 4 ∧
  Planner.planner_step opaque_repr
    (Planner.summarize_world_model (self_world_model state_after_seed))
    sample_design_space (4 - budget_used state_after_seed)
  = Ok ([proposed_elp] ++ proposed_core :: [proposed_cnn]) ∧
  ∃ s', AIScientistLoop.discovery_loop fraction_format quote_repr counter_uuid4
          (Planner.planner_step opaque_repr) failing_executor sample_design_space 4
          1 state_after_seed
        = (s', Raised (ExecutionError "training failed")) ∧
    length (records s') = 2%nat ∧ budget_used s' = 2.
Proof.
  assert (records state_after_seed ≠ []) as H1 by (vm_compute; discriminate).
  assert (budget_used state_after_seed < 4) as H2 by (vm_compute; reflexivity).
  assert (Planner.planner_step opaque_repr
            (Planner.summarize_world_model (self_world_model state_after_seed))
            sample_design_space (4 - budget_used state_after_seed)
          = Ok ([proposed_elp] ++ proposed_core :: [proposed_cnn])) as H3
    by (vm_compute; reflexivity).
  split; [exact H1|]. split; [exact H2|]. split; [exact H3|].
  destruct (executor_failure_aborts_run fraction_format quote_repr counter_uuid4
              (Planner.planner_step opaque_repr) failing_executor
              sample_design_space 4 0 state_after_seed [proposed_elp] proposed_core
              [proposed_cnn] (ExecutionError "training failed") H1 H2 H3)
    as (s' & Hloop & Hwm & Hb & _).
  - vm_compute. reflexivity.
  - vm_compute. reflexivity.
  - vm_compute. reflexivity.
  - exists s'. split; [exact Hloop|]. unfold records. rewrite Hwm, Hb.
    split; vm_compute; reflexivity.
Defined.

(** C3, as it is stated, fails: the loop has no handler around the executor.
    With one seed, budget 4 and an executor that fails on the second proposal
    of the first round, [run] ends with the exception of the executor; the
    third proposal of the round is never executed and the world model keeps
    the seed and the first proposal only. *)
Lemma run_aborts_on_executor_failure :
  let r :=
    AIScientistLoop.run_with fraction_format quote_repr counter_uuid4
      (Planner.planner_step opaque_repr) failing_executor sample_design_space
      [seed_config] 4 5 (AIScientistLoop.initial_state entropy0) in
  r.2 = Raised (ExecutionError "training failed") ∧
  map config (records r.1) = [seed_config; proposed_elp] ∧
  (proposed_cnn ∉ map config (records r.1)) ∧
  budget_used r.1 = 2.
Proof.
  assert (map config (records
            (AIScientistLoop.run_with fraction_format quote_repr counter_uuid4
               (Planner.planner_step opaque_repr) failing_executor
               sample_design_space [seed_config] 4 5
               (AIScientistLoop.initial_state entropy0)).1)
          = [seed_config; proposed_elp]) as Hcfg by (vm_compute; reflexivity).
  intros r. subst r. split; [vm_compute; reflexivity|]. split; [exact Hcfg|].
  split; [|vm_compute; reflexivity].
  rewrite Hcfg. intros Hin.
  apply elem_of_cons in Hin as [Heq|Hin]; [discriminate Heq|].
  apply list_elem_of_singleton in Hin. discriminate Hin.
Qed.

Lemma run_terminates_witness :
  (Z.to_nat (3 - Z.of_nat (length [seed_config])) ≤ 5)%nat ∧
  let out :=
    (AIScientistLoop.run_with fraction_format quote_repr counter_uuid4
       (Planner.planner_step opaque_repr)
       (Executor.run_campaign midpoint_uniform counter_uuid4) sample_design_space
       [seed_config] 3 5 (AIScientistLoop.initial_state entropy0)).2 in
  (∃ r, out = Returned r) ∨ (∃ e, out = Raised e).
Proof.
  assert (Z.to_nat (3 - Z.of_nat (length [seed_config])) ≤ 5)%nat as Hfuel
    by (vm_compute; lia).
  split; [exact Hfuel|].
  exact (run_terminates opaque_repr fraction_format quote_repr counter_uuid4
           (Executor.run_campaign midpoint_uniform counter_uuid4)
           sample_design_space [seed_config] 3 entropy0 5 Hfuel).
Defined.

(** C4, as it is stated, fails: the loop counts no empty rounds.  With a
    planner that proposes nothing, one seed and budget 2, every round leaves
    [budget_used] at 1, and no number of rounds ends the loop. *)
Lemma silent_planner_never_terminates :
  ¬ ∃ fuel,
      (AIScientistLoop.run_with fraction_format quote_repr counter_uuid4
         silent_planner (Executor.run_campaign midpoint_uniform counter_uuid4)
         sample_design_space [seed_config] 2 fuel
         (AIScientistLoop.initial_state entropy0)).2 ≠ OutOfFuel.
Proof.
  intros [fuel Hout]. apply Hout. clear Hout. rewrite run_with_unfold.
  destruct (seed_phase_appends counter_uuid4
              (Executor.run_campaign midpoint_uniform counter_uuid4) [seed_config]
              (AIScientistLoop.initial_state entropy0)
              (simulated_executor_never_raises _ _)) as (s1 & -> & Hlen & _).
  pose proof (discovery_loop_no_proposal fraction_format quote_repr counter_uuid4
                silent_planner (Executor.run_campaign midpoint_uniform counter_uuid4)
                sample_design_space 2 fuel
                (set_budget_used (Z.of_nat (length [seed_config])) s1).1) as Hloop.
  destruct (AIScientistLoop.discovery_loop _ _ _ _ _ _ _ fuel _) as [s2 o].
  simpl in Hloop. rewrite Hloop; [done|done| |done].
  unfold records in *. simpl in *. intros Hnil. rewrite Hnil in Hlen. discriminate.
Qed.

Lemma run_without_seeds_raises_witness :
  0 < 2 ∧
  AIScientistLoop.run fraction_format quote_repr opaque_repr midpoint_uniform
    counter_uuid4 sample_design_space [] 2 1 (AIScientistLoop.initial_state entropy0)
  = (AIScientistLoop.initial_state entropy0, Raised (KeyError "avg_psnr")).
Proof.
  split; [reflexivity|].
  apply (run_without_seeds_raises fraction_format quote_repr counter_uuid4
           (Planner.planner_step opaque_repr)
           (Executor.run_campaign midpoint_uniform counter_uuid4)
           sample_design_space 2 entropy0 0).
  reflexivity.
Defined.

(** *** The run on a seeded loop with a declared family: it returns *)

Section RunReturns.

Context `{py : Runtime}.

Variable format_float : nat → pyfloat → string.
Variable repr_str : string → string.
Variable repr_val : pyval → string.
Variable uuid4 : nat → string.
Variable run_campaign : executor.
Variable design_space : gmap string (list string).
Variable budget_max : Z.

Hypothesis executor_total : never_raises run_campaign.
Hypothesis families_declared :
  ∃ first others, design_space !! "recon_families" = Some (first :: others).

Local Abbreviation execute_round :=
  (AIScientistLoop.execute_round uuid4 run_campaign budget_max).
Local Abbreviation discovery_round :=
  (AIScientistLoop.discovery_round format_float repr_str uuid4
     (Planner.planner_step repr_val) run_campaign design_space budget_max).
Local Abbreviation discovery_loop :=
  (AIScientistLoop.discovery_loop format_float repr_str uuid4
     (Planner.planner_step repr_val) run_campaign design_space budget_max).

Lemma project_loop_ok proposals constraints acc :
  ∃ l, Planner.project_loop proposals design_space constraints acc = Ok l.
Proof.
  destruct families_declared as (first & others & Hds).
  revert acc. induction proposals as [|p proposals IH]; intros acc; simpl.
  - by eexists.
  - destruct (project_to_design_space_ok p design_space first others Hds)
      as (c & ->). simpl. apply IH.
Qed.

Lemma planner_step_ok_of summary b :
  is_ok (py_keys (default (PDict []) (summary !! "recon_families"))) →
  is_ok (py_keys (default (PDict []) (summary !! "uq_schemes"))) →
  is_ok (py_len (default (PList []) (summary !! "frontiers"))) →
  ∃ cfgs, Planner.planner_step repr_val summary design_space b = Ok cfgs.
Proof.
  intros H1 H2 H3.
  unfold Planner.planner_step, Planner.identify_underexplored_regions,
    Planner.build_planner_prompt.
  destruct (py_keys (default _ (summary !! "recon_families"))); [|done].
  cbn [mbind result_bind].
  destruct (py_keys (default _ (summary !! "uq_schemes"))); [|done].
  cbn [mbind result_bind].
  destruct (py_len _); [|done].
  cbn [mbind result_bind].
  match goal with
  | |- context [Planner.project_loop ?ps _ ?cs []] =>
      destruct (project_loop_ok ps cs []) as [l ->]
  end.
  by eexists.
Qed.

Lemma planner_step_ok wm b :
  ∃ cfgs, Planner.planner_step repr_val (Planner.summarize_world_model wm)
            design_space b = Ok cfgs.
Proof.
  apply planner_step_ok_of;
    unfold Planner.summarize_world_model, get_all_experiments;
    destruct (experiments wm) as [|e0 rest];
    repeat (rewrite lookup_insert_ne by done);
    rewrite ?lookup_insert_eq, ?lookup_empty; exact I.
Qed.

Lemma execute_round_returns cfgs s :
  (execute_round cfgs s).2 = Returned () ∧
  (length (records s) ≤ length (records (execute_round cfgs s).1))%nat.
Proof.
  revert s. induction cfgs as [|c cfgs IH]; intros s; simpl; [done|].
  rewrite !bind_run.
  destruct (call_run_campaign_state run_campaign c s) as (s1 & Hr1 & _ & _ & _ & ->).
  specialize (executor_total (entropy s) c).
  destruct ((run_campaign (entropy s) c).2) as [[m a]|e]; [|done].
  rewrite !bind_run. simpl.
  destruct (call_update_state uuid4 c m a s1) as (s2 & -> & Hr2 & _).
  rewrite !bind_run. simpl. rewrite ?bind_run. simpl.
  case_bool_decide; simpl.
  - split; [done|]. unfold records in *. simpl. rewrite Hr2, Hr1. lia.
  - destruct (IH {| self_world_model := self_world_model s2;
                    self_planner_context := self_planner_context s2;
                    budget_used := budget_used s2 + 1;
                    entropy := entropy s2 |}) as [Hret Hlen].
    split; [done|]. unfold records in *. simpl in *. rewrite Hr2, Hr1 in Hlen. lia.
Qed.

Lemma discovery_round_returns s :
  budget_counts_records s → budget_used s < budget_max → records s ≠ [] →
  (discovery_round s).2 = Returned () ∧
  records (discovery_round s).1 ≠ [] ∧
  budget_counts_records (discovery_round s).1 ∧
  budget_used s < budget_used (discovery_round s).1 ≤ budget_max.
Proof.
  intros Hinv Hlt Hs.
  pose proof (discovery_round_nonempty format_float repr_str uuid4
                (Planner.planner_step repr_val) run_campaign design_space
                budget_max s Hs) as Hcases.
  destruct (planner_step_ok (self_world_model s) (budget_max - budget_used s))
    as [cfgs Hplan].
  rewrite Hplan in Hcases.
  assert (cfgs ≠ []) as Hne
    by (eapply planner_step_progress; [|exact Hplan]; lia).
  destruct (execute_round_returns cfgs s) as [Hret Hlen].
  destruct (execute_round_bounded uuid4 run_campaign budget_max cfgs s Hinv Hlt)
    as (Hinv' & Hb & _ & Hprog).
  rewrite Hret in Hcases. destruct Hcases as (s' & -> & Hwm & Hbu & _). simpl.
  unfold budget_counts_records, records in *. rewrite Hwm, Hbu.
  split; [done|]. split.
  - intros Hnil. rewrite Hnil in Hlen. destruct (experiments (self_world_model s));
      [done|simpl in Hlen; lia].
  - split; [done|]. specialize (Hprog Hne Hret). lia.
Qed.

Lemma discovery_loop_returns fuel s :
  budget_counts_records s → records s ≠ [] →
  (Z.to_nat (budget_max - budget_used s) ≤ fuel)%nat →
  (discovery_loop fuel s).2 = Returned () ∧
  budget_counts_records (discovery_loop fuel s).1 ∧
  budget_used (discovery_loop fuel s).1 = Z.max budget_max (budget_used s).
Proof.
  revert s. induction fuel as [|fuel IH]; intros s Hinv Hs Hfuel;
    rewrite discovery_loop_unfold; case_bool_decide as Hlt; simpl;
    try (split; [done|]; split; [done|]; lia); [lia|].
  destruct (discovery_round_returns s Hinv Hlt Hs) as (Hret & Hs' & Hinv' & Hb).
  destruct (discovery_round s) as [s' o]. simpl in *. subst o.
  destruct (IH s' Hinv' Hs') as (H1 & H2 & H3); [lia|].
  split; [done|]. split; [done|]. lia.
Qed.

Lemma compute_pareto_front_ids exps S :
  AnalysisAgent.compute_pareto_front exps ["psnr"; "coverage"] = Ok S →
  ∀ i, i ∈ S → i ∈ map id exps.
Proof.
  intros HS i Hi.
  destruct (compute_pareto_front_comparable exps ["psnr"; "coverage"])
    as (S' & HS' & Hiff).
  - apply numeric_on_comparable, numeric_on_default.
  - rewrite HS in HS'. injection HS' as <-.
    apply Hiff in Hi as (a & Ha & <- & _). by apply (list_elem_of_fmap_2 id).
Qed.

(** X24.  With at least one seed, a declared family and an executor that does
    not raise, [run] returns: the world model then holds [max budget_max N]
    records, and the returned Pareto set consists of ids of its records. *)
Theorem run_returns (initial_configs : list Configuration) (en : Entropy)
    (fuel : nat) :
  initial_configs ≠ [] →
  (Z.to_nat (budget_max - Z.of_nat (length initial_configs)) ≤ fuel)%nat →
  ∃ ids s,
    AIScientistLoop.run_with format_float repr_str uuid4
      (Planner.planner_step repr_val) run_campaign design_space initial_configs
      budget_max fuel (AIScientistLoop.initial_state en)
    = (s, Returned (ids, self_world_model s)) ∧
    Z.of_nat (length (records s))
    = Z.max budget_max (Z.of_nat (length initial_configs)) ∧
    ∀ i, i ∈ ids → i ∈ map id (records s).
Proof.
  intros Hne Hfuel. rewrite run_with_unfold.
  destruct (seed_phase_appends uuid4 run_campaign initial_configs
              (AIScientistLoop.initial_state en) executor_total)
    as (s1 & -> & Hlen & _).
  simpl in Hlen.
  set (s1' := (set_budget_used (Z.of_nat (length initial_configs)) s1).1).
  assert (budget_counts_records s1') as Hinv.
  { unfold budget_counts_records, s1'. simpl. unfold records in Hlen. by rewrite Hlen. }
  assert (records s1' ≠ []) as Hrec.
  { unfold records, s1' in *. simpl. intros Hnil. rewrite Hnil in Hlen.
    destruct initial_configs; [done|discriminate]. }
  destruct (discovery_loop_returns fuel s1' Hinv Hrec Hfuel) as (Hret & Hinv2 & Hb).
  destruct (discovery_loop fuel s1') as [s2 o]. simpl in *. subst o.
  destruct (group_strata_partition (experiments (self_world_model s2)))
    as (_ & Hall & _ & _).
  destruct (analysis_step_ids format_float repr_str (self_world_model s2))
    as (ids & trends & -> & Hids).
  exists ids, s2. split; [done|]. split.
  - unfold budget_counts_records in Hinv2. unfold records. by rewrite <- Hinv2, Hb.
  - intros i Hi. apply Hids in Hi as ([k l] & S & Hin & HS & Hi). simpl in HS.
    apply (compute_pareto_front_ids _ _ HS) in Hi.
    apply list_elem_of_fmap in Hi as (a & -> & Ha).
    apply (list_elem_of_fmap_2 id). unfold records.
    destruct (proj1 (Forall_forall _ _) Hall _ Hin) as [_ Hl]. simpl in Hl.
    rewrite Hl in Ha. by apply list_elem_of_filter in Ha as [_ Ha].
Qed.

End RunReturns.

(** * Further properties of the code *)

Section WorldModelUpdates.

Context `{py : Runtime}.

Variable uuid4 : nat → string.

Lemma update_id_drawn draws wm c m a :
  ∃ r k, experiments (WorldModelManager.update uuid4 draws wm c m a).1
         = experiments wm ++ [r] ∧
    id r = uuid4 k ∧ (draws ≤ k)%nat ∧
    (k < (WorldModelManager.update uuid4 draws wm c m a).2)%nat ∧
    record_of_run (c, m, a) r.
Proof.
  unfold WorldModelManager.update, ExperimentRecord_init, record_of_run.
  destruct (decide (uuid4 draws = "")); simpl.
  - eexists _, (S draws). split; [reflexivity|]. simpl. repeat split; lia.
  - eexists _, draws. split; [reflexivity|]. simpl. repeat split; lia.
Qed.

Lemma update_preserves_index_exact draws wm c m a :
  index_exact wm → index_exact (WorldModelManager.update uuid4 draws wm c m a).1.
Proof.
  intros (Hf & Hs & Hother).
  destruct (update_experiments uuid4 draws wm c m a) as (r & Hexp & Hc & _ & _ & Hind).
  unfold index_exact. rewrite Hind, Hexp.
  unfold family_pairs, scheme_pairs in *. rewrite !map_app.
  split; [|split].
  - rewrite !defaultdict_get_append. repeat case_decide; try done.
    rewrite Hf. simpl. by rewrite Hc.
  - rewrite !defaultdict_get_append. repeat case_decide; try done.
    rewrite Hs. simpl. by rewrite Hc.
  - intros k Hk1 Hk2. unfold defaultdict_append.
    rewrite !lookup_insert_ne by done. by apply Hother.
Qed.

Lemma update_all_cons draws wm run runs :
  update_all uuid4 draws wm (run :: runs) =
  update_all uuid4 (WorldModelManager.update uuid4 draws wm run.1.1 run.1.2 run.2).2
    (WorldModelManager.update uuid4 draws wm run.1.1 run.1.2 run.2).1 runs.
Proof.
  unfold update_all. simpl.
  by destruct (WorldModelManager.update uuid4 draws wm run.1.1 run.1.2 run.2).
Qed.

(** X1.  After any sequence of [WorldModelManager.update] calls on an empty
    world model, the family index is exactly the list of the pairs (family
    tag, id) of the records, in the order of the records, the scheme index is
    exactly the list of their pairs (scheme tag, id), and the world model has
    no other index. *)
Theorem update_all_index_exact (draws : nat)
    (runs : list (Configuration * Metrics * Artifacts)) :
  let wm := (update_all uuid4 draws WorldModel_new runs).1 in
  defaultdict_get (indices wm) "recon_family" = family_pairs (experiments wm) ∧
  defaultdict_get (indices wm) "uq_scheme" = scheme_pairs (experiments wm) ∧
  ∀ k, k ≠ "recon_family" → k ≠ "uq_scheme" → indices wm !! k = None.
Proof.
  assert (∀ runs draws wm, index_exact wm →
            index_exact (update_all uuid4 draws wm runs).1) as Hall.
  { clear. induction runs as [|run runs IH]; intros draws wm Hwm; [done|].
    rewrite update_all_cons. by apply IH, update_preserves_index_exact. }
  apply (Hall runs draws WorldModel_new).
  split; [done|]. split; [done|]. intros k _ _. apply lookup_empty.
Qed.

(** X2.  The record sequence is append-only: a sequence of updates keeps the
    records it found, in place and unchanged, and adds behind them one record
    per run, in the order of the runs, each holding the configuration, the
    metrics and the artifacts of its run and an empty timestamp. *)
Theorem update_all_appends (draws : nat) (wm : WorldModel)
    (runs : list (Configuration * Metrics * Artifacts)) :
  ∃ new, experiments (update_all uuid4 draws wm runs).1 = experiments wm ++ new ∧
         Forall2 record_of_run runs new.
Proof.
  revert draws wm. induction runs as [|[[c m] a] runs IH]; intros draws wm.
  - exists []. split; [by rewrite app_nil_r|constructor].
  - rewrite update_all_cons. simpl.
    destruct (update_id_drawn draws wm c m a) as (r & k & Hexp & _ & _ & _ & Hr).
    destruct (IH (WorldModelManager.update uuid4 draws wm c m a).2
                (WorldModelManager.update uuid4 draws wm c m a).1) as (new & -> & Hnew).
    exists (r :: new). split; [by rewrite Hexp, <- app_assoc|by constructor].
Qed.

Lemma update_all_ids_drawn runs draws wm :
  (∀ i j, uuid4 i = uuid4 j → i = j) →
  NoDup (map id (experiments wm)) →
  (∀ r, r ∈ experiments wm → ∃ k, id r = uuid4 k ∧ (k < draws)%nat) →
  NoDup (map id (experiments (update_all uuid4 draws wm runs).1)).
Proof.
  intros Hinj. revert draws wm.
  induction runs as [|[[c m] a] runs IH]; intros draws wm Hnd Hold; [done|].
  rewrite update_all_cons. simpl.
  destruct (update_id_drawn draws wm c m a) as (r & k & Hexp & Hid & Hge & Hlt & _).
  apply IH.
  - rewrite Hexp, map_app. simpl. apply NoDup_app. split; [done|]. split.
    + intros i Hi Hi'. apply list_elem_of_singleton in Hi' as ->.
      apply list_elem_of_fmap in Hi as (r' & Heq & Hr').
      destruct (Hold r' Hr') as (k' & Hk' & Hlt').
      rewrite Hid, Hk' in Heq. apply Hinj in Heq. lia.
    + apply NoDup_singleton.
  - intros r'. rewrite Hexp, elem_of_app, list_elem_of_singleton.
    intros [Hr'| ->].
    + destruct (Hold r' Hr') as (k' & Hk' & Hlt'). exists k'. split; [done|]. lia.
    + exists k. split; [done|lia].
Qed.

(** X3.  When [uuid.uuid4] never returns the same identifier twice, the
    records of a world model built by updates from the empty one have
    pairwise distinct ids. *)
Theorem update_all_ids_distinct (draws : nat)
    (runs : list (Configuration * Metrics * Artifacts)) :
  (∀ i j, uuid4 i = uuid4 j → i = j) →
  NoDup (map id (experiments (update_all uuid4 draws WorldModel_new runs).1)).
Proof.
  intros Hinj. apply update_all_ids_drawn; [done|apply NoDup_nil_2|].
  intros r Hr. by apply elem_of_nil in Hr.
Qed.

End WorldModelUpdates.

Section ParetoEdges.

Context `{py : Runtime}.

Import AnalysisAgent.

Implicit Types (exps : list ExperimentRecord) (objs : list string).

Lemma outer_loop_ids exps0 objs todo acc S :
  outer_loop exps0 todo objs acc = Ok S →
  ∀ i, i ∈ S → i ∈ acc ∨ i ∈ map id todo.
Proof.
  revert acc. induction todo as [|a todo IH]; simpl; intros acc HS i Hi.
  - injection HS as <-. by left.
  - destruct (inner_loop a exps0 objs) as [d|e]; simpl in HS; [|done].
    destruct (IH _ HS i Hi) as [Hacc|Hin].
    + destruct d; [by left|]. apply elem_of_union in Hacc as [?|Hacc]; [by left|].
      apply elem_of_singleton in Hacc as ->. right. left.
    + right. by right.
Qed.

(** X4.  Whatever the objectives are, a set that [compute_pareto_front]
    returns holds ids of the given records only. *)
Theorem compute_pareto_front_subset_ids exps objs S :
  compute_pareto_front exps objs = Ok S → ∀ i, i ∈ S → i ∈ map id exps.
Proof.
  unfold compute_pareto_front. destruct exps as [|e exps].
  - intros [= <-] i Hi. by apply not_elem_of_empty in Hi.
  - intros HS i Hi. destruct (outer_loop_ids _ _ _ _ _ HS i Hi) as [Hin|Hin]; [|done].
    by apply not_elem_of_empty in Hin.
Qed.

Lemma inner_loop_no_objective a exps : inner_loop a exps [] = Ok false.
Proof.
  induction exps as [|b exps IH]; simpl; [done|].
  by destruct (decide (id a = id b)).
Qed.

Lemma outer_loop_no_objective exps0 todo acc :
  outer_loop exps0 todo [] acc = Ok (acc ∪ list_to_set (map id todo)).
Proof.
  revert acc. induction todo as [|a todo IH]; intros acc; simpl.
  - by rewrite union_empty_r_L.
  - rewrite inner_loop_no_objective. simpl. rewrite IH. f_equal.
    by rewrite (assoc_L (∪)).
Qed.

(** X5.  With an empty list of objectives no record dominates another:
    [compute_pareto_front] returns the ids of all the records. *)
Theorem compute_pareto_front_no_objective exps :
  compute_pareto_front exps [] = Ok (list_to_set (map id exps)).
Proof.
  unfold compute_pareto_front. destruct exps as [|e exps]; [done|].
  rewrite outer_loop_no_objective. by rewrite union_empty_l_L.
Qed.

Lemma inner_loop_same_id a exps objs :
  (∀ b, b ∈ exps → id b = id a) → inner_loop a exps objs = Ok false.
Proof.
  induction exps as [|b exps IH]; simpl; intros Hid; [done|].
  rewrite decide_True by (symmetry; apply Hid; left).
  apply IH. intros ??. apply Hid. by right.
Qed.

Lemma outer_loop_same_id exps0 todo objs acc i :
  (∀ b, b ∈ exps0 → id b = i) → (∀ b, b ∈ todo → id b = i) →
  outer_loop exps0 todo objs acc =
    Ok (match todo with [] => acc | _ => acc ∪ {[i]} end).
Proof.
  intros H0. revert acc. induction todo as [|a todo IH]; intros acc Htodo; simpl; [done|].
  assert (id a = i) as Ha by (apply Htodo; left).
  rewrite inner_loop_same_id by (intros b Hb; by rewrite H0, Ha).
  simpl. rewrite IH by (intros ??; apply Htodo; by right). rewrite Ha.
  destruct todo; [done|]. f_equal.
  by rewrite <- (assoc_L (∪)), (idemp_L (∪)).
Qed.

(** X6.  Records that carry the same id are never compared.  On a non-empty
    list whose records all have the id [i], a single record in particular,
    [compute_pareto_front] returns [{i}] for every list of objectives, also
    one that names an attribute that is not a number. *)
Theorem compute_pareto_front_same_id exps objs i :
  exps ≠ [] → (∀ b, b ∈ exps → id b = i) →
  compute_pareto_front exps objs = Ok {[i]}.
Proof.
  intros Hne Hid. unfold compute_pareto_front. destruct exps as [|e exps]; [done|].
  rewrite (outer_loop_same_id _ _ _ _ i) by done. f_equal.
  by rewrite union_empty_l_L.
Qed.

Lemma inner_loop_raises a exps o objs :
  is_comparable (objective_value a o) = false →
  (∃ b, b ∈ exps ∧ id b ≠ id a) →
  inner_loop a exps (o :: objs) = Raise TypeError.
Proof.
  intros Hnum. induction exps as [|b exps IH]; intros (b' & Hb' & Hne); simpl.
  - by apply elem_of_nil in Hb'.
  - destruct (decide (id a = id b)) as [Heq|Hneq].
    + apply IH. exists b'. split; [|done].
      apply elem_of_cons in Hb' as [->|?]; [congruence|done].
    + rewrite !getattr_objective_value. unfold py_lt.
      destruct (objective_value b o) as [| | |[|]],
        (objective_value a o) as [| | |[|]]; done.
Qed.

(** X7.  When the value of the first record at the first objective is not
    comparable (a calibration error that is [None], the [other_metrics]
    mapping, an inherited attribute without an order such as [__dict__]) and
    some record has another id, [compute_pareto_front] raises [TypeError].
    A name that is no attribute reads as 0 and the docstring is a string:
    neither is such a value. *)
Theorem compute_pareto_front_raises_TypeError a exps o objs :
  is_comparable (objective_value a o) = false →
  (∃ b, b ∈ exps ∧ id b ≠ id a) →
  compute_pareto_front (a :: exps) (o :: objs) = Raise TypeError.
Proof.
  intros Hnum (b & Hb & Hne). unfold compute_pareto_front, outer_loop.
  rewrite inner_loop_raises; [done|done|].
  exists b. split; [by right|done].
Qed.

(** X8.  For numeric objectives the result of [compute_pareto_front] does not
    depend on the order of the records. *)
Theorem compute_pareto_front_permutation exps exps' objs :
  exps ≡ₚ exps' → numeric_on exps objs = true →
  compute_pareto_front exps objs = compute_pareto_front exps' objs.
Proof.
  intros Hperm Hn.
  assert (numeric_on exps' objs = true) as Hn'.
  { eapply numeric_on_subseteq; [|exact Hn]. intros e He. by rewrite Hperm. }
  destruct (compute_pareto_front_comparable exps objs
              (numeric_on_comparable _ _ Hn)) as (S & -> & HS).
  destruct (compute_pareto_front_comparable exps' objs
              (numeric_on_comparable _ _ Hn')) as (S' & -> & HS').
  f_equal. apply set_eq. intros i. rewrite HS, HS'.
  split; intros (a & Ha & Hid & Hno); exists a.
  - split; [by rewrite <- Hperm|]. split; [done|].
    intros (b & Hb & ?). apply Hno. exists b. by rewrite Hperm.
  - split; [by rewrite Hperm|]. split; [done|].
    intros (b & Hb & ?). apply Hno. exists b. by rewrite <- Hperm.
Qed.

(** X9.  For numeric objectives, a record on the front of a list is on the
    front of every part of the list that contains it: removing records
    never takes a remaining record off the front. *)
Theorem compute_pareto_front_sublist exps exps' objs S S' a :
  numeric_on exps objs = true → exps' ⊆ exps →
  NoDup (map id exps) →
  compute_pareto_front exps objs = Ok S →
  compute_pareto_front exps' objs = Ok S' →
  a ∈ exps' → id a ∈ S → id a ∈ S'.
Proof.
  intros Hn Hsub Hnd HS HS' Ha Hin.
  pose proof (numeric_on_subseteq exps exps' objs Hsub Hn) as Hn'.
  destruct (compute_pareto_front_comparable exps objs
              (numeric_on_comparable _ _ Hn)) as (S0 & HS0 & Hiff).
  destruct (compute_pareto_front_comparable exps' objs
              (numeric_on_comparable _ _ Hn')) as (S0' & HS0' & Hiff').
  rewrite HS in HS0. injection HS0 as <-.
  rewrite HS' in HS0'. injection HS0' as <-.
  apply Hiff in Hin as (a' & Ha' & Hid & Hno).
  assert (a' = a) as -> by (apply (NoDup_id_inj exps); auto).
  apply Hiff'. exists a. split; [done|]. split; [done|].
  intros (b & Hb & Hne & Hdom). apply Hno. exists b. split; [by apply Hsub|done].
Qed.

End ParetoEdges.

Section AnalysisStepMore.

Context `{py : Runtime}.

Import AnalysisAgent.

Variable format_float : nat → pyfloat → string.
Variable repr_str : string → string.

Implicit Types (exps : list ExperimentRecord).

Lemma analysis_step_members (wm : WorldModel) :
  ∃ ids trends,
    analysis_step format_float repr_str wm = Ok (ids, trends) ∧
    length trends = length (group_strata (experiments wm)) ∧
    ∀ i, i ∈ ids ↔
         ∃ s S, s ∈ group_strata (experiments wm) ∧
                compute_pareto_front s.2 ["psnr"; "coverage"] = Ok S ∧ i ∈ S.
Proof.
  unfold analysis_step, get_all_experiments.
  destruct (strata_loop_results format_float repr_str
              (group_strata (experiments wm)) ∅ []) as (results & Hres & ->).
  eexists _, _. split; [reflexivity|]. split.
  { simpl. rewrite length_zip_with, length_fmap. apply Forall2_length in Hres. lia. }
  intros i. rewrite union_empty_l_L, elem_of_union_list. split.
  - intros (S & HS & Hi). apply list_elem_of_fmap in HS as ([S' sm] & -> & Hr).
    destruct (proj1 (list_elem_of_lookup _ _) Hr) as [n Hn].
    destruct (Forall2_lookup_r _ _ _ _ _ Hres Hn) as (s & Hs & [Hcpf _]).
    exists s, S'. split; [by eapply list_elem_of_lookup_2|]. done.
  - intros (s & S & Hs & Hcpf & Hi).
    destruct (proj1 (list_elem_of_lookup _ _) Hs) as [n Hn].
    destruct (Forall2_lookup_l _ _ _ _ _ Hres Hn) as ([S' sm] & Hr & [Hcpf' _]).
    simpl in Hcpf'. rewrite Hcpf in Hcpf'. injection Hcpf' as ->.
    exists S'. split; [|done]. apply list_elem_of_fmap. exists (S', sm).
    split; [done|]. by eapply list_elem_of_lookup_2.
Qed.

Lemma stratum_of_record exps a :
  a ∈ exps →
  (stratum_key a,
   filter (λ e, (recon_family (config e), uq_scheme (config e)) = stratum_key a) exps)
  ∈ group_strata exps.
Proof.
  intros Ha. destruct (group_strata_partition exps) as (_ & Hall & Hcov & _).
  specialize (Hcov a Ha). apply list_elem_of_fmap in Hcov as ([k l] & Hk & Hkl).
  simpl in Hk. unfold stratum_key. rewrite Hk.
  destruct (proj1 (Forall_forall _ _) Hall _ Hkl) as [_ Hl]. simpl in Hl.
  by rewrite <- Hl.
Qed.

Lemma stratum_members exps s :
  s ∈ group_strata exps →
  s.2 = filter (λ e, (recon_family (config e), uq_scheme (config e)) = s.1) exps.
Proof.
  intros Hs. destruct (group_strata_partition exps) as (_ & Hall & _ & _).
  by destruct (proj1 (Forall_forall _ _) Hall _ Hs) as [_ Hl].
Qed.

Lemma comparable_on_default exps : comparable_on exps ["psnr"; "coverage"] = true.
Proof. apply numeric_on_comparable, numeric_on_default. Qed.

(** The result of [analysis_step] read off the loops, NaN included: the ids
    of the records that the code finds dominated by no record of their family
    and scheme that has another id. *)
Lemma analysis_step_code_members (wm : WorldModel) :
  ∃ ids trends,
    analysis_step format_float repr_str wm = Ok (ids, trends) ∧
    ∀ i, i ∈ ids ↔
         ∃ a, a ∈ experiments wm ∧ id a = i ∧
              ¬ ∃ b, b ∈ experiments wm ∧
                     recon_family (config b) = recon_family (config a) ∧
                     uq_scheme (config b) = uq_scheme (config a) ∧
                     id b ≠ id a ∧ dominatesb ["psnr"; "coverage"] b a = true.
Proof.
  destruct (analysis_step_members wm) as (ids & trends & Hstep & _ & Hiff).
  exists ids, trends. split; [done|]. intros i. rewrite Hiff. clear Hiff Hstep.
  split.
  - intros (s & S & Hs & HS & Hi).
    pose proof (stratum_members _ _ Hs) as Hl.
    destruct (compute_pareto_front_comparable s.2 ["psnr"; "coverage"]
                (comparable_on_default s.2)) as (S' & HS' & Hmem).
    rewrite HS in HS'. injection HS' as <-.
    apply Hmem in Hi as (a & Ha & Hid & Hno).
    rewrite Hl in Ha. apply list_elem_of_filter in Ha as [Hka Ha].
    exists a. split; [done|]. split; [done|].
    intros (b & Hb & Hf & Hu & Hne & Hdom). apply Hno. exists b. split; [|done].
    rewrite Hl. apply list_elem_of_filter. split; [|done].
    by rewrite Hf, Hu.
  - intros (a & Ha & Hid & Hno).
    pose proof (stratum_of_record _ _ Ha) as Hs.
    set (l := filter (λ e, (recon_family (config e), uq_scheme (config e))
                           = stratum_key a) (experiments wm)) in *.
    destruct (compute_pareto_front_comparable l ["psnr"; "coverage"]
                (comparable_on_default l)) as (S & HS & Hmem).
    exists (stratum_key a, l), S. split; [done|]. split; [done|].
    apply Hmem. exists a. split.
    + apply list_elem_of_filter. by split.
    + split; [done|]. intros (b & Hb & Hne & Hdom).
      apply list_elem_of_filter in Hb as [Hkb Hb]. apply Hno. exists b.
      unfold stratum_key in Hkb. injection Hkb as Hf Hu. done.
Qed.

Lemma analysis_step_exact_members (wm : WorldModel) :
  NoDup (map id (experiments wm)) →
  ordered_on (experiments wm) ["psnr"; "coverage"] = true →
  ∃ ids trends,
    analysis_step format_float repr_str wm = Ok (ids, trends) ∧
    ∀ i, i ∈ ids ↔
         ∃ a, a ∈ experiments wm ∧ id a = i ∧
              ¬ ∃ b, b ∈ experiments wm ∧
                     recon_family (config b) = recon_family (config a) ∧
                     uq_scheme (config b) = uq_scheme (config a) ∧
                     dominates ["psnr"; "coverage"] b a.
Proof.
  intros Hnd Ho.
  destruct (analysis_step_code_members wm) as (ids & trends & Hstep & Hiff).
  exists ids, trends. split; [done|]. intros i. rewrite Hiff. clear Hiff Hstep.
  rewrite ordered_on_forall in Ho.
  split; intros (a & Ha & Hid & Hno); exists a; (split; [done|]); (split; [done|]).
  - intros (b & Hb & Hf & Hu & Hdom). apply Hno. exists b.
    split; [done|]. split; [done|]. split; [done|]. split.
    + intros Heq. assert (b = a) as -> by (by apply (NoDup_id_inj (experiments wm))).
      by apply dominates_irrefl in Hdom.
    + apply dominatesb_spec; [intros ??; by apply Ho..|done].
  - intros (b & Hb & Hf & Hu & Hne & Hdom). apply Hno. exists b.
    split; [done|]. split; [done|]. split; [done|].
    apply dominatesb_spec in Hdom; [done|intros ??; by apply Ho..].
Qed.

(** X10.  On a world model whose records have pairwise distinct ids and a
    PSNR and a coverage that are not NaN, [analysis_step] returns exactly the
    ids of the records that no record of the same reconstruction family and
    the same UQ scheme dominates on PSNR and coverage. *)
Theorem analysis_step_exact (wm : WorldModel) :
  NoDup (map id (experiments wm)) →
  ordered_on (experiments wm) ["psnr"; "coverage"] = true →
  ∃ ids trends,
    analysis_step format_float repr_str wm = Ok (ids, trends) ∧
    ∀ i, i ∈ ids ↔
         ∃ a, a ∈ experiments wm ∧ id a = i ∧
              ¬ ∃ b, b ∈ experiments wm ∧
                     recon_family (config b) = recon_family (config a) ∧
                     uq_scheme (config b) = uq_scheme (config a) ∧
                     dominates ["psnr"; "coverage"] b a.
Proof. apply analysis_step_exact_members. Qed.

(** X11.  Stratifying only adds ids: with pairwise distinct ids, every id on
    the Pareto front of all the records together is in the set that
    [analysis_step] returns. *)
Theorem analysis_step_contains_global_front (wm : WorldModel) :
  NoDup (map id (experiments wm)) →
  ∃ S ids trends,
    compute_pareto_front (experiments wm) ["psnr"; "coverage"] = Ok S ∧
    analysis_step format_float repr_str wm = Ok (ids, trends) ∧
    S ⊆ ids.
Proof.
  intros Hnd.
  destruct (analysis_step_code_members wm) as (ids & trends & Hstep & Hiff).
  destruct (compute_pareto_front_comparable (experiments wm) ["psnr"; "coverage"]
              (comparable_on_default _)) as (S & HS & Hmem).
  exists S, ids, trends. split; [done|]. split; [done|].
  intros i Hi. apply Hmem in Hi as (a & Ha & Hid & Hno).
  apply Hiff. exists a. split; [done|]. split; [done|].
  intros (b & Hb & _ & _ & Hne & Hdom). apply Hno. by exists b.
Qed.

(** X12.  With pairwise distinct ids and a PSNR and a coverage that are not
    NaN, every stratum is represented in the result of [analysis_step]: for
    each record, the returned set holds the id of some record of the same
    reconstruction family and UQ scheme; in particular the set is not empty
    when the world model is not. *)
Theorem analysis_step_covers_strata (wm : WorldModel) :
  NoDup (map id (experiments wm)) →
  ordered_on (experiments wm) ["psnr"; "coverage"] = true →
  ∃ ids trends,
    analysis_step format_float repr_str wm = Ok (ids, trends) ∧
    ∀ a, a ∈ experiments wm →
         ∃ b, b ∈ experiments wm ∧
              recon_family (config b) = recon_family (config a) ∧
              uq_scheme (config b) = uq_scheme (config a) ∧
              id b ∈ ids.
Proof.
  intros Hnd Ho.
  destruct (analysis_step_exact_members wm Hnd Ho) as (ids & trends & Hstep & Hiff).
  exists ids, trends. split; [done|]. intros a Ha.
  set (l := filter (λ e, recon_family (config e) = recon_family (config a) ∧
                         uq_scheme (config e) = uq_scheme (config a))
              (experiments wm)).
  assert (a ∈ l) as Hal by (apply list_elem_of_filter; by split).
  destruct (exists_non_dominated ["psnr"; "coverage"] l) as (m & Hm & Hmax).
  { intros Hnil. rewrite Hnil in Hal. by apply elem_of_nil in Hal. }
  pose proof Hm as Hml. apply list_elem_of_filter in Hm as [[Hfm Hum] Hm].
  exists m. split; [done|]. split; [done|]. split; [done|].
  apply Hiff. exists m. split; [done|]. split; [done|].
  intros (b & Hb & Hf & Hu & Hdom). apply (Hmax b); [|done].
  apply list_elem_of_filter. split; [|done]. split; congruence.
Qed.

Lemma strata_append_keys (strata : list ((string * string) * list ExperimentRecord)) k e :
  (strata_append strata k e).*1 =
  if decide (k ∈ strata.*1) then strata.*1 else strata.*1 ++ [k].
Proof.
  induction strata as [|[k' l] strata IH]; [done|].
  cbn [strata_append]. destruct (decide (k' = k)) as [->|Hne].
  - rewrite !fmap_cons. cbn [fst]. rewrite decide_True by left. done.
  - rewrite !fmap_cons, IH. cbn [fst].
    destruct (decide (k ∈ strata.*1)) as [Hin|Hout].
    + rewrite decide_True by (by right). done.
    + rewrite decide_False; [done|]. intros Hin.
      apply elem_of_cons in Hin as [?|?]; [congruence|done].
Qed.

Lemma group_strata_keys_from
    (strata : list ((string * string) * list ExperimentRecord)) exps :
  (fold_left (λ s exp, strata_append s (stratum_key exp) exp) exps strata).*1 =
  fold_left (λ seen k, if decide (k ∈ seen) then seen else seen ++ [k])
    (map stratum_key exps) (strata.*1).
Proof.
  revert strata. induction exps as [|e exps IH]; intros strata; simpl; [done|].
  by rewrite IH, strata_append_keys.
Qed.

Lemma group_strata_keys exps :
  (group_strata exps).*1 = first_occurrences (map stratum_key exps).
Proof. apply (group_strata_keys_from [] exps). Qed.

(** X13.  [analysis_step] returns one trend string per distinct pair
    (recon_family, uq_scheme) of the world model, in the order in which the
    pairs first occur in the record sequence.  The trend of a pair is the pair
    in brackets, a space, and the summary that [summarize_trends] gives for
    the records of that family and scheme, their Pareto front and their
    calibration statistics.  An empty world model gives no trend. *)
Theorem analysis_step_trend_order (wm : WorldModel) :
  ∃ ids trends,
    analysis_step format_float repr_str wm = Ok (ids, trends) ∧
    Forall2
      (λ key trend,
         let stratum :=
           filter (λ e, (recon_family (config e), uq_scheme (config e)) = key)
             (experiments wm) in
         ∃ front summary,
           compute_pareto_front stratum ["psnr"; "coverage"] = Ok front ∧
           summarize_trends format_float stratum front
             (compute_calibration_stats stratum) = Ok summary ∧
           trend = "[" +:+ ("(" +:+ repr_str key.1 +:+ ", " +:+ repr_str key.2
                     +:+ ")") +:+ "] " +:+ summary)
      (first_occurrences
         (map (λ e, (recon_family (config e), uq_scheme (config e)))
            (experiments wm)))
      trends.
Proof.
  unfold analysis_step, get_all_experiments.
  destruct (strata_loop_results format_float repr_str
              (group_strata (experiments wm)) ∅ []) as (results & Hres & ->).
  eexists _, _. split; [reflexivity|].
  change (map (λ e, (recon_family (config e), uq_scheme (config e))) (experiments wm))
    with (map stratum_key (experiments wm)).
  rewrite <- group_strata_keys. simpl.
  assert (∀ strata rs,
            Forall (λ s, s ∈ group_strata (experiments wm)) strata →
            Forall2 (stratum_result format_float) strata rs →
            Forall2
              (λ key trend,
                 let stratum :=
                   filter (λ e, (recon_family (config e), uq_scheme (config e)) = key)
                     (experiments wm) in
                 ∃ front summary,
                   compute_pareto_front stratum ["psnr"; "coverage"] = Ok front ∧
                   summarize_trends format_float stratum front
                     (compute_calibration_stats stratum) = Ok summary ∧
                   trend = "[" +:+ ("(" +:+ repr_str key.1 +:+ ", " +:+ repr_str key.2
                     +:+ ")") +:+ "] " +:+ summary)
              (strata.*1)
              (zip_with (λ s summary, "[" +:+ repr_key repr_str s.1 +:+ "] "
                                       +:+ summary) strata (rs.*2))) as Hgen.
  { intros strata rs Hin Hrs.
    induction Hrs as [|s [S sm] strata rs [Hcpf Hsum] Hrs IH]; simpl.
    - constructor.
    - apply Forall_cons in Hin as [Hs Hin]. constructor; [|by apply IH].
      simpl. rewrite <- (stratum_members _ _ Hs). exists S, sm.
      done. }
  apply Hgen; [by apply Forall_forall|done].
Qed.

End AnalysisStepMore.

Section MaxAndMin.

Context {A : Type}.
Implicit Types (key : A → pyfloat) (l : list A).

Lemma max_by_elem key x l : max_by key x l ∈ x :: l.
Proof.
  revert x. induction l as [|y l IH]; intros x; simpl; [left|].
  destruct (float_lt (key x) (key y)).
  - right. apply IH.
  - destruct (proj1 (elem_of_cons _ _ _) (IH x)) as [->|Hin]; [left|by right; right].
Qed.

Lemma min_by_elem key x l : min_by key x l ∈ x :: l.
Proof.
  revert x. induction l as [|y l IH]; intros x; simpl; [left|].
  destruct (float_lt (key y) (key x)).
  - right. apply IH.
  - destruct (proj1 (elem_of_cons _ _ _) (IH x)) as [->|Hin]; [left|by right; right].
Qed.

(** Where no key is NaN, [max_by] returns the first element with the largest
    key. *)
Lemma max_by_first key x l :
  (∀ e, e ∈ x :: l → is_nan (key e) = false) →
  ∃ pre post, x :: l = pre ++ max_by key x l :: post ∧
    (∀ e, e ∈ pre → float_lt (key e) (key (max_by key x l)) = true) ∧
    (∀ e, e ∈ post → float_le (key e) (key (max_by key x l)) = true).
Proof.
  revert x. induction l as [|y l IH]; intros x Hnan; simpl.
  - exists [], []. split; [done|]. split; intros e He; by apply elem_of_nil in He.
  - assert (is_nan (key x) = false) as Hx by (apply Hnan; left).
    assert (is_nan (key y) = false) as Hy by (apply Hnan; right; left).
    destruct (float_lt (key x) (key y)) eqn:Hlt.
    + destruct (IH y) as (pre & post & Heq & Hpre & Hpost).
      { intros e He. apply Hnan. by right. }
      exists (x :: pre), post. split; [by rewrite Heq|]. split; [|done].
      intros e He. apply elem_of_cons in He as [->|He]; [|by apply Hpre].
      eapply float_lt_le_trans; [exact Hlt|].
      assert (y ∈ pre ++ max_by key y l :: post) as Hin by (rewrite <- Heq; left).
      apply elem_of_app in Hin as [Hin|Hin]; [by apply float_lt_le, Hpre|].
      apply elem_of_cons in Hin as [Hin|Hin]; [|by apply Hpost].
      rewrite <- Hin. by apply float_le_refl.
    + apply float_not_lt_le in Hlt; [|done..].
      destruct (IH x) as (pre & post & Heq & Hpre & Hpost).
      { intros e He. apply Hnan.
        apply elem_of_cons in He as [->|He]; [left|by right; right]. }
      destruct pre as [|x' pre]; simpl in Heq.
      * injection Heq as Hmx Hl. exists [], (y :: l). rewrite <- Hmx.
        split; [done|]. split; [intros e He; by apply elem_of_nil in He|].
        intros e He. apply elem_of_cons in He as [->|He]; [done|].
        rewrite Hmx. apply Hpost. by rewrite <- Hl.
      * injection Heq as <- Hl. exists (x :: y :: pre), post.
        split; [simpl; by rewrite <- Hl|]. split; [|done].
        intros e He. apply elem_of_cons in He as [->|He]; [apply Hpre; left|].
        apply elem_of_cons in He as [->|He]; [|apply Hpre; by right].
        eapply float_le_lt_trans; [exact Hlt|]. apply Hpre. left.
Qed.

Lemma max_by_upper key x l e :
  (∀ e, e ∈ x :: l → is_nan (key e) = false) →
  e ∈ x :: l → float_le (key e) (key (max_by key x l)) = true.
Proof.
  intros Hnan.
  destruct (max_by_first key x l Hnan) as (pre & post & Heq & Hpre & Hpost).
  rewrite Heq at 1. intros He. apply elem_of_app in He as [He|He].
  - by apply float_lt_le, Hpre.
  - apply elem_of_cons in He as [->|He]; [|by apply Hpost].
    apply float_le_refl, Hnan, max_by_elem.
Qed.

Lemma min_by_lower key x l e :
  (∀ e, e ∈ x :: l → is_nan (key e) = false) →
  e ∈ x :: l → float_le (key (min_by key x l)) (key e) = true.
Proof.
  revert x e. induction l as [|y l IH]; intros x e Hnan; simpl.
  - intros He. apply list_elem_of_singleton in He as ->.
    apply float_le_refl, Hnan. left.
  - assert (is_nan (key x) = false) as Hx by (apply Hnan; left).
    assert (is_nan (key y) = false) as Hy by (apply Hnan; right; left).
    assert (∀ e, e ∈ y :: l → is_nan (key e) = false) as Hnany
      by (intros e' He'; apply Hnan; by right).
    assert (∀ e, e ∈ x :: l → is_nan (key e) = false) as Hnanx.
    { intros e' He'. apply Hnan.
      apply elem_of_cons in He' as [->|He']; [left|by right; right]. }
    intros He. destruct (float_lt (key y) (key x)) eqn:Hlt.
    + apply elem_of_cons in He as [Hex|He]; [|by apply IH].
      subst e. eapply float_le_trans; [apply (IH y y Hnany); left|].
      by apply float_lt_le.
    + apply float_not_lt_le in Hlt; [|done..].
      apply elem_of_cons in He as [Hex|He]; [subst e; apply IH; [done|left]|].
      apply elem_of_cons in He as [Hey|He]; [|apply IH; [done|by right]].
      subst e. eapply float_le_trans; [apply (IH x x Hnanx); left|done].
Qed.

End MaxAndMin.

(** A NaN that comes first stays the maximum, and one that comes later is
    never taken, as for [max([nan, 1.0])] and [max([1.0, nan])]. *)
Example max_by_NaN :
  max_by (λ x : pyfloat, x) NaN [Finite 1%Qc] = NaN ∧
  max_by (λ x : pyfloat, x) (Finite 1%Qc) [NaN] = Finite 1%Qc ∧
  min_by (λ x : pyfloat, x) (Finite 1%Qc) [NaN] = Finite 1%Qc.
Proof. repeat split; reflexivity. Qed.

Section CalibrationAndTrends.

Context `{py : Runtime}.

Import AnalysisAgent.

Variable format_float : nat → pyfloat → string.

Implicit Types (exps : list ExperimentRecord).

Lemma omap_nil_iff {A B} (f : A → option B) (l : list A) :
  omap f l = [] ↔ ∀ x, x ∈ l → f x = None.
Proof.
  induction l as [|x l IH]; simpl.
  - split; [|done]. intros _ y Hy. by apply elem_of_nil in Hy.
  - destruct (f x) as [b|] eqn:Hfx.
    + split; [done|]. intros Hall. specialize (Hall x). rewrite Hfx in Hall.
      discriminate Hall. left.
    + rewrite IH. split.
      * intros Hall y Hy. apply elem_of_cons in Hy as [->|Hy]; [done|by apply Hall].
      * intros Hall y Hy. apply Hall. by right.
Qed.

(** X14.  [compute_calibration_stats] returns the two-key mapping
    [{"mean_error": 0, "max_error": 0}], without a [min_error] key, exactly
    when no record has a calibration error, an empty list of records
    included. *)
Theorem compute_calibration_stats_without_errors exps :
  (∀ e, e ∈ exps → calibration_error (metrics e) = None) ↔
  compute_calibration_stats exps
  = <["max_error" := Finite 0%Qc]> (<["mean_error" := Finite 0%Qc]> ∅).
Proof.
  rewrite <- (omap_nil_iff (λ e, calibration_error (metrics e))).
  unfold compute_calibration_stats.
  destruct (omap _ exps) as [|c rest]; [done|]. split; [done|].
  intros Heq. apply (f_equal (λ m : gmap string pyfloat, m !! "min_error")) in Heq.
  rewrite lookup_insert_eq in Heq. rewrite !lookup_insert_ne in Heq by done.
  by rewrite lookup_empty in Heq.
Qed.

(** X15.  As soon as one record has a calibration error,
    [compute_calibration_stats] has the three keys, and [mean_error] is the
    quotient of Python's sum of the calibration errors by their number.  When
    no calibration error is NaN, [min_error] and [max_error] are calibration
    errors of records and bound the calibration error of every record. *)
Theorem compute_calibration_stats_bounds exps e q :
  e ∈ exps → calibration_error (metrics e) = Some q →
  (∀ e' x, e' ∈ exps → calibration_error (metrics e') = Some x →
           is_nan x = false) →
  ∃ lo hi,
    compute_calibration_stats exps !! "min_error" = Some lo ∧
    compute_calibration_stats exps !! "max_error" = Some hi ∧
    compute_calibration_stats exps !! "mean_error"
    = Some (float_div
              (float_sum (omap (λ e', calibration_error (metrics e')) exps))
              (length (omap (λ e', calibration_error (metrics e')) exps))) ∧
    float_le lo q = true ∧ float_le q hi = true ∧
    (∃ e1, e1 ∈ exps ∧ calibration_error (metrics e1) = Some lo) ∧
    (∃ e2, e2 ∈ exps ∧ calibration_error (metrics e2) = Some hi).
Proof.
  intros He Hq Hnan. unfold compute_calibration_stats.
  assert (q ∈ omap (λ e, calibration_error (metrics e)) exps) as Hin
    by (apply list_elem_of_omap; eauto).
  assert (∀ x, x ∈ omap (λ e, calibration_error (metrics e)) exps →
               ∃ e', e' ∈ exps ∧ calibration_error (metrics e') = Some x) as Hback
    by (intros x Hx; by apply list_elem_of_omap in Hx).
  destruct (omap _ exps) as [|c rest]; [by apply elem_of_nil in Hin|].
  assert (∀ x, x ∈ c :: rest → is_nan x = false) as Hnan'.
  { intros x Hx. destruct (Hback x Hx) as (e' & He' & Hx'). by eapply Hnan. }
  eexists _, _.
  split; [apply lookup_insert_eq|].
  split; [by rewrite lookup_insert_ne, lookup_insert_eq by done|].
  split; [by rewrite !lookup_insert_ne, lookup_insert_eq by done|].
  split; [by apply (min_by_lower (λ x : pyfloat, x))|].
  split; [by apply (max_by_upper (λ x : pyfloat, x))|].
  split; [apply Hback, min_by_elem|apply Hback, max_by_elem].
Qed.

(** X16.  [summarize_trends] returns the sentinel "No significant trends
    found." exactly when no record of the group has its id in the Pareto set,
    whatever the calibration statistics are; otherwise it reads
    [calib_stats["mean_error"]] and raises [KeyError] when that key is
    missing. *)
Theorem summarize_trends_sentinel exps (ids : gset string)
    (calib_stats : gmap string pyfloat) :
  (summarize_trends format_float exps ids calib_stats
   = Ok "No significant trends found."
   ↔ ∀ e, e ∈ exps → id e ∉ ids) ∧
  ((∃ e, e ∈ exps ∧ id e ∈ ids) → calib_stats !! "mean_error" = None →
   summarize_trends format_float exps ids calib_stats
   = Raise (KeyError "mean_error")) ∧
  ((∃ e, e ∈ exps ∧ id e ∈ ids) → is_Some (calib_stats !! "mean_error") →
   is_ok (summarize_trends format_float exps ids calib_stats)).
Proof.
  assert (filter (λ e, id e ∈ ids) exps = [] ↔ ∀ e, e ∈ exps → id e ∉ ids) as Hnil.
  { split.
    - intros Hf e He Hin.
      assert (e ∈ filter (λ e, id e ∈ ids) exps) as Hfe
        by (by apply list_elem_of_filter).
      rewrite Hf in Hfe. by apply elem_of_nil in Hfe.
    - intros Hall. apply filter_none. intros e He. by apply Hall. }
  unfold summarize_trends, dict_getitem.
  destruct (filter (λ e, id e ∈ ids) exps) as [|e0 rest] eqn:Hf.
  - split; [by rewrite <- Hnil|]. split.
    + intros (e & He & Hin). exfalso. by apply (proj1 Hnil eq_refl e).
    + intros (e & He & Hin). exfalso. by apply (proj1 Hnil eq_refl e).
  - split; [|split].
    + rewrite <- Hnil. split; [|done].
      destruct (calib_stats !! "mean_error") as [m|]; [|done]. simpl.
      destruct m; try case_bool_decide; intros Heq; injection Heq as Heq;
        discriminate Heq.
    + intros _ ->. done.
    + intros _ [m ->]. simpl. destruct m; try case_bool_decide; done.
Qed.

End CalibrationAndTrends.

Section Counting.

Context `{py : Runtime}.

Lemma first_occurrences_from (seen keys : list string) :
  NoDup seen →
  let result :=
    fold_left (λ seen k, if decide (k ∈ seen) then seen else seen ++ [k]) keys seen in
  NoDup result ∧ ∀ k, k ∈ result ↔ k ∈ seen ∨ k ∈ keys.
Proof.
  revert seen. induction keys as [|k keys IH]; intros seen Hnd; simpl.
  - split; [done|]. intros k. split; [by left|]. intros [?|Hk]; [done|].
    by apply elem_of_nil in Hk.
  - destruct (decide (k ∈ seen)) as [Hin|Hout].
    + destruct (IH seen Hnd) as [Hnd' Hiff]. split; [done|].
      intros k'. rewrite Hiff, elem_of_cons. split; [tauto|].
      intros [?|[->|?]]; tauto.
    + destruct (IH (seen ++ [k])) as [Hnd' Hiff].
      { apply NoDup_app. split; [done|]. split; [|apply NoDup_singleton].
        intros x Hx Hx'. by apply list_elem_of_singleton in Hx' as ->. }
      split; [done|]. intros k'.
      rewrite Hiff, elem_of_app, list_elem_of_singleton, elem_of_cons. tauto.
Qed.

Lemma first_occurrences_elem (keys : list string) k :
  k ∈ first_occurrences keys ↔ k ∈ keys.
Proof.
  destruct (first_occurrences_from [] keys (NoDup_nil_2 (A:=string))) as [_ Hiff].
  unfold first_occurrences. rewrite Hiff. split; [|by right].
  intros [Hk|?]; [by apply elem_of_nil in Hk|done].
Qed.

Lemma occurrences_app tag tags t :
  occurrences tag (tags ++ [t]) =
  (occurrences tag tags + (if decide (t = tag) then 1 else 0))%nat.
Proof.
  unfold occurrences. rewrite filter_app, length_app, filter_cons, filter_nil.
  by destruct (decide (t = tag)).
Qed.

Lemma occurrences_absent tag tags : tag ∉ tags → occurrences tag tags = 0%nat.
Proof.
  intros Hout. unfold occurrences. rewrite filter_none; [done|].
  intros t Ht ->. done.
Qed.

Lemma count_increment_new counts k :
  k ∉ counts.*1 → count_increment counts k = counts ++ [(k, 1)].
Proof.
  induction counts as [|[k' n] counts IH]; simpl; intros Hk; [done|].
  apply not_elem_of_cons in Hk as [Hne Hk].
  rewrite decide_False by congruence. by rewrite IH.
Qed.

Lemma count_increment_old counts k :
  NoDup (counts.*1) → k ∈ counts.*1 →
  count_increment counts k =
    map (λ kn, if decide (kn.1 = k) then (kn.1, kn.2 + 1) else kn) counts.
Proof.
  induction counts as [|[k' n] counts IH]; simpl; intros Hnd Hk.
  - by apply elem_of_nil in Hk.
  - apply NoDup_cons in Hnd as [Hnotin Hnd].
    destruct (decide (k' = k)) as [->|Hne].
    + f_equal. clear IH Hk Hnd.
      induction counts as [|[k'' n''] counts IH]; simpl; [done|].
      simpl in Hnotin. apply not_elem_of_cons in Hnotin as [Hne Hnotin].
      rewrite decide_False by congruence. f_equal. by apply IH.
    + f_equal. apply IH; [done|]. by apply elem_of_cons in Hk as [?|?]; [congruence|].
Qed.

Lemma count_increment_fold (tags processed seen : list string) :
  NoDup seen → (∀ t, t ∈ processed → t ∈ seen) →
  fold_left count_increment tags
    (map (λ tag, (tag, Z.of_nat (occurrences tag processed))) seen) =
  map (λ tag, (tag, Z.of_nat (occurrences tag (processed ++ tags))))
    (fold_left (λ seen k, if decide (k ∈ seen) then seen else seen ++ [k]) tags seen).
Proof.
  revert processed seen. induction tags as [|t tags IH]; intros processed seen Hnd Hcov.
  - simpl. by rewrite app_nil_r.
  - cbn [fold_left]. replace (processed ++ t :: tags) with ((processed ++ [t]) ++ tags)
      by (by rewrite <- app_assoc).
    assert ((map (λ tag, (tag, Z.of_nat (occurrences tag processed))) seen).*1 = seen)
      as Hkeys.
    { clear. induction seen as [|s seen IH]; [done|].
      rewrite map_cons, fmap_cons, IH. done. }
    destruct (decide (t ∈ seen)) as [Hin|Hout].
    + rewrite count_increment_old by (by rewrite Hkeys).
      rewrite map_map. rewrite <- IH; [|done|].
      * f_equal. apply map_ext. intros tag. cbn [fst snd].
        rewrite occurrences_app.
        destruct (decide (tag = t)) as [->|Hne].
        -- rewrite decide_True by done. f_equal. lia.
        -- rewrite decide_False by congruence. f_equal. lia.
      * intros x Hx. apply elem_of_app in Hx as [Hx|Hx]; [by apply Hcov|].
        by apply list_elem_of_singleton in Hx as ->.
    + rewrite count_increment_new by (by rewrite Hkeys).
      rewrite <- IH.
      * f_equal. rewrite map_app. cbn [map]. f_equal.
        -- apply map_ext_in. intros tag Htag. rewrite occurrences_app.
           rewrite decide_False; [f_equal; f_equal; lia|].
           intros ->. apply Hout. by apply list_elem_of_In.
        -- rewrite occurrences_app, occurrences_absent, decide_True by auto. done.
      * apply NoDup_app. split; [done|]. split; [|apply NoDup_singleton].
        intros x Hx Hx'. by apply list_elem_of_singleton in Hx' as ->.
      * intros x Hx. apply elem_of_app. apply elem_of_app in Hx as [Hx|Hx].
        -- left. by apply Hcov.
        -- by right.
Qed.

Lemma count_increment_counts (tags : list string) :
  fold_left count_increment tags [] = tag_counts tags.
Proof.
  apply (count_increment_fold tags [] []); [apply NoDup_nil_2|].
  intros t Ht. by apply elem_of_nil in Ht.
Qed.

End Counting.

Section PlannerSummary.

Context `{py : Runtime}.

Implicit Types (wm : WorldModel).

Lemma summarize_world_model_unfold wm e0 rest :
  experiments wm = e0 :: rest →
  Planner.summarize_world_model wm =
    (<["constraints" := PDict [("max_latency", PInt 100);
                               ("min_coverage", PFloat (Finite (Q2Qc (8 # 10))))]]>
      (<["frontiers" := PList []]>
         (<["uq_schemes" :=
              counts_to_pyval (tag_counts (map (λ e, uq_scheme (config e)) (e0 :: rest)))]>
            (<["recon_families" :=
                 counts_to_pyval
                   (tag_counts (map (λ e, recon_family (config e)) (e0 :: rest)))]>
               (<["avg_psnr" :=
                    PFloat (float_div
                              (float_sum (map (λ e, psnr (metrics e)) (e0 :: rest)))
                              (length (e0 :: rest)))]>
                  (<["best_config" :=
                       PStr (recon_family
                               (config (max_by (λ e, psnr (metrics e)) e0 rest)))]>
                     (<["best_psnr" :=
                          PFloat (psnr (metrics (max_by (λ e, psnr (metrics e)) e0 rest)))]>
                        (<["total_experiments" :=
                             PInt (Z.of_nat (length (e0 :: rest)))]> ∅)))))))).
Proof.
  intros Hwm. unfold Planner.summarize_world_model, get_all_experiments.
  rewrite Hwm. rewrite <- !count_increment_counts.
  assert (∀ (f : ExperimentRecord → string) l acc,
            fold_left (λ c exp, count_increment c (f exp)) l acc
            = fold_left count_increment (map f l) acc) as Hfold.
  { intros f l. induction l as [|x l IH]; intros acc; simpl; [done|]. apply IH. }
  by rewrite !Hfold.
Qed.

(** X17.  On a non-empty world model the summary reports the number of
    records, and [avg_psnr] is the quotient of Python's sum of the PSNRs by
    their number.  When no PSNR is NaN, the best record is the first one with
    the largest PSNR: every earlier record has a smaller PSNR (at most that
    of the best, and not the other way round) and no later one a larger;
    [best_psnr] is its PSNR and [best_config] its family. *)
Theorem summarize_world_model_best wm :
  experiments wm ≠ [] →
  (∀ e, e ∈ experiments wm → is_nan (psnr (metrics e)) = false) →
  ∃ pre best post,
    experiments wm = pre ++ best :: post ∧
    (∀ e, e ∈ pre → float_le (psnr (metrics e)) (psnr (metrics best)) = true ∧
                    float_le (psnr (metrics best)) (psnr (metrics e)) = false) ∧
    (∀ e, e ∈ post → float_le (psnr (metrics e)) (psnr (metrics best)) = true) ∧
    Planner.summarize_world_model wm !! "total_experiments"
    = Some (PInt (Z.of_nat (length (experiments wm)))) ∧
    Planner.summarize_world_model wm !! "best_psnr"
    = Some (PFloat (psnr (metrics best))) ∧
    Planner.summarize_world_model wm !! "best_config"
    = Some (PStr (recon_family (config best))) ∧
    Planner.summarize_world_model wm !! "avg_psnr"
    = Some (PFloat (float_div
                      (float_sum (map (λ e, psnr (metrics e)) (experiments wm)))
                      (length (experiments wm)))).
Proof.
  intros Hne Hnan. destruct (experiments wm) as [|e0 rest] eqn:Hwm; [done|].
  destruct (max_by_first (λ e, psnr (metrics e)) e0 rest Hnan)
    as (pre & post & Heq & Hpre & Hpost).
  exists pre, (max_by (λ e, psnr (metrics e)) e0 rest), post.
  split; [done|]. split.
  { intros e He. specialize (Hpre e He). rewrite float_lt_spec in Hpre.
    apply andb_true_iff in Hpre as [Hle Hnle]. by apply negb_true_iff in Hnle. }
  split; [done|].
  rewrite !(summarize_world_model_unfold wm e0 rest Hwm).
  split; [by rewrite !lookup_insert_ne, lookup_insert_eq by done|].
  split; [by rewrite !lookup_insert_ne, lookup_insert_eq by done|].
  split; [by rewrite !lookup_insert_ne, lookup_insert_eq by done|].
  by rewrite !lookup_insert_ne, lookup_insert_eq by done.
Qed.

(** X18.  The two count mappings of the summary list every family (every UQ
    scheme) of the world model once, in the order of first occurrence, with
    the number of records that have it. *)
Theorem summarize_world_model_counts wm :
  experiments wm ≠ [] →
  Planner.summarize_world_model wm !! "recon_families"
  = Some (counts_to_pyval
            (tag_counts (map (λ e, recon_family (config e)) (experiments wm)))) ∧
  Planner.summarize_world_model wm !! "uq_schemes"
  = Some (counts_to_pyval
            (tag_counts (map (λ e, uq_scheme (config e)) (experiments wm)))).
Proof.
  intros Hne. destruct (experiments wm) as [|e0 rest] eqn:Hwm; [done|].
  rewrite !(summarize_world_model_unfold wm e0 rest Hwm).
  split.
  - by rewrite !lookup_insert_ne, lookup_insert_eq by done.
  - by rewrite !lookup_insert_ne, lookup_insert_eq by done.
Qed.

Lemma tag_counts_keys (tags : list string) :
  (map (λ kn : string * Z, (kn.1, PInt kn.2)) (tag_counts tags)).*1
  = first_occurrences tags.
Proof.
  unfold tag_counts. induction (first_occurrences tags) as [|t l IH]; [done|].
  simpl. f_equal. exact IH.
Qed.

Lemma filter_untested (tags vocabulary : list string) :
  filter (λ t, t ∉ first_occurrences tags) vocabulary
  = filter (λ t, t ∉ tags) vocabulary.
Proof.
  induction vocabulary as [|v vocabulary IH]; [done|].
  rewrite !filter_cons, IH.
  destruct (decide (v ∉ first_occurrences tags)) as [H1|H1],
           (decide (v ∉ tags)) as [H2|H2]; try done.
  - exfalso. apply H2. intros Hin. apply H1. by apply first_occurrences_elem.
  - exfalso. apply H1. intros Hin. apply H2.
    exact (proj1 (first_occurrences_elem tags v) Hin).
Qed.

(** X19.  On the summary of a world model, empty or not,
    [identify_underexplored_regions] returns one tag for every family of its
    fixed vocabulary that no record has, then one for every UQ scheme of its
    vocabulary that no record has, and the single tag "explore_variations"
    when nothing is missing; the list is never empty. *)
Theorem identify_underexplored_regions_of_summary wm :
  Planner.identify_underexplored_regions (Planner.summarize_world_model wm)
  = Ok (expected_gaps (map (λ e, recon_family (config e)) (experiments wm))
          (map (λ e, uq_scheme (config e)) (experiments wm))) ∧
  expected_gaps (map (λ e, recon_family (config e)) (experiments wm))
    (map (λ e, uq_scheme (config e)) (experiments wm)) ≠ [].
Proof.
  split.
  - unfold Planner.identify_underexplored_regions, expected_gaps.
    destruct (experiments wm) as [|e0 rest] eqn:Hwm.
    + unfold Planner.summarize_world_model, get_all_experiments. rewrite Hwm.
      rewrite !lookup_insert_ne, !lookup_empty by done. reflexivity.
    + rewrite !(summarize_world_model_unfold wm e0 rest Hwm).
      rewrite (lookup_insert_ne _ "constraints" "recon_families") by done.
      rewrite (lookup_insert_ne _ "frontiers" "recon_families") by done.
      rewrite (lookup_insert_ne _ "uq_schemes" "recon_families") by done.
      rewrite (lookup_insert_eq _ "recon_families").
      rewrite (lookup_insert_ne _ "constraints" "uq_schemes") by done.
      rewrite (lookup_insert_ne _ "frontiers" "uq_schemes") by done.
      rewrite (lookup_insert_eq _ "uq_schemes").
      unfold default.
      cbn [from_option Datatypes.id counts_to_pyval py_keys mbind result_bind].
      by rewrite !tag_counts_keys, !filter_untested.
  - unfold expected_gaps. by destruct (_ ++ _).
Qed.

End PlannerSummary.

Section PlannerStep.

Context `{py : Runtime}.

Variable repr_val : pyval → string.

Implicit Types (wm : WorldModel) (design_space : gmap string (list string)).

Lemma project_to_design_space_cases (proposal : Proposal) design_space :
  match design_space !! "recon_families" with
  | None =>
      Planner.project_to_design_space proposal design_space
      = Raise (KeyError "recon_families")
  | Some [] =>
      Planner.project_to_design_space proposal design_space = Raise IndexError
  | Some families =>
      ∃ c, Planner.project_to_design_space proposal design_space = Ok c ∧
           recon_family c ∈ families
  end.
Proof.
  unfold Planner.project_to_design_space, dict_getitem.
  destruct (design_space !! "recon_families") as [[|first others]|] eqn:Hds;
    cbn [default from_option Datatypes.id].
  - rewrite bool_decide_eq_true_2 by apply not_elem_of_nil. done.
  - case_bool_decide as Hin; simpl; eexists; (split; [reflexivity|]); simpl.
    + left.
    + exact Hin.
  - rewrite bool_decide_eq_true_2 by apply not_elem_of_nil. done.
Qed.

(** X20.  [project_to_design_space] succeeds exactly when the design space
    declares at least one family, and the family of the configuration it
    returns is then a declared one.  Without the key "recon_families" it
    raises [KeyError] and with an empty list [IndexError], for every
    proposal. *)
Theorem project_to_design_space_outcome (proposal : Proposal) design_space :
  match design_space !! "recon_families" with
  | None =>
      Planner.project_to_design_space proposal design_space
      = Raise (KeyError "recon_families")
  | Some [] =>
      Planner.project_to_design_space proposal design_space = Raise IndexError
  | Some families =>
      ∃ c, Planner.project_to_design_space proposal design_space = Ok c ∧
           recon_family c ∈ families
  end.
Proof. apply project_to_design_space_cases. Qed.

Lemma project_loop_constraints proposals design_space cs cs' acc :
  Planner.project_loop proposals design_space cs acc
  = Planner.project_loop proposals design_space cs' acc.
Proof.
  revert acc. induction proposals as [|p proposals IH]; intros acc; simpl; [done|].
  destruct (Planner.project_to_design_space p design_space); simpl; [|done].
  apply IH.
Qed.

Lemma project_loop_declared proposals design_space cs first others acc :
  design_space !! "recon_families" = Some (first :: others) →
  Forall (λ c, recon_family c ∈ first :: others) acc →
  ∃ l, Planner.project_loop proposals design_space cs acc = Ok l ∧
       length l = (length acc + length proposals)%nat ∧
       Forall (λ c, recon_family c ∈ first :: others) l.
Proof.
  intros Hds. revert acc. induction proposals as [|p proposals IH]; intros acc Hacc; simpl.
  - exists acc. split; [done|]. split; [lia|done].
  - pose proof (project_to_design_space_cases p design_space) as Hp.
    rewrite Hds in Hp. destruct Hp as (c & -> & Hc). simpl.
    destruct (IH (acc ++ [c])) as (l & -> & Hlen & Hl).
    { apply Forall_app. split; [done|]. by apply Forall_singleton. }
    exists l. split; [done|]. split; [|done]. rewrite length_app in Hlen. simpl in Hlen. lia.
Qed.

Lemma project_loop_undeclared p proposals design_space cs acc :
  design_space !! "recon_families" = None →
  Planner.project_loop (p :: proposals) design_space cs acc
  = Raise (KeyError "recon_families").
Proof.
  intros Hds. simpl.
  pose proof (project_to_design_space_cases p design_space) as Hp.
  rewrite Hds in Hp. by rewrite Hp.
Qed.

Lemma project_loop_no_family p proposals design_space cs acc :
  design_space !! "recon_families" = Some [] →
  Planner.project_loop (p :: proposals) design_space cs acc = Raise IndexError.
Proof.
  intros Hds. simpl.
  pose proof (project_to_design_space_cases p design_space) as Hp.
  rewrite Hds in Hp. by rewrite Hp.
Qed.

Lemma identify_of_summary wm :
  is_ok (Planner.identify_underexplored_regions (Planner.summarize_world_model wm)).
Proof.
  unfold Planner.identify_underexplored_regions.
  destruct (experiments wm) as [|e0 rest] eqn:Hwm.
  - unfold Planner.summarize_world_model, get_all_experiments. rewrite Hwm.
    rewrite !lookup_insert_ne, !lookup_empty by done. exact I.
  - rewrite !(summarize_world_model_unfold wm e0 rest Hwm).
    rewrite (lookup_insert_ne _ "constraints" "recon_families") by done.
    rewrite (lookup_insert_ne _ "frontiers" "recon_families") by done.
    rewrite (lookup_insert_ne _ "uq_schemes" "recon_families") by done.
    rewrite (lookup_insert_eq _ "recon_families").
    rewrite (lookup_insert_ne _ "constraints" "uq_schemes") by done.
    rewrite (lookup_insert_ne _ "frontiers" "uq_schemes") by done.
    rewrite (lookup_insert_eq _ "uq_schemes").
    exact I.
Qed.

Lemma frontiers_of_summary wm :
  Planner.summarize_world_model wm !! "frontiers" = Some (PList []).
Proof.
  unfold Planner.summarize_world_model, get_all_experiments.
  destruct (experiments wm); by rewrite !lookup_insert_ne, lookup_insert_eq by done.
Qed.

(** On the summary of a world model the planner gets past the gaps and the
    prompt; what it returns is decided by the projection of the three fixed
    proposals and by the budget. *)
Lemma planner_step_of_summary wm design_space b :
  Planner.planner_step repr_val (Planner.summarize_world_model wm) design_space b =
    new_configs ← Planner.project_loop (Planner.llm_generate_configs "")
                    design_space PNone [];
    Ok (if bool_decide (b < Z.of_nat (length new_configs))
        then py_slice_to new_configs b else new_configs).
Proof.
  unfold Planner.planner_step.
  pose proof (identify_of_summary wm) as Hgaps.
  destruct (Planner.identify_underexplored_regions _) as [gaps|e]; [|done].
  cbn [mbind result_bind]. rewrite frontiers_of_summary.
  unfold Planner.build_planner_prompt.
  cbn [default from_option Datatypes.id py_len mbind result_bind].
  match goal with
  | |- context [Planner.project_loop ?ps design_space ?cs []] =>
      rewrite (project_loop_constraints ps design_space cs PNone [])
  end.
  reflexivity.
Qed.

Lemma project_loop_projections proposals design_space cs acc l :
  Planner.project_loop proposals design_space cs acc = Ok l →
  ∃ new, l = acc ++ new ∧
    Forall2 (λ p c, Planner.project_to_design_space p design_space = Ok c)
      proposals new.
Proof.
  revert acc. induction proposals as [|p proposals IH]; intros acc; simpl.
  - intros [= <-]. exists []. split; [by rewrite app_nil_r|constructor].
  - destruct (Planner.project_to_design_space p design_space) as [c|e] eqn:Hp;
      simpl; [|done].
    intros Hl. destruct (IH _ Hl) as (new & -> & Hnew).
    exists (c :: new). split; [by rewrite <- app_assoc|by constructor].
Qed.

(** X21.  What [planner_step] returns on the summary of a world model: with
    a declared family, the three fixed proposals projected to the design
    space, cut to the budget, every one with a declared family.  The cut is
    Python's slice, so that a budget of 0 gives no configuration and a
    negative budget [-1] or [-2] still gives two or one.  Without the key
    "recon_families" the step raises [KeyError], with an empty list of
    families [IndexError]. *)
Theorem planner_step_outcome wm design_space b :
  match design_space !! "recon_families" with
  | None =>
      Planner.planner_step repr_val (Planner.summarize_world_model wm) design_space b
      = Raise (KeyError "recon_families")
  | Some [] =>
      Planner.planner_step repr_val (Planner.summarize_world_model wm) design_space b
      = Raise IndexError
  | Some families =>
      ∃ projected,
        Forall2 (λ p c, Planner.project_to_design_space p design_space = Ok c)
          (Planner.llm_generate_configs "") projected ∧
        Planner.planner_step repr_val (Planner.summarize_world_model wm)
          design_space b = Ok (take (proposals_kept b) projected) ∧
        length (take (proposals_kept b) projected) = proposals_kept b ∧
        Forall (λ c, recon_family c ∈ families) projected
  end.
Proof.
  rewrite planner_step_of_summary.
  destruct (design_space !! "recon_families") as [[|first others]|] eqn:Hds.
  - unfold Planner.llm_generate_configs. by rewrite project_loop_no_family.
  - destruct (project_loop_declared (Planner.llm_generate_configs "") design_space
                PNone first others [] Hds (Forall_nil_2 _)) as (l & Hl & Hlen & Hfam).
    exists l. split; [|split; [|split]]; [| | |done].
    + by destruct (project_loop_projections _ _ _ _ _ Hl) as (new & -> & Hnew).
    + rewrite Hl. cbn [mbind result_bind]. f_equal.
      simpl in Hlen. case_bool_decide as Hcut.
      * unfold py_slice_to, proposals_kept. case_bool_decide.
        -- f_equal. lia.
        -- f_equal. lia.
      * unfold proposals_kept. rewrite bool_decide_eq_true_2 by lia.
        rewrite take_ge; [done|]. lia.
    + simpl in Hlen. rewrite length_take, Hlen. unfold proposals_kept.
      case_bool_decide; lia.
  - unfold Planner.llm_generate_configs. by rewrite project_loop_undeclared.
Qed.

(** X22.  [planner_step] does not depend on the world model: on the
    summaries of any two world models, with the same design space and the
    same budget, it returns the same configurations or raises the same
    exception. *)
Theorem planner_step_ignores_world_model wm wm' design_space b :
  Planner.planner_step repr_val (Planner.summarize_world_model wm) design_space b
  = Planner.planner_step repr_val (Planner.summarize_world_model wm') design_space b.
Proof. by rewrite !planner_step_of_summary. Qed.

End PlannerStep.

Section SimulatedExecutor.

Context `{py : Runtime}.

Variable uniform : nat → Qc → Qc → Qc.
Variable uuid4 : nat → string.

(** [random.uniform(a, b)] returns a number between [a] and [b]. *)
Hypothesis uniform_in_range :
  ∀ n a b, (a ≤ b)%Qc → (a ≤ uniform n a b ∧ uniform n a b ≤ b)%Qc.

(** X23.  The simulated executor never raises.  Its metrics are finite and
    lie in fixed ranges: PSNR within [-2, +3] of the base value, 28 for the
    family "CIAS-Core-ELP" and 26 otherwise, coverage in [0.85, 0.95], latency
    in [10, 50]; the calibration error is absent exactly when the UQ scheme is
    "None" and lies in [0.01, 0.1] otherwise.  A campaign draws three random
    numbers, four with a UQ scheme, and two identifiers. *)
Theorem run_campaign_simulated (en : Entropy) (c : Configuration) :
  ∃ en' m art p cv lat,
    Executor.run_campaign uniform uuid4 en c = (en', Ok (m, art)) ∧
    psnr m = Finite p ∧ coverage m = Finite cv ∧ latency m = Finite lat ∧
    (let base := if decide (recon_family c = "CIAS-Core-ELP")
                 then Q2Qc (28 # 1) else Q2Qc (26 # 1) in
     (base + Q2Qc (-2 # 1) ≤ p ∧ p ≤ base + Q2Qc (3 # 1))%Qc) ∧
    (Q2Qc (85 # 100) ≤ cv ∧ cv ≤ Q2Qc (95 # 100))%Qc ∧
    (Q2Qc (10 # 1) ≤ lat ∧ lat ≤ Q2Qc (50 # 1))%Qc ∧
    (calibration_error m = None ↔ uq_scheme c = "None") ∧
    (∀ x, calibration_error m = Some x →
          ∃ q, x = Finite q ∧ (Q2Qc (1 # 100) ≤ q ∧ q ≤ Q2Qc (1 # 10))%Qc) ∧
    rand_draws en' = (rand_draws en +
                      if decide (uq_scheme c = "None") then 3 else 4)%nat ∧
    uuid_draws en' = (uuid_draws en + 2)%nat ∧
    length (eval_samples art) = 3%nat ∧ length (fig_scripts art) = 2%nat.
Proof.
  unfold Executor.run_campaign. eexists _, _, _, _, _, _. split; [reflexivity|].
  cbn [psnr coverage latency calibration_error rand_draws uuid_draws
       eval_samples fig_scripts].
  assert (Q2Qc (-2 # 1) ≤ Q2Qc (3 # 1))%Qc as H1 by (by vm_compute).
  assert (Q2Qc (85 # 100) ≤ Q2Qc (95 # 100))%Qc as H2 by (by vm_compute).
  assert (Q2Qc (10 # 1) ≤ Q2Qc (50 # 1))%Qc as H3 by (by vm_compute).
  assert (Q2Qc (1 # 100) ≤ Q2Qc (1 # 10))%Qc as H4 by (by vm_compute).
  split; [reflexivity|]. split; [reflexivity|]. split; [reflexivity|].
  split; [|split; [|split; [|split; [|split; [|split; [|split]]]]]].
  - destruct (uniform_in_range (rand_draws en) _ _ H1) as [Hlo Hhi].
    split; by apply Qcplus_le_mono_l.
  - by apply uniform_in_range.
  - by apply uniform_in_range.
  - case_bool_decide as Huq; split; done.
  - case_bool_decide as Huq; [|done]. intros x [= <-]. eexists. split; [done|].
    by apply uniform_in_range.
  - case_bool_decide as Huq.
    + by rewrite decide_False.
    + rewrite decide_True; [done|]. by destruct (decide (uq_scheme c = "None")).
  - done.
  - done.
Qed.

End SimulatedExecutor.

Section LoopInvariants.

Context `{py : Runtime}.

Variable format_float : nat → pyfloat → string.
Variable repr_str : string → string.
Variable uuid4 : nat → string.
Variable planner_step :
  gmap string pyval → gmap string (list string) → Z → result (list Configuration).
Variable run_campaign : executor.
Variable design_space : gmap string (list string).
Variable budget_max : Z.

(** A property of the loop state that the two calls of the loop keep and that
    does not look at [budget_used] or at the planner context. *)
Variable P : LoopState → Prop.
Hypothesis P_run_campaign :
  ∀ c, preserves P (AIScientistLoop.call_run_campaign run_campaign c).
Hypothesis P_update :
  ∀ c m a, preserves P (AIScientistLoop.call_update uuid4 c m a).
Hypothesis P_budget : ∀ b, preserves P (set_budget_used b).
Hypothesis P_context : ∀ k v, preserves P (set_planner_context k v).

Lemma preserves_bind {A B} (m : loopM A) (f : A → loopM B) :
  preserves P m → (∀ a, preserves P (f a)) → preserves P (m ≫= f).
Proof.
  intros Hm Hf s Hs. rewrite bind_run. specialize (Hm s Hs).
  destruct (m s) as [s' [a|e|]]; simpl in *; [by apply Hf|done|done].
Qed.

Lemma preserves_ret {A} (a : A) : preserves P (mret a).
Proof. by intros s Hs. Qed.

Lemma preserves_lift {A} (r : result A) : preserves P (lift_result r).
Proof. by intros s Hs. Qed.

Lemma preserves_get : preserves P get_state.
Proof. by intros s Hs. Qed.

Lemma preserves_seed_phase configs :
  preserves P (AIScientistLoop.seed_phase uuid4 run_campaign configs).
Proof.
  induction configs as [|c configs IH]; simpl; [apply preserves_ret|].
  apply preserves_bind; [apply P_run_campaign|]. intros ma.
  apply preserves_bind; [apply P_update|]. by intros _.
Qed.

Lemma preserves_execute_round cfgs :
  preserves P (AIScientistLoop.execute_round uuid4 run_campaign budget_max cfgs).
Proof.
  induction cfgs as [|c cfgs IH]; simpl; [apply preserves_ret|].
  apply preserves_bind; [apply P_run_campaign|]. intros ma.
  apply preserves_bind; [apply P_update|]. intros _.
  apply preserves_bind; [apply preserves_get|]. intros s.
  apply preserves_bind; [apply P_budget|]. intros _.
  case_bool_decide; [apply preserves_ret|done].
Qed.

Lemma preserves_discovery_round :
  preserves P (AIScientistLoop.discovery_round format_float repr_str uuid4
                 planner_step run_campaign design_space budget_max).
Proof.
  unfold AIScientistLoop.discovery_round.
  apply preserves_bind; [apply preserves_get|]. intros s.
  apply preserves_bind; [apply preserves_lift|]. intros _.
  apply preserves_bind; [apply preserves_lift|]. intros _.
  apply preserves_bind; [apply preserves_lift|]. intros _.
  apply preserves_bind; [apply preserves_lift|]. intros cfgs.
  apply preserves_bind; [apply preserves_execute_round|]. intros _.
  apply preserves_bind; [apply preserves_get|]. intros s'.
  apply preserves_bind; [apply preserves_lift|]. intros pt.
  apply preserves_bind; [apply P_context|]. intros _. apply P_context.
Qed.

Lemma preserves_discovery_loop fuel :
  preserves P (AIScientistLoop.discovery_loop format_float repr_str uuid4
                 planner_step run_campaign design_space budget_max fuel).
Proof.
  induction fuel as [|fuel IH]; intros s Hs; rewrite discovery_loop_unfold;
    case_bool_decide; try done.
  pose proof (preserves_discovery_round s Hs) as Hround.
  destruct (AIScientistLoop.discovery_round _ _ _ _ _ _ _ s) as [s' [[]|e|]];
    simpl in *; [by apply IH|done|done].
Qed.

Lemma preserves_run_with initial_configs fuel :
  preserves P (AIScientistLoop.run_with format_float repr_str uuid4 planner_step
                 run_campaign design_space initial_configs budget_max fuel).
Proof.
  unfold AIScientistLoop.run_with.
  apply preserves_bind; [apply preserves_seed_phase|]. intros _.
  apply preserves_bind; [apply P_budget|]. intros _.
  apply preserves_bind; [apply preserves_discovery_loop|]. intros _.
  apply preserves_bind; [apply preserves_get|]. intros s.
  apply preserves_bind; [apply preserves_lift|]. intros pt. apply preserves_ret.
Qed.

End LoopInvariants.

Section RunInvariants.

Context `{py : Runtime}.

Variable format_float : nat → pyfloat → string.
Variable repr_str : string → string.
Variable uuid4 : nat → string.
Variable planner_step :
  gmap string pyval → gmap string (list string) → Z → result (list Configuration).
Variable run_campaign : executor.
Variable design_space : gmap string (list string).
Variable budget_max : Z.

Local Abbreviation run_with :=
  (AIScientistLoop.run_with format_float repr_str uuid4 planner_step
     run_campaign design_space).
Local Abbreviation discovery_loop :=
  (AIScientistLoop.discovery_loop format_float repr_str uuid4 planner_step
     run_campaign design_space budget_max).

Lemma call_update_world_model c m a s :
  self_world_model (AIScientistLoop.call_update uuid4 c m a s).1
  = (WorldModelManager.update uuid4 (uuid_draws (entropy s)) (self_world_model s)
       c m a).1 ∧
  uuid_draws (entropy (AIScientistLoop.call_update uuid4 c m a s).1)
  = (WorldModelManager.update uuid4 (uuid_draws (entropy s)) (self_world_model s)
       c m a).2.
Proof.
  unfold AIScientistLoop.call_update.
  by destruct (WorldModelManager.update _ _ _ _ _ _).
Qed.

Lemma call_run_campaign_world_model c s :
  self_world_model (AIScientistLoop.call_run_campaign run_campaign c s).1
  = self_world_model s ∧
  entropy (AIScientistLoop.call_run_campaign run_campaign c s).1
  = (run_campaign (entropy s) c).1.
Proof.
  unfold AIScientistLoop.call_run_campaign.
  by destruct (run_campaign (entropy s) c).
Qed.

(** X25.  However [run] ends (it returns, it raises, or it is still
    running), for every planner and every executor, the indices of the world
    model of the loop list exactly its records: the family index holds the
    pairs (family, id) of the records in their order, the scheme index their
    pairs (scheme, id), and there is no other index. *)
Theorem run_index_exact (initial_configs : list Configuration) (en : Entropy)
    (fuel : nat) :
  let wm :=
    self_world_model
      (run_with initial_configs budget_max fuel (AIScientistLoop.initial_state en)).1 in
  defaultdict_get (indices wm) "recon_family" = family_pairs (experiments wm) ∧
  defaultdict_get (indices wm) "uq_scheme" = scheme_pairs (experiments wm) ∧
  ∀ k, k ≠ "recon_family" → k ≠ "uq_scheme" → indices wm !! k = None.
Proof.
  apply (preserves_run_with format_float repr_str uuid4 planner_step run_campaign
           design_space budget_max (λ s, index_exact (self_world_model s))).
  - intros c s Hs. by rewrite (proj1 (call_run_campaign_world_model c s)).
  - intros c m a s Hs. rewrite (proj1 (call_update_world_model c m a s)).
    by apply update_preserves_index_exact.
  - by intros b s Hs.
  - by intros k v s Hs.
  - split; [done|]. split; [done|]. intros k _ _. apply lookup_empty.
Qed.

Lemma ids_drawn_preserved initial_configs fuel :
  (∀ i j, uuid4 i = uuid4 j → i = j) →
  (∀ en c, (uuid_draws en ≤ uuid_draws (run_campaign en c).1)%nat) →
  preserves (ids_drawn uuid4) (run_with initial_configs budget_max fuel).
Proof.
  intros Hinj Hmono. apply preserves_run_with.
  - intros c s [Hnd Hold]. unfold ids_drawn, records in *.
    destruct (call_run_campaign_world_model c s) as [-> ->].
    split; [done|]. intros r Hr. destruct (Hold r Hr) as (k & Hk & Hlt).
    exists k. split; [done|]. specialize (Hmono (entropy s) c). lia.
  - intros c m a s [Hnd Hold]. unfold ids_drawn, records in *.
    destruct (call_update_world_model c m a s) as [-> ->].
    destruct (update_id_drawn uuid4 (uuid_draws (entropy s)) (self_world_model s) c m a)
      as (r & k & Hexp & Hid & Hge & Hlt & _).
    rewrite Hexp. split.
    + rewrite map_app. simpl. apply NoDup_app. split; [done|]. split.
      * intros i Hi Hi'. apply list_elem_of_singleton in Hi' as ->.
        apply list_elem_of_fmap in Hi as (r' & Heq & Hr').
        destruct (Hold r' Hr') as (k' & Hk' & Hlt').
        rewrite Hid, Hk' in Heq. apply Hinj in Heq. lia.
      * apply NoDup_singleton.
    + intros r'. rewrite elem_of_app, list_elem_of_singleton. intros [Hr'| ->].
      * destruct (Hold r' Hr') as (k' & Hk' & Hlt'). exists k'. split; [done|]. lia.
      * exists k. split; [done|lia].
  - by intros b s Hs.
  - by intros k v s Hs.
Qed.

(** X26.  When [uuid.uuid4] never returns the same identifier twice and the
    executor does not rewind the identifier source, the records of the world
    model of the loop have pairwise distinct ids, however [run] ends. *)
Theorem run_ids_distinct (initial_configs : list Configuration) (en : Entropy)
    (fuel : nat) :
  (∀ i j, uuid4 i = uuid4 j → i = j) →
  (∀ en c, (uuid_draws en ≤ uuid_draws (run_campaign en c).1)%nat) →
  NoDup (map id (records
    (run_with initial_configs budget_max fuel (AIScientistLoop.initial_state en)).1)).
Proof.
  intros Hinj Hmono.
  apply (ids_drawn_preserved initial_configs fuel Hinj Hmono
           (AIScientistLoop.initial_state en)).
  split; [apply NoDup_nil_2|]. intros r Hr. by apply elem_of_nil in Hr.
Qed.

(** X27.  When [run] returns the pair of a Pareto set and a world model,
    under the same assumptions on the identifiers, the world model is the one
    of the loop; and when none of its records has a PSNR or a coverage that is
    NaN, the Pareto set holds exactly the ids of its records that no record
    of the same reconstruction family and the same UQ scheme dominates on PSNR
    and coverage. *)
Theorem run_result_exact (initial_configs : list Configuration) (en : Entropy)
    (fuel : nat) (s : LoopState) (ids : gset string) (wm : WorldModel) :
  (∀ i j, uuid4 i = uuid4 j → i = j) →
  (∀ en c, (uuid_draws en ≤ uuid_draws (run_campaign en c).1)%nat) →
  run_with initial_configs budget_max fuel (AIScientistLoop.initial_state en)
  = (s, Returned (ids, wm)) →
  ordered_on (experiments wm) ["psnr"; "coverage"] = true →
  wm = self_world_model s ∧
  ∀ i, i ∈ ids ↔
       ∃ a, a ∈ experiments wm ∧ id a = i ∧
            ¬ ∃ b, b ∈ experiments wm ∧
                   recon_family (config b) = recon_family (config a) ∧
                   uq_scheme (config b) = uq_scheme (config a) ∧
                   dominates ["psnr"; "coverage"] b a.
Proof.
  intros Hinj Hmono Hrun Ho.
  pose proof (ids_drawn_preserved initial_configs fuel Hinj Hmono
                (AIScientistLoop.initial_state en)) as [Hnd _].
  { split; [apply NoDup_nil_2|]. intros r Hr. by apply elem_of_nil in Hr. }
  rewrite Hrun in Hnd. simpl in Hnd. unfold records in Hnd.
  rewrite run_with_unfold in Hrun.
  destruct (AIScientistLoop.seed_phase _ _ _ _) as [s1 [[]|e|]]; [|done|done].
  destruct (AIScientistLoop.discovery_loop _ _ _ _ _ _ _ _ _) as [s2 [[]|e|]];
    [|done|done].
  destruct (AnalysisAgent.analysis_step _ _ (self_world_model s2)) as [pt|e] eqn:Hstep;
    [|done].
  injection Hrun as <- <- <-.
  destruct (analysis_step_exact_members format_float repr_str (self_world_model s2)
              Hnd Ho) as (ids' & trends & Hstep' & Hiff).
  rewrite Hstep in Hstep'. injection Hstep' as ->. done.
Qed.

Lemma seed_phase_configs configs s :
  never_raises run_campaign →
  map config (records (AIScientistLoop.seed_phase uuid4 run_campaign configs s).1)
  = map config (records s) ++ configs.
Proof.
  intros Hok. revert s. induction configs as [|c configs IH]; intros s; simpl.
  - by rewrite app_nil_r.
  - rewrite bind_run.
    destruct (call_run_campaign_state run_campaign c s) as (s1 & Hr1 & _ & _ & _ & ->).
    specialize (Hok (entropy s) c).
    destruct ((run_campaign (entropy s) c).2) as [[m a]|e]; [|done].
    rewrite bind_run. simpl.
    pose proof (call_update_world_model c m a s1) as [Hwm _].
    destruct (update_id_drawn uuid4 (uuid_draws (entropy s1)) (self_world_model s1) c m a)
      as (r & k & Hexp & _ & _ & _ & Hc & _).
    destruct (AIScientistLoop.call_update uuid4 c m a s1) as [s2 o] eqn:Hupd.
    assert (o = Returned ()) as ->.
    { unfold AIScientistLoop.call_update in Hupd.
      destruct (WorldModelManager.update _ _ _ _ _ _). by injection Hupd as _ <-. }
    rewrite IH. unfold records in *. simpl in Hwm. rewrite Hwm, Hexp, map_app, Hr1.
    simpl. rewrite Hc. simpl. by rewrite <- app_assoc.
Qed.

(** X28.  With an executor that does not raise, the seed configurations come
    first in the world model of the loop, in the order in which they were
    given, for every planner and however the discovery phase ends. *)
Theorem run_seeds_first (initial_configs : list Configuration) (en : Entropy)
    (fuel : nat) :
  never_raises run_campaign →
  ∃ later,
    map config (records
      (run_with initial_configs budget_max fuel (AIScientistLoop.initial_state en)).1)
    = initial_configs ++ later.
Proof.
  intros Hok.
  pose proof (seed_phase_configs initial_configs (AIScientistLoop.initial_state en) Hok)
    as Hseed.
  destruct (seed_phase_appends uuid4 run_campaign initial_configs
              (AIScientistLoop.initial_state en) Hok) as (s1 & Hs1 & _).
  rewrite Hs1 in Hseed. simpl in Hseed.
  assert (starts_with initial_configs
            (discovery_loop fuel
               (set_budget_used (Z.of_nat (length initial_configs)) s1).1).1) as Hprefix.
  { apply (preserves_discovery_loop format_float repr_str uuid4 planner_step
             run_campaign design_space budget_max (starts_with initial_configs)).
    - intros c s [later Hl]. exists later. unfold records in *.
      by rewrite (proj1 (call_run_campaign_world_model c s)).
    - intros c m a s [later Hl]. unfold starts_with, records in *.
      rewrite (proj1 (call_update_world_model c m a s)).
      destruct (update_id_drawn uuid4 (uuid_draws (entropy s)) (self_world_model s) c m a)
        as (r & k & Hexp & _).
      rewrite Hexp, map_app, Hl. exists (later ++ map config [r]).
      by rewrite <- app_assoc.
    - by intros b s Hs.
    - by intros k v s Hs.
    - exists []. unfold records in *. simpl. by rewrite Hseed, app_nil_r. }
  rewrite run_with_unfold, Hs1.
  destruct (discovery_loop fuel _) as [s2 [[]|e|]]; simpl in *; try done.
  by destruct (AnalysisAgent.analysis_step _ _ _).
Qed.

End RunInvariants.

(** *** The further properties on concrete inputs *)

Lemma decimal_uuid4_inj : ∀ i j, decimal_uuid4 i = decimal_uuid4 j → i = j.
Proof. intros i j Heq. by apply (inj pretty) in Heq. Defined.

Lemma simulated_executor_monotone uniform uuid4 :
  ∀ en c, (uuid_draws en ≤ uuid_draws (Executor.run_campaign uniform uuid4 en c).1)%nat.
Proof. intros en c. simpl. lia. Defined.

Lemma sample_families_declared :
  ∃ first others, sample_design_space !! "recon_families" = Some (first :: others).
Proof. eexists _, _. reflexivity. Defined.

Lemma update_all_ids_distinct_witness :
  (∀ i j, decimal_uuid4 i = decimal_uuid4 j → i = j) ∧
  NoDup (map id (experiments
    (update_all decimal_uuid4 0 WorldModel_new sample_runs).1)).
Proof.
  split; [exact decimal_uuid4_inj|].
  apply (update_all_ids_distinct decimal_uuid4 0 sample_runs decimal_uuid4_inj).
Defined.

Lemma compute_pareto_front_subset_ids_witness :
  AnalysisAgent.compute_pareto_front [record_A; record_B] ["psnr"; "coverage"]
  = Ok {["A"]} ∧
  "A" ∈ ({["A"]} : gset string) ∧ "A" ∈ map id [record_A; record_B].
Proof.
  assert (AnalysisAgent.compute_pareto_front [record_A; record_B]
            ["psnr"; "coverage"] = Ok {["A"]}) as Hfront
    by (vm_compute; reflexivity).
  assert ("A" ∈ ({["A"]} : gset string)) as Hin by (by apply elem_of_singleton).
  split; [exact Hfront|]. split; [exact Hin|].
  exact (compute_pareto_front_subset_ids [record_A; record_B] ["psnr"; "coverage"]
           {["A"]} Hfront "A" Hin).
Defined.

Lemma compute_pareto_front_same_id_witness :
  [record_A] ≠ [] ∧ (∀ b, b ∈ [record_A] → id b = "A") ∧
  AnalysisAgent.compute_pareto_front [record_A] ["calibration_error"] = Ok {["A"]}.
Proof.
  assert (∀ b, b ∈ [record_A] → id b = "A") as Hid.
  { intros b Hb. apply list_elem_of_singleton in Hb. rewrite Hb. reflexivity. }
  split; [discriminate|]. split; [exact Hid|].
  apply (compute_pareto_front_same_id [record_A] ["calibration_error"] "A");
    [discriminate|exact Hid].
Defined.

Lemma compute_pareto_front_raises_TypeError_witness :
  is_comparable (objective_value record_A "calibration_error") = false ∧
  (∃ b, b ∈ [record_B] ∧ id b ≠ id record_A) ∧
  AnalysisAgent.compute_pareto_front (record_A :: [record_B])
    ("calibration_error" :: ["psnr"]) = Raise TypeError.
Proof.
  assert (∃ b, b ∈ [record_B] ∧ id b ≠ id record_A) as Hother.
  { exists record_B. split; [left|discriminate]. }
  split; [reflexivity|]. split; [exact Hother|].
  apply (compute_pareto_front_raises_TypeError record_A [record_B]
           "calibration_error" ["psnr"]); [reflexivity|exact Hother].
Defined.

Lemma compute_pareto_front_permutation_witness :
  [record_A; record_B] ≡ₚ [record_B; record_A] ∧
  numeric_on [record_A; record_B] ["psnr"; "coverage"] = true ∧
  AnalysisAgent.compute_pareto_front [record_A; record_B] ["psnr"; "coverage"]
  = AnalysisAgent.compute_pareto_front [record_B; record_A] ["psnr"; "coverage"].
Proof.
  split; [apply perm_swap|]. split; [reflexivity|].
  apply (compute_pareto_front_permutation [record_A; record_B] [record_B; record_A]
           ["psnr"; "coverage"]); [apply perm_swap|reflexivity].
Defined.

Lemma compute_pareto_front_sublist_witness :
  numeric_on [record_A; record_B] ["psnr"; "coverage"] = true ∧
  [record_A] ⊆ [record_A; record_B] ∧
  NoDup (map id [record_A; record_B]) ∧
  AnalysisAgent.compute_pareto_front [record_A; record_B] ["psnr"; "coverage"]
  = Ok {["A"]} ∧
  AnalysisAgent.compute_pareto_front [record_A] ["psnr"; "coverage"] = Ok {["A"]} ∧
  record_A ∈ [record_A] ∧ id record_A ∈ ({["A"]} : gset string).
Proof.
  assert ([record_A] ⊆ [record_A; record_B]) as Hsub.
  { intros x Hx. apply list_elem_of_singleton in Hx. rewrite Hx. left. }
  assert (AnalysisAgent.compute_pareto_front [record_A; record_B]
            ["psnr"; "coverage"] = Ok {["A"]}) as H1 by (vm_compute; reflexivity).
  assert (AnalysisAgent.compute_pareto_front [record_A] ["psnr"; "coverage"]
          = Ok {["A"]}) as H2 by (vm_compute; reflexivity).
  assert (record_A ∈ [record_A]) as H3 by left.
  assert (id record_A ∈ ({["A"]} : gset string)) as H4
    by (by apply elem_of_singleton).
  split; [reflexivity|]. split; [exact Hsub|]. split; [exact NoDup_ids_A_B|].
  split; [exact H1|]. split; [exact H2|]. split; [exact H3|].
  exact (compute_pareto_front_sublist [record_A; record_B] [record_A]
           ["psnr"; "coverage"] {["A"]} {["A"]} record_A eq_refl Hsub NoDup_ids_A_B
           H1 H2 H3 H4).
Defined.

Lemma analysis_step_exact_witness :
  NoDup (map id (experiments world_model_A_B)) ∧
  ordered_on (experiments world_model_A_B) ["psnr"; "coverage"] = true ∧
  ∃ ids trends,
    AnalysisAgent.analysis_step fraction_format quote_repr world_model_A_B
    = Ok (ids, trends) ∧
    ∀ i, i ∈ ids ↔
         ∃ a, a ∈ experiments world_model_A_B ∧ id a = i ∧
              ¬ ∃ b, b ∈ experiments world_model_A_B ∧
                     recon_family (config b) = recon_family (config a) ∧
                     uq_scheme (config b) = uq_scheme (config a) ∧
                     dominates ["psnr"; "coverage"] b a.
Proof.
  split; [exact NoDup_ids_A_B|]. split; [reflexivity|].
  exact (analysis_step_exact fraction_format quote_repr world_model_A_B
           NoDup_ids_A_B eq_refl).
Defined.

Lemma analysis_step_contains_global_front_witness :
  NoDup (map id (experiments world_model_A_B)) ∧
  ∃ S ids trends,
    AnalysisAgent.compute_pareto_front (experiments world_model_A_B)
      ["psnr"; "coverage"] = Ok S ∧
    AnalysisAgent.analysis_step fraction_format quote_repr world_model_A_B
    = Ok (ids, trends) ∧
    S ⊆ ids.
Proof.
  split; [exact NoDup_ids_A_B|].
  exact (analysis_step_contains_global_front fraction_format quote_repr
           world_model_A_B NoDup_ids_A_B).
Defined.

Lemma analysis_step_covers_strata_witness :
  NoDup (map id (experiments world_model_A_B)) ∧
  ordered_on (experiments world_model_A_B) ["psnr"; "coverage"] = true ∧
  ∃ ids trends,
    AnalysisAgent.analysis_step fraction_format quote_repr world_model_A_B
    = Ok (ids, trends) ∧
    ∀ a, a ∈ experiments world_model_A_B →
         ∃ b, b ∈ experiments world_model_A_B ∧
              recon_family (config b) = recon_family (config a) ∧
              uq_scheme (config b) = uq_scheme (config a) ∧
              id b ∈ ids.
Proof.
  split; [exact NoDup_ids_A_B|]. split; [reflexivity|].
  exact (analysis_step_covers_strata fraction_format quote_repr world_model_A_B
           NoDup_ids_A_B eq_refl).
Defined.

Lemma compute_calibration_stats_bounds_witness :
  record_C ∈ [record_A; record_C] ∧
  calibration_error (metrics record_C) = Some (Finite (Q2Qc (5 # 100))) ∧
  (∀ e' x, e' ∈ [record_A; record_C] → calibration_error (metrics e') = Some x →
           is_nan x = false) ∧
  ∃ lo hi,
    AnalysisAgent.compute_calibration_stats [record_A; record_C] !! "min_error"
    = Some lo ∧
    AnalysisAgent.compute_calibration_stats [record_A; record_C] !! "max_error"
    = Some hi ∧
    float_le lo (Finite (Q2Qc (5 # 100))) = true ∧
    float_le (Finite (Q2Qc (5 # 100))) hi = true.
Proof.
  assert (record_C ∈ [record_A; record_C]) as Hin by (right; left).
  assert (∀ e' x, e' ∈ [record_A; record_C] →
                  calibration_error (metrics e') = Some x → is_nan x = false)
    as Hnan.
  { intros e' x He' Hx. apply elem_of_cons in He' as [->|He']; [discriminate Hx|].
    apply list_elem_of_singleton in He' as ->. by injection Hx as <-. }
  split; [exact Hin|]. split; [reflexivity|]. split; [exact Hnan|].
  destruct (compute_calibration_stats_bounds [record_A; record_C] record_C
              (Finite (Q2Qc (5 # 100))) Hin eq_refl Hnan)
    as (lo & hi & Hlo & Hhi & _ & Hle1 & Hle2 & _).
  exists lo, hi. split; [exact Hlo|]. split; [exact Hhi|].
  split; [exact Hle1|exact Hle2].
Defined.

Lemma summarize_world_model_best_witness :
  experiments world_model_A_B ≠ [] ∧
  (∀ e, e ∈ experiments world_model_A_B → is_nan (psnr (metrics e)) = false) ∧
  ∃ best,
    best ∈ experiments world_model_A_B ∧
    Planner.summarize_world_model world_model_A_B !! "best_psnr"
    = Some (PFloat (psnr (metrics best))) ∧
    Planner.summarize_world_model world_model_A_B !! "best_config"
    = Some (PStr (recon_family (config best))).
Proof.
  assert (∀ e, e ∈ experiments world_model_A_B → is_nan (psnr (metrics e)) = false)
    as Hnan.
  { intros e He. apply elem_of_cons in He as [->|He]; [reflexivity|].
    apply list_elem_of_singleton in He as ->. reflexivity. }
  split; [discriminate|]. split; [exact Hnan|].
  destruct (summarize_world_model_best world_model_A_B)
    as (pre & best & post & Heq & _ & _ & _ & Hpsnr & Hcfg & _);
    [discriminate|exact Hnan|].
  exists best. split; [|split; [exact Hpsnr|exact Hcfg]].
  rewrite Heq. apply elem_of_app. right. left.
Defined.

Lemma summarize_world_model_counts_witness :
  experiments world_model_A_B ≠ [] ∧
  Planner.summarize_world_model world_model_A_B !! "recon_families"
  = Some (counts_to_pyval
            (tag_counts (map (λ e, recon_family (config e))
                           (experiments world_model_A_B)))) ∧
  Planner.summarize_world_model world_model_A_B !! "uq_schemes"
  = Some (counts_to_pyval
            (tag_counts (map (λ e, uq_scheme (config e))
                           (experiments world_model_A_B)))).
Proof.
  split; [discriminate|].
  apply (summarize_world_model_counts world_model_A_B). discriminate.
Defined.

Example tag_counts_example :
  tag_counts ["CIAS-Core"; "Baseline-CNN"; "CIAS-Core"]
  = [("CIAS-Core", 2); ("Baseline-CNN", 1)].
Proof. vm_compute. reflexivity. Qed.

Lemma lowest_uniform_in_range :
  ∀ n a b, (a ≤ b)%Qc → (a ≤ lowest_uniform n a b ∧ lowest_uniform n a b ≤ b)%Qc.
Proof. intros n a b Hab. split; [apply Qcle_refl|exact Hab]. Defined.

Lemma run_campaign_simulated_witness :
  (∀ n a b, (a ≤ b)%Qc → (a ≤ lowest_uniform n a b ∧ lowest_uniform n a b ≤ b)%Qc) ∧
  ∃ en' m art,
    Executor.run_campaign lowest_uniform decimal_uuid4 entropy0 seed_config
    = (en', Ok (m, art)) ∧
    (calibration_error m = None ↔ uq_scheme seed_config = "None") ∧
    rand_draws en' = 4%nat ∧ uuid_draws en' = 2%nat.
Proof.
  split; [exact lowest_uniform_in_range|].
  destruct (run_campaign_simulated lowest_uniform decimal_uuid4
              lowest_uniform_in_range entropy0 seed_config)
    as (en' & m & art & p & cv & lat & Hrun & _ & _ & _ & _ & _ & _ & Hcal & _
        & Hrand & Huuid & _).
  exists en', m, art. split; [exact Hrun|]. split; [exact Hcal|].
  split; [exact Hrand|exact Huuid].
Defined.

Lemma run_returns_witness :
  never_raises (Executor.run_campaign midpoint_uniform decimal_uuid4) ∧
  (∃ first others, sample_design_space !! "recon_families" = Some (first :: others)) ∧
  [seed_config] ≠ [] ∧
  (Z.to_nat (3 - Z.of_nat (length [seed_config])) ≤ 5)%nat ∧
  ∃ ids s,
    sample_run = (s, Returned (ids, self_world_model s)) ∧
    Z.of_nat (length (records s)) = Z.max 3 (Z.of_nat (length [seed_config])) ∧
    ∀ i, i ∈ ids → i ∈ map id (records s).
Proof.
  assert (Z.to_nat (3 - Z.of_nat (length [seed_config])) ≤ 5)%nat as Hfuel
    by (vm_compute; lia).
  split; [apply simulated_executor_never_raises|].
  split; [exact sample_families_declared|]. split; [discriminate|].
  split; [exact Hfuel|].
  apply (run_returns fraction_format quote_repr opaque_repr decimal_uuid4
           (Executor.run_campaign midpoint_uniform decimal_uuid4)
           sample_design_space 3
           (simulated_executor_never_raises midpoint_uniform decimal_uuid4)
           sample_families_declared [seed_config] entropy0 5);
    [discriminate|exact Hfuel].
Defined.

Lemma run_ids_distinct_witness :
  (∀ i j, decimal_uuid4 i = decimal_uuid4 j → i = j) ∧
  (∀ en c, (uuid_draws en
            ≤ uuid_draws (Executor.run_campaign midpoint_uniform decimal_uuid4 en c).1)%nat) ∧
  NoDup (map id (records sample_run.1)).
Proof.
  split; [exact decimal_uuid4_inj|].
  split; [apply simulated_executor_monotone|].
  apply (run_ids_distinct fraction_format quote_repr decimal_uuid4
           (Planner.planner_step opaque_repr)
           (Executor.run_campaign midpoint_uniform decimal_uuid4)
           sample_design_space 3 [seed_config] entropy0 5 decimal_uuid4_inj
           (simulated_executor_monotone midpoint_uniform decimal_uuid4)).
Defined.

Lemma run_result_exact_witness :
  sample_run
  = (sample_run.1, Returned (returned_ids sample_run.2, self_world_model sample_run.1)) ∧
  ordered_on (records sample_run.1) ["psnr"; "coverage"] = true ∧
  ∀ i, i ∈ returned_ids sample_run.2 ↔
       ∃ a, a ∈ records sample_run.1 ∧ id a = i ∧
            ¬ ∃ b, b ∈ records sample_run.1 ∧
                   recon_family (config b) = recon_family (config a) ∧
                   uq_scheme (config b) = uq_scheme (config a) ∧
                   dominates ["psnr"; "coverage"] b a.
Proof.
  assert (sample_run
          = (sample_run.1,
             Returned (returned_ids sample_run.2, self_world_model sample_run.1)))
    as Hrun by (vm_compute; reflexivity).
  assert (ordered_on (records sample_run.1) ["psnr"; "coverage"] = true) as Ho
    by (vm_compute; reflexivity).
  split; [exact Hrun|]. split; [exact Ho|].
  exact (proj2 (run_result_exact fraction_format quote_repr decimal_uuid4
                  (Planner.planner_step opaque_repr)
                  (Executor.run_campaign midpoint_uniform decimal_uuid4)
                  sample_design_space 3 [seed_config] entropy0 5 sample_run.1
                  (returned_ids sample_run.2) (self_world_model sample_run.1)
                  decimal_uuid4_inj
                  (simulated_executor_monotone midpoint_uniform decimal_uuid4) Hrun
                  Ho)).
Defined.

Lemma run_seeds_first_witness :
  never_raises (Executor.run_campaign midpoint_uniform decimal_uuid4) ∧
  ∃ later, map config (records sample_run.1) = [seed_config] ++ later.
Proof.
  split; [apply simulated_executor_never_raises|].
  apply (run_seeds_first fraction_format quote_repr decimal_uuid4
           (Planner.planner_step opaque_repr)
           (Executor.run_campaign midpoint_uniform decimal_uuid4)
           sample_design_space 3 [seed_config] entropy0 5
           (simulated_executor_never_raises midpoint_uniform decimal_uuid4)).
Defined.
